(** * AionUi skills: office and dashboard scripts

    A shallow embedding of the scripts under [skills/xlsx] and [skills/chrome]:

    - [skills/xlsx/excel_advanced.js]: [getColumnLetter], [analyzeData],
      [addAutofilter], [compareFiles];
    - [skills/xlsx/scripts/csv_to_excel.js] ([csvToExcel]) and
      [skills/xlsx/scripts/excel_to_csv.js] ([excelToCSV]);
    - [skills/chrome/scripts/monitor_dashboard.js]: [detectAnomalies],
      [extractDashboardData], [monitorDashboard].

    The libraries the scripts call (ExcelJS, Playwright) are not part of the
    repository.  A worksheet is modelled by the grid of its cell values, a
    browser page by the answers it gives during one check. *)

From Equations Require Import Equations.
From Stdlib Require Import List Arith NArith ZArith QArith Lia Bool.
From Stdlib Require Import String Ascii DecimalString DecimalNat Sorted.
Import ListNotations.

Open Scope string_scope.
Open Scope nat_scope.

(* ===================================================================== *)
(** * JavaScript strings and numbers *)
(* ===================================================================== *)

Module JS.

(** Text is a Rocq string: a sequence of code units below 256.  The three
    delimiter characters of the CSV scripts: *)
Definition comma : ascii := ascii_of_nat 44.
Definition dquote : ascii := ascii_of_nat 34.
Definition newline : ascii := ascii_of_nat 10.


(** [String.fromCharCode(code)]: the string of one code unit, [code] taken
    modulo 2^16.  It is returned as its code units, since the unit can
    exceed 255. *)
Definition fromCharCode (code : nat) : list nat :=
  [N.to_nat (N.of_nat code mod 65536)].

(** The text with the given code units (all below 256 where it is used). *)
Fixpoint ofCodeUnits (units : list nat) : string :=
  match units with
  | [] => EmptyString
  | u :: rest => String (ascii_of_nat u) (ofCodeUnits rest)
  end.

(** [`${n}`] for a non-negative integer [n]. *)
Definition natToString (n : nat) : string :=
  NilZero.string_of_uint (Nat.to_uint n).

(** White space and line terminators below 256, as [String.prototype.trim]
    and the numeric-literal grammar see them. *)
Definition isWhiteSpace (c : ascii) : bool :=
  let n := nat_of_ascii c in
  ((9 <=? n) && (n <=? 13)) || (n =? 32) || (n =? 160).

Fixpoint trimStart (s : string) : string :=
  match s with
  | EmptyString => EmptyString
  | String c rest => if isWhiteSpace c then trimStart rest else s
  end.

Fixpoint trimEnd (s : string) : string :=
  match s with
  | EmptyString => EmptyString
  | String c rest =>
      match trimEnd rest with
      | EmptyString => if isWhiteSpace c then EmptyString else String c EmptyString
      | t => String c t
      end
  end.

(** [s.trim()] *)
Definition trim (s : string) : string := trimEnd (trimStart s).

(** [s.split(sep)] for a separator of one character. *)
Fixpoint split (sep : ascii) (s : string) : list string :=
  match s with
  | EmptyString => [EmptyString]
  | String c rest =>
      if Ascii.eqb c sep then EmptyString :: split sep rest
      else match split sep rest with
           | [] => [String c EmptyString]
           | field :: fields => String c field :: fields
           end
  end.

(** [parts.join(sep)] *)
Fixpoint join (sep : string) (parts : list string) : string :=
  match parts with
  | [] => EmptyString
  | [part] => part
  | part :: rest => part ++ sep ++ join sep rest
  end.

(** [s.includes(c)] for a string [c] of one character. *)
Fixpoint includes (c : ascii) (s : string) : bool :=
  match s with
  | EmptyString => false
  | String d rest => Ascii.eqb d c || includes c rest
  end.

(** [s.replace(/c/g, by)] for one character [c]. *)
Fixpoint replaceAll (c : ascii) (by_ : string) (s : string) : string :=
  match s with
  | EmptyString => EmptyString
  | String d rest =>
      (if Ascii.eqb d c then by_ else String d EmptyString) ++ replaceAll c by_ rest
  end.

(** ** Numbers

    A number is an exact rational, an infinity or NaN: rounding to binary64
    is not modelled, and there is no negative zero.  A theorem that depends
    on the digits of a number, or on a sum or a quotient, bounds its inputs
    to where the exact value is the value the code computes, unless it is
    stated for exact arithmetic. *)
Inductive number : Type :=
| Finite (q : Q)
| Infinite (negative : bool)
| NaN.

Definition numIsNaN (x : number) : bool :=
  match x with NaN => true | _ => false end.

(** [x === y] on numbers *)
Definition numEq (x y : number) : bool :=
  match x, y with
  | Finite a, Finite b => Qeq_bool a b
  | Infinite s, Infinite t => Bool.eqb s t
  | _, _ => false
  end.

(** [x < y] on numbers *)
Definition numLt (x y : number) : bool :=
  match x, y with
  | NaN, _ | _, NaN => false
  | Finite a, Finite b => negb (Qle_bool b a)
  | Finite _, Infinite neg => negb neg
  | Infinite neg, Finite _ => neg
  | Infinite s, Infinite t => s && negb t
  end.

(** [x + y] *)
Definition numAdd (x y : number) : number :=
  match x, y with
  | NaN, _ | _, NaN => NaN
  | Finite a, Finite b => Finite (a + b)
  | Finite _, Infinite t => Infinite t
  | Infinite s, Finite _ => Infinite s
  | Infinite s, Infinite t => if Bool.eqb s t then Infinite s else NaN
  end.

Definition qNegative (q : Q) : bool := negb (Qle_bool 0 q).

(** [x / y] *)
Definition numDiv (x y : number) : number :=
  match x, y with
  | NaN, _ | _, NaN => NaN
  | Finite a, Finite b =>
      if Qeq_bool b 0
      then (if Qeq_bool a 0 then NaN else Infinite (qNegative a))
      else Finite (a / b)
  | Finite _, Infinite _ => Finite 0
  | Infinite s, Finite b => Infinite (xorb s (qNegative b))
  | Infinite _, Infinite _ => NaN
  end.

(** [Math.min(...xs)] and [Math.max(...xs)] *)
Definition numMin2 (x y : number) : number :=
  match x, y with
  | NaN, _ | _, NaN => NaN
  | _, _ => if numLt y x then y else x
  end.

Definition numMax2 (x y : number) : number :=
  match x, y with
  | NaN, _ | _, NaN => NaN
  | _, _ => if numLt x y then y else x
  end.

Definition Math_min (xs : list number) : number :=
  fold_left numMin2 xs (Infinite false).

Definition Math_max (xs : list number) : number :=
  fold_left numMax2 xs (Infinite true).

(** ** Text to number

    [Number(s)] and [parseFloat(s)], from the StringNumericLiteral grammar of
    ECMAScript. *)
Definition isDigit (c : ascii) : bool :=
  let n := nat_of_ascii c in (48 <=? n) && (n <=? 57).

(** The longest run of decimal digits at the start of [s], and the rest. *)
Fixpoint spanDigits (s : string) : string * string :=
  match s with
  | EmptyString => (EmptyString, EmptyString)
  | String c rest =>
      if isDigit c
      then let (digits, tail) := spanDigits rest in (String c digits, tail)
      else (EmptyString, s)
  end.

Fixpoint digitsValue (acc : Z) (digits : string) : Z :=
  match digits with
  | EmptyString => acc
  | String c rest => digitsValue (10 * acc + Z.of_nat (nat_of_ascii c - 48)) rest
  end.

Fixpoint stripPrefix (p s : string) : option string :=
  match p, s with
  | EmptyString, _ => Some s
  | String a p', String b s' => if Ascii.eqb a b then stripPrefix p' s' else None
  | String _ _, EmptyString => None
  end.

(** A sign character at the start of [s]: whether it is a minus, and the rest. *)
Definition takeSign (s : string) : bool * string :=
  match s with
  | String c rest =>
      if Ascii.eqb c "+" then (false, rest)
      else if Ascii.eqb c "-" then (true, rest)
      else (false, s)
  | EmptyString => (false, s)
  end.

(** ExponentPart: [e] or [E], an optional sign, at least one digit.  Without
    a digit nothing is consumed. *)
Definition parseExponent (s : string) : Z * string :=
  match s with
  | String c rest =>
      if Ascii.eqb c "e" || Ascii.eqb c "E" then
        let (neg, r1) := takeSign rest in
        match spanDigits r1 with
        | (EmptyString, _) => (0%Z, s)
        | (digits, r2) =>
            ((if neg then - digitsValue 0 digits else digitsValue 0 digits)%Z, r2)
        end
      else (0%Z, s)
  | EmptyString => (0%Z, s)
  end.

(** The longest StrUnsignedDecimalLiteral at the start of [s]. *)
Definition parseUnsignedDecimal (s : string) : option (number * string) :=
  match stripPrefix "Infinity" s with
  | Some rest => Some (Infinite false, rest)
  | None =>
      let (ip, r1) := spanDigits s in
      let (fp, r2) :=
        match r1 with
        | String c r =>
            if Ascii.eqb c "." then
              let (f, r') := spanDigits r in
              match ip, f with
              | EmptyString, EmptyString => (EmptyString, r1)
              | _, _ => (f, r')
              end
            else (EmptyString, r1)
        | EmptyString => (EmptyString, r1)
        end in
      match ip ++ fp with
      | EmptyString => None
      | mantissa =>
          let (e, r3) := parseExponent r2 in
          Some (Finite (inject_Z (digitsValue 0 mantissa)
                        * (inject_Z 10) ^ (e - Z.of_nat (String.length fp)))%Q, r3)
      end
  end.

Definition numNeg (x : number) : number :=
  match x with
  | Finite q => Finite (- q)%Q
  | Infinite s => Infinite (negb s)
  | NaN => NaN
  end.

(** The longest StrDecimalLiteral at the start of [s]. *)
Definition parseDecimal (s : string) : option (number * string) :=
  let (neg, rest) := takeSign s in
  match parseUnsignedDecimal rest with
  | Some (x, tail) => Some (if neg then numNeg x else x, tail)
  | None => None
  end.

(** [parseFloat(s)] *)
Definition parseFloat (s : string) : number :=
  match parseDecimal (trimStart s) with
  | Some (x, _) => x
  | None => NaN
  end.

(** Binary, octal and hexadecimal integer literals: [0b..], [0o..], [0x..]. *)
Definition radixDigit (radix : nat) (c : ascii) : option nat :=
  let n := nat_of_ascii c in
  let v := if isDigit c then Some (n - 48)
           else if (97 <=? n) && (n <=? 102) then Some (n - 87)
           else if (65 <=? n) && (n <=? 70) then Some (n - 55)
           else None in
  match v with
  | Some d => if d <? radix then Some d else None
  | None => None
  end.

Fixpoint radixValue (radix : nat) (acc : Z) (s : string) : option Z :=
  match s with
  | EmptyString => Some acc
  | String c rest =>
      match radixDigit radix c with
      | Some d => radixValue radix (Z.of_nat radix * acc + Z.of_nat d) rest
      | None => None
      end
  end.

Definition radixOfMarker (c : ascii) : option nat :=
  if Ascii.eqb c "x" || Ascii.eqb c "X" then Some 16
  else if Ascii.eqb c "o" || Ascii.eqb c "O" then Some 8
  else if Ascii.eqb c "b" || Ascii.eqb c "B" then Some 2
  else None.

(** [Some x] when [s] starts like a non-decimal literal: [x] is its value, or
    NaN when no digit follows or a character is not a digit of the radix. *)
Definition parseRadixLiteral (s : string) : option number :=
  match s with
  | String z (String m rest) =>
      if Ascii.eqb z "0" then
        match radixOfMarker m with
        | Some radix =>
            match rest with
            | EmptyString => Some NaN
            | _ => match radixValue radix 0 rest with
                   | Some v => Some (Finite (inject_Z v))
                   | None => Some NaN
                   end
            end
        | None => None
        end
      else None
  | _ => None
  end.

(** [Number(s)] *)
Definition toNumber (s : string) : number :=
  match trim s with
  | EmptyString => Finite 0
  | t =>
      match parseRadixLiteral t with
      | Some x => x
      | None =>
          match parseDecimal t with
          | Some (x, EmptyString) => x
          | _ => NaN
          end
      end
  end.

(** [isNaN(s)] for a string [s] *)
Definition isNaN (s : string) : bool := numIsNaN (toNumber s).

(** ** Number to text

    [String(x)], Number::toString of ECMAScript.  A finite value is written
    with its first 17 significant digits (a binary64 carries no more); the
    rounding of the last digit is not modelled. *)
Fixpoint countDigits (fuel : nat) (z : Z) : nat :=
  match fuel with
  | O => O
  | S fuel' => if (z <? 1)%Z then O else S (countDigits fuel' (z / 10))
  end.

(** Number of decimal digits of [z > 0]. *)
Definition numDigits (z : Z) : nat := countDigits (S (Z.to_nat (Z.log2 z))) z.

(** For [0 < a < b]: the least [m] with [b <= a * 10^m]. *)
Fixpoint leadingShift (fuel : nat) (a b : Z) : nat :=
  match fuel with
  | O => O
  | S fuel' => if (b <=? a)%Z then O else S (leadingShift fuel' (10 * a) b)
  end.

(** The [n] with [10^(n-1) <= a/b < 10^n], for [a, b > 0]. *)
Definition magnitude (a b : Z) : Z :=
  if (b <=? a)%Z then Z.of_nat (numDigits (a / b))
  else (1 - Z.of_nat (leadingShift (S (Z.to_nat (Z.log2 b))) a b))%Z.

Fixpoint stripZeros (fuel : nat) (z : Z) : Z :=
  match fuel with
  | O => z
  | S fuel' => if (z mod 10 =? 0)%Z then stripZeros fuel' (z / 10) else z
  end.

(** The significant digits of [a/b] (at most 17, no trailing zero). *)
Definition significand (a b : Z) : Z :=
  let shift := (17 - magnitude a b)%Z in
  let s17 := if (0 <=? shift)%Z then (a * 10 ^ shift / b)%Z
             else (a / (b * 10 ^ (- shift)))%Z in
  stripZeros 17 s17.

Definition zToString (z : Z) : string :=
  NilZero.string_of_uint (N.to_uint (Z.to_N z)).

Fixpoint zeros (n : nat) : string :=
  match n with
  | O => EmptyString
  | S n' => String "0" (zeros n')
  end.

Fixpoint take (n : nat) (s : string) : string :=
  match n, s with
  | S n', String c rest => String c (take n' rest)
  | _, _ => EmptyString
  end.

Fixpoint drop (n : nat) (s : string) : string :=
  match n, s with
  | S n', String _ rest => drop n' rest
  | _, _ => s
  end.

(** Steps 6 to 10 of Number::toString: [digits] are the [k] digits of the
    significand and the value is [0.digits * 10^n]. *)
Definition formatDecimal (digits : string) (n : Z) : string :=
  let k := Z.of_nat (String.length digits) in
  if ((k <=? n) && (n <=? 21))%Z then digits ++ zeros (Z.to_nat (n - k))
  else if ((0 <? n) && (n <=? 21))%Z
  then take (Z.to_nat n) digits ++ "." ++ drop (Z.to_nat n) digits
  else if ((-6 <? n) && (n <=? 0))%Z
  then "0." ++ zeros (Z.to_nat (- n)) ++ digits
  else
    let e := (n - 1)%Z in
    let exponent := (if (e <? 0)%Z then "-" else "+") ++ zToString (Z.abs e) in
    if (k =? 1)%Z then digits ++ "e" ++ exponent
    else take 1 digits ++ "." ++ drop 1 digits ++ "e" ++ exponent.

Definition numberToString (x : number) : string :=
  match x with
  | NaN => "NaN"
  | Infinite false => "Infinity"
  | Infinite true => "-Infinity"
  | Finite q =>
      if Qeq_bool q 0 then "0"
      else
        let a := Z.abs (Qnum q) in
        let b := Z.pos (Qden q) in
        (if qNegative q then "-" else EmptyString)
        ++ formatDecimal (zToString (significand a b)) (magnitude a b)
  end.

End JS.

(* ===================================================================== *)
(** * Workbooks (the part of ExcelJS the scripts use) *)
(* ===================================================================== *)

Module Excel.
Import JS.

(** ** Cell values

    [cell.value] is [null], a number, a string, a boolean, or an object.
    Formula cells hold the object [{formula, result}]; rich text, hyperlink
    and error cells hold other plain objects.  An object is identified by
    its reference: [===] and [Set] compare references, not contents.  Date
    cells are left out. *)
Inductive primitive : Type :=
| PNull
| PNum (n : number)
| PStr (s : string)
| PBool (b : bool).

Inductive value : Type :=
| Prim (p : primitive)
| Formula (ref : nat) (formula : string) (result : primitive)
| Object (ref : nat).

Definition isNull (v : value) : bool :=
  match v with Prim PNull => true | _ => false end.

(** [typeof v] *)
Definition typeof (v : value) : string :=
  match v with
  | Prim (PNum _) => "number"
  | Prim (PStr _) => "string"
  | Prim (PBool _) => "boolean"
  | Prim PNull | Formula _ _ _ | Object _ => "object"
  end.

Definition refOf (v : value) : option nat :=
  match v with
  | Prim _ => None
  | Formula r _ _ | Object r => Some r
  end.

(** [a === b] *)
Definition strictEquals (a b : value) : bool :=
  match a, b with
  | Prim PNull, Prim PNull => true
  | Prim (PNum x), Prim (PNum y) => numEq x y
  | Prim (PStr s), Prim (PStr t) => String.eqb s t
  | Prim (PBool x), Prim (PBool y) => Bool.eqb x y
  | Prim _, _ | _, Prim _ => false
  | _, _ => match refOf a, refOf b with
            | Some r, Some r' => r =? r'
            | _, _ => false
            end
  end.

(** SameValueZero, the equality of [Set]: as [===], but NaN equals NaN. *)
Definition sameValueZero (a b : value) : bool :=
  match a, b with
  | Prim (PNum NaN), Prim (PNum NaN) => true
  | _, _ => strictEquals a b
  end.

(** [new Set(xs).size] *)
Fixpoint setOf (xs : list value) (seen : list value) : list value :=
  match xs with
  | [] => seen
  | x :: rest =>
      if existsb (sameValueZero x) seen then setOf rest seen
      else setOf rest (seen ++ [x])
  end.

Definition setSize (xs : list value) : nat := List.length (setOf xs []).

(** Truthiness, for [v || other] and [v ? a : b]. *)
Definition truthyPrim (p : primitive) : bool :=
  match p with
  | PNull => false
  | PNum (Finite q) => negb (Qeq_bool q 0)
  | PNum (Infinite _) => true
  | PNum NaN => false
  | PStr s => negb (String.eqb s EmptyString)
  | PBool b => b
  end.

Definition truthy (v : value) : bool :=
  match v with
  | Prim p => truthyPrim p
  | Formula _ _ _ | Object _ => true
  end.

(** [String(p)] *)
Definition primToString (p : primitive) : string :=
  match p with
  | PNull => "null"
  | PNum x => numberToString x
  | PStr s => s
  | PBool true => "true"
  | PBool false => "false"
  end.

(** ** Worksheets and workbooks

    [rows] is the row array of the sheet, row 1 first; a row is the array of
    its cells, column 1 first; a missing cell reads as [null]. *)
Record Worksheet : Type := {
  name : string;
  rows : list (list value)
}.

Definition Workbook : Type := list Worksheet.

(** [sheet.rowCount]: the number of the last row. *)
Definition rowCount (sheet : Worksheet) : nat := List.length (rows sheet).

(** [row.hasValues]: some cell of the row is not of the Null type. *)
Definition hasValues (row : list value) : bool :=
  existsb (fun v => negb (isNull v)) row.

(** [sheet.columnCount]: the largest cell count among the rows that have
    values. *)
Definition columnCount (sheet : Worksheet) : nat :=
  fold_right (fun row acc => if hasValues row then Nat.max (List.length row) acc else acc)
             0 (rows sheet).

(** [sheet.getCell(row, col).value], rows and columns counted from 1 (the
    scripts never ask for row or column 0). *)
Definition getCell (sheet : Worksheet) (row col : nat) : value :=
  nth (col - 1) (nth (row - 1) (rows sheet) []) (Prim PNull).

(** [workbook.getWorksheet(name)] *)
Definition getWorksheet (workbook : Workbook) (sheetName : string) : option Worksheet :=
  find (fun sheet => String.eqb (name sheet) sheetName) workbook.

(** ** Files

    A file holds the cells without references; [readFile] builds a fresh
    workbook, every object cell getting a reference not used before.  The
    heap is the next free reference. *)
Inductive fileCell : Type :=
| FPrim (p : primitive)
| FFormula (formula : string) (result : primitive)
| FObject.

Record FileSheet : Type := {
  fileName : string;
  fileRows : list (list fileCell)
}.

Definition File : Type := list FileSheet.

Definition loadCell (heap : nat) (c : fileCell) : value * nat :=
  match c with
  | FPrim p => (Prim p, heap)
  | FFormula f r => (Formula heap f r, S heap)
  | FObject => (Object heap, S heap)
  end.

Fixpoint loadRow (heap : nat) (row : list fileCell) : list value * nat :=
  match row with
  | [] => ([], heap)
  | c :: cs =>
      let (v, heap1) := loadCell heap c in
      let (vs, heap2) := loadRow heap1 cs in
      (v :: vs, heap2)
  end.

Fixpoint loadRows (heap : nat) (rs : list (list fileCell)) : list (list value) * nat :=
  match rs with
  | [] => ([], heap)
  | r :: rest =>
      let (row, heap1) := loadRow heap r in
      let (rows', heap2) := loadRows heap1 rest in
      (row :: rows', heap2)
  end.

(** [workbook.xlsx.readFile(path)] on a fresh workbook. *)
Fixpoint readFile (heap : nat) (file : File) : Workbook * nat :=
  match file with
  | [] => ([], heap)
  | fs :: rest =>
      let (rs, heap1) := loadRows heap (fileRows fs) in
      let (sheets, heap2) := readFile heap1 rest in
      ({| name := fileName fs; rows := rs |} :: sheets, heap2)
  end.

Definition storeCell (v : value) : fileCell :=
  match v with
  | Prim p => FPrim p
  | Formula _ f r => FFormula f r
  | Object _ => FObject
  end.

(** [workbook.xlsx.writeFile(path)]: the file written holds the cell values
    of the workbook. *)
Definition writeFile (workbook : Workbook) : File :=
  map (fun sheet => {| fileName := name sheet;
                       fileRows := map (map storeCell) (rows sheet) |}) workbook.

(** ** excel_advanced.js *)

Definition modulo26 (colNumber : nat) : nat := (colNumber - 1) mod 26.

Definition nextColNumber (colNumber : nat) : nat :=
  (colNumber - modulo26 colNumber) / 26.

Lemma nextColNumber_lt (colNumber : nat) :
  0 < colNumber -> nextColNumber colNumber < colNumber.
Proof.
  intros Hpos. unfold nextColNumber, modulo26.
  apply Nat.Div0.div_lt_upper_bound. lia.
Qed.

(** [String.fromCharCode(code) + letter] *)
Definition prependChar (code : nat) (letter : string) : string :=
  ofCodeUnits (fromCharCode code) ++ letter.

(** The [while (colNumber > 0)] loop of [getColumnLetter]; [modulo26] is the
    [modulo] of the body and [nextColNumber] the new [colNumber]. *)
Equations? getColumnLetter_loop (colNumber : nat) (letter : string) : string
  by wf colNumber lt :=
  getColumnLetter_loop 0 letter := letter;
  getColumnLetter_loop (S n) letter :=
    getColumnLetter_loop (nextColNumber (S n))
                         (prependChar (65 + modulo26 (S n)) letter).
Proof.
  apply nextColNumber_lt. lia.
Qed.

Definition getColumnLetter (colNumber : nat) : string :=
  getColumnLetter_loop colNumber EmptyString.

(** The options of the command line ([config.params]). *)
Record Params : Type := {
  sheet : option string;
  range : option string
}.

(** [s ? a : b] and [s || d] on an optional string: undefined and the empty
    string are falsy. *)
Definition truthyOption (s : option string) : option string :=
  match s with
  | Some t => if String.eqb t EmptyString then None else Some t
  | None => None
  end.

(** [params.sheet ? workbook.getWorksheet(params.sheet) : workbook.worksheets[0]];
    [None] stands for [undefined]. *)
Definition selectSheet (params : Params) (workbook : Workbook) : option Worksheet :=
  match truthyOption (sheet params) with
  | Some sheetName => getWorksheet workbook sheetName
  | None => hd_error workbook
  end.

(** *** analyzeData *)

Record ColStats : Type := {
  column : list nat;          (* code units of the column label *)
  header : value;
  count : nat;
  type : string;
  unique : nat;
  min : option number;
  max : option number;
  avg : option number;
  sum : option number
}.

(** [String.fromCharCode(64 + col)], the label of column [col]. *)
Definition colLetter (col : nat) : list nat := fromCharCode (64 + col).

(** [headers[col] || `Column ${col}`], where the header loop stored the
    values of the cells of row 1 that are not empty. *)
Definition headerOf (sheet : Worksheet) (col : nat) : value :=
  let h := getCell sheet 1 col in
  if truthy h then h else Prim (PStr ("Column " ++ natToString col)).

(** The values of the non-empty cells of a column, rows 2 to [rowCount]. *)
Definition columnData (sheet : Worksheet) (col : nat) : list value :=
  filter (fun v => negb (isNull v))
         (map (fun row => getCell sheet row col) (seq 2 (rowCount sheet - 1))).

(** [columnData.filter((v) => typeof v === 'number')] *)
Fixpoint numbersOf (data : list value) : list number :=
  match data with
  | [] => []
  | Prim (PNum x) :: rest => x :: numbersOf rest
  | _ :: rest => numbersOf rest
  end.

(** [numbers.reduce((a, b) => a + b, 0)] *)
Definition sumOf (numbers : list number) : number :=
  fold_left numAdd numbers (Finite 0).

(** The body of the column loop: the record pushed for column [col], if any. *)
Definition analyzeColumn (sheet : Worksheet) (col : nat) : option ColStats :=
  let data := columnData sheet col in
  match data with
  | [] => None
  | first :: _ =>
      let numbers := numbersOf data in
      let numeric :=
        String.eqb (typeof first) "number" && negb (List.length numbers =? 0) in
      let len := Finite (inject_Z (Z.of_nat (List.length numbers))) in
      Some {| column := colLetter col;
              header := headerOf sheet col;
              count := List.length data;
              type := typeof first;
              unique := setSize data;
              min := if numeric then Some (Math_min numbers) else None;
              max := if numeric then Some (Math_max numbers) else None;
              avg := if numeric then Some (numDiv (sumOf numbers) len) else None;
              sum := if numeric then Some (sumOf numbers) else None |}
  end.

Fixpoint catOptions {A : Type} (xs : list (option A)) : list A :=
  match xs with
  | [] => []
  | Some x :: rest => x :: catOptions rest
  | None :: rest => catOptions rest
  end.

(** [stats.columns] at the end of [analyzeData], the rows of the report;
    [None] when the sheet is undefined and reading it throws. *)
Definition analyzeData (params : Params) (input : File) : option (list ColStats) :=
  let (workbook, _) := readFile 0 input in
  match selectSheet params workbook with
  | None => None
  | Some sheet =>
      Some (catOptions (map (analyzeColumn sheet) (seq 1 (columnCount sheet))))
  end.

(** *** addAutofilter *)

(** The string assigned to [sheet.autoFilter]. *)
Definition autofilterRange (params : Params) (sheet : Worksheet) : string :=
  match truthyOption (range params) with
  | Some given => given
  | None => "A1:" ++ getColumnLetter (columnCount sheet) ++ natToString (rowCount sheet)
  end.

Definition addAutofilter (params : Params) (input : File) : option string :=
  let (workbook, _) := readFile 0 input in
  match selectSheet params workbook with
  | None => None
  | Some sheet => Some (autofilterRange params sheet)
  end.

(** *** compareFiles *)

Record CellDifference : Type := {
  cell : string;
  file1 : value;
  file2 : value
}.

Record SheetDiff : Type := {
  sheetName : string;
  rowCounts : nat * nat;
  columnCounts : nat * nat;
  cellDifferences : list CellDifference
}.

Record Differences : Type := {
  sheetCount : nat * nat;
  sheets : list SheetDiff
}.

(** The cells the loops visit, in order: rows 1 to [maxRow], and in each row
    columns 1 to the larger column count. *)
Definition maxRow (sheet1 sheet2 : Worksheet) : nat :=
  Nat.min 100 (Nat.max (rowCount sheet1) (rowCount sheet2)).

Definition comparedCells (sheet1 sheet2 : Worksheet) : list (nat * nat) :=
  flat_map (fun row =>
              map (fun col => (row, col))
                  (seq 1 (Nat.max (columnCount sheet1) (columnCount sheet2))))
           (seq 1 (maxRow sheet1 sheet2)).

(** The body of the inner loop at one cell. *)
Definition compareCell (sheet1 sheet2 : Worksheet) (rc : nat * nat)
  : list CellDifference :=
  let (row, col) := rc in
  let cell1 := getCell sheet1 row col in
  let cell2 := getCell sheet2 row col in
  if negb (strictEquals cell1 cell2)
  then [{| cell := getColumnLetter col ++ natToString row;
           file1 := cell1; file2 := cell2 |}]
  else [].

Definition compareSheets (sheet1 sheet2 : Worksheet) : SheetDiff :=
  {| sheetName := name sheet1;
     rowCounts := (rowCount sheet1, rowCount sheet2);
     columnCounts := (columnCount sheet1, columnCount sheet2);
     cellDifferences := flat_map (compareCell sheet1 sheet2)
                                 (comparedCells sheet1 sheet2) |}.

Definition compareWorkbooks (workbook1 workbook2 : Workbook) : Differences :=
  {| sheetCount := (List.length workbook1, List.length workbook2);
     sheets := catOptions
                 (map (fun sheet1 =>
                         match getWorksheet workbook2 (name sheet1) with
                         | Some sheet2 => Some (compareSheets sheet1 sheet2)
                         | None => None
                         end) workbook1) |}.

(** The report of [compareFiles]; [None] when [--file2] is missing and the
    function returns before reading anything. *)
Definition compareFiles (input : File) (file2 : option File) : option Differences :=
  match file2 with
  | None => None
  | Some second =>
      let (workbook1, heap) := readFile 0 input in
      let (workbook2, _) := readFile heap second in
      Some (compareWorkbooks workbook1 workbook2)
  end.

End Excel.

(* ===================================================================== *)
(** * csv_to_excel.js and excel_to_csv.js *)
(* ===================================================================== *)

Module Csv.
Import JS Excel.

(** [list[i] = x] on an array: positions up to [i] that do not exist yet are
    filled with [hole]. *)
Fixpoint setNth {A : Type} (hole : A) (i : nat) (x : A) (l : list A) : list A :=
  match i, l with
  | O, [] => [x]
  | O, _ :: rest => x :: rest
  | S i', [] => hole :: setNth hole i' x []
  | S i', y :: rest => y :: setNth hole i' x rest
  end.

(** [worksheet.getCell(row, col).value = v] *)
Definition setCell (sheet : Worksheet) (row col : nat) (v : value) : Worksheet :=
  let cells := nth (row - 1) (rows sheet) [] in
  {| name := name sheet;
     rows := setNth [] (row - 1) (setNth (Prim PNull) (col - 1) v cells) (rows sheet) |}.

(** [xs.forEach((x, index) => ...)] with the state [s] threaded through. *)
Fixpoint forEachIndexed {A St : Type} (body : A -> nat -> St -> St)
         (xs : list A) (index : nat) (s : St) : St :=
  match xs with
  | [] => s
  | x :: rest => forEachIndexed body rest (S index) (body x index s)
  end.

(** The lines of the file that are not blank, each split at the commas, each
    field trimmed. *)
Definition parseRows (csvContent : string) : list (list string) :=
  let lines := filter (fun line => negb (String.eqb (trim line) EmptyString))
                      (split newline csvContent) in
  map (fun line => map trim (split comma line)) lines.

(** The value stored for a field: a number when [Number(cell)] is not NaN
    and the field is not empty, the text otherwise. *)
Definition cellValue (cell : string) : value :=
  if negb (isNaN cell) && negb (String.eqb cell EmptyString)
  then Prim (PNum (parseFloat cell))
  else Prim (PStr cell).

(** The worksheet [Sheet1] after the two nested [forEach] loops.  The
    options change fonts, fills, widths and the filter, not cell values. *)
Definition fillWorksheet (parsed : list (list string)) : Worksheet :=
  forEachIndexed
    (fun row rowIndex sheet =>
       forEachIndexed
         (fun cell colIndex sheet' =>
            setCell sheet' (rowIndex + 1) (colIndex + 1) (cellValue cell))
         row 0 sheet)
    parsed 0 {| name := "Sheet1"; rows := [] |}.

(** The file [csvToExcel] writes for a CSV file with this content. *)
Definition csvToExcel (csvContent : string) : File :=
  writeFile [fillWorksheet (parseRows csvContent)].

(** The text of one cell: empty for a null cell; the result of a formula
    cell, or nothing when the result is falsy; otherwise [String(value)],
    quoted when it holds a comma, a quote or a newline. *)
Definition cellText (v : value) : string :=
  if isNull v then EmptyString
  else
    let text :=
      match v with
      | Prim p => primToString p
      | Formula _ _ result =>
          if truthyPrim result then primToString result else EmptyString
      | Object _ => "[object Object]"
      end in
    if includes comma text || includes dquote text || includes newline text
    then String dquote
                (replaceAll dquote (String dquote (String dquote EmptyString)) text
                 ++ String dquote EmptyString)
    else text.

(** [csvLines.join('\n')] for one sheet: the rows that have values, every
    cell of such a row. *)
Definition sheetToCsv (sheet : Worksheet) : string :=
  join (String newline EmptyString)
       (map (fun row => join (String comma EmptyString) (map cellText row))
            (filter hasValues (rows sheet))).

Record ExportOptions : Type := {
  allSheets : bool;
  exportSheet : option string      (* --sheet-name= *)
}.

Definition isAlphaNum (c : ascii) : bool :=
  let n := nat_of_ascii c in
  ((48 <=? n) && (n <=? 57)) || ((65 <=? n) && (n <=? 90)) || ((97 <=? n) && (n <=? 122)).

(** [sheet.name.replace(/[^a-zA-Z0-9]/g, '_') + '.csv'] *)
Fixpoint sanitize (s : string) : string :=
  match s with
  | EmptyString => EmptyString
  | String c rest => String (if isAlphaNum c then c else "_"%char) (sanitize rest)
  end.

Definition csvFilename (sheet : Worksheet) : string := sanitize (name sheet) ++ ".csv".

(** The files [excelToCSV] writes, name and content; [None] when it stops
    with an error (sheet not found, no sheet at all). *)
Definition excelToCSV (xlsx : File) (options : ExportOptions)
  : option (list (string * string)) :=
  let (workbook, _) := readFile 0 xlsx in
  let sheetsToExport :=
    if allSheets options then Some workbook
    else match truthyOption (exportSheet options) with
         | Some wanted =>
             match getWorksheet workbook wanted with
             | Some sheet => Some [sheet]
             | None => None
             end
         | None =>
             match workbook with
             | first :: _ => Some [first]
             | [] => None
             end
         end in
  match sheetsToExport with
  | Some sheets' =>
      Some (map (fun sheet => (csvFilename sheet, sheetToCsv sheet)) sheets')
  | None => None
  end.

Definition defaultExport : ExportOptions :=
  {| allSheets := false; exportSheet := None |}.

End Csv.

(* ===================================================================== *)
(** * monitor_dashboard.js *)
(* ===================================================================== *)

Module Monitor.
Import JS.

(** ** Values written to the report

    [JTime t] is the text [new Date(t).toISOString()] of the instant [t], in
    milliseconds; a field that holds [JUndefined] is a field set to
    [undefined]. *)
#[local] Unset Elimination Schemes.
Inductive json : Type :=
| JUndefined
| JNull
| JNum (n : nat)
| JStr (s : string)
| JTime (t : Z)
| JArr (items : list json)
| JObj (fields : list (string * json)).
#[local] Set Elimination Schemes.

(** [obj[key]] on the fields of an object. *)
Fixpoint field (key : string) (fields : list (string * json)) : option json :=
  match fields with
  | [] => None
  | (k, v) :: rest => if String.eqb k key then Some v else field key rest
  end.

Definition fieldOf (key : string) (entry : json) : option json :=
  match entry with
  | JObj fields => field key fields
  | _ => None
  end.

(** ** Awaited calls

    A call to the browser returns or throws an [Error] with a message. *)
Inductive outcome (A : Type) : Type :=
| Returns (a : A)
| Throws (message : string).
Arguments Returns {A} a.
Arguments Throws {A} message.

(** What an element handle answers. *)
Record Element : Type := {
  textContent : outcome (option string);
  getAttribute : string -> outcome (option string);
  countRows : outcome nat;                     (* $$eval('tr', rows => rows.length) *)
  cellTexts : outcome (list (list string));    (* evaluate(table => ...) *)
  boundingBox : outcome (option (Q * Q))       (* width and height, or null *)
}.

(** What the page answers during one check. *)
Record Page : Type := {
  goto : outcome unit;
  settle : outcome unit;                       (* waitForTimeout(3000) *)
  query : string -> outcome (list Element);    (* page.$$(selector) *)
  title : outcome string;
  url : string;
  pause : outcome unit                         (* waitForTimeout(interval * 1000) *)
}.

(** The world of one run: launching the browser, the page at each check
    (numbered from 0), the successive readings of the clock, and writing
    the output file. *)
Record World : Type := {
  launch : outcome unit;
  page : nat -> Page;
  clock : nat -> Z;
  save : outcome unit
}.

Record Config : Type := {
  interval : nat;
  checkCount : nat
}.

(** ** Code that may throw, over a mutable state *)
Section Effects.
Context {St : Type}.

Definition M (A : Type) : Type := St -> outcome A * St.

Definition ret {A : Type} (a : A) : M A := fun s => (Returns a, s).

Definition bind {A B : Type} (m : M A) (k : A -> M B) : M B :=
  fun s => match m s with
           | (Returns a, s') => k a s'
           | (Throws e, s') => (Throws e, s')
           end.

(** [await call] *)
Definition await {A : Type} (call : outcome A) : M A := fun s => (call, s).

Definition modify (f : St -> St) : M unit := fun s => (Returns tt, f s).

(** [try { body } catch (error) { handler(error.message) }]: the handler
    runs in the state the body left. *)
Definition tryCatch {A : Type} (body : M A) (handler : string -> M A) : M A :=
  fun s => match body s with
           | (Throws e, s') => handler e s'
           | done => done
           end.

Definition when (b : bool) (m : M unit) : M unit := if b then m else ret tt.

Fixpoint forEach {A : Type} (xs : list A) (body : A -> M unit) : M unit :=
  match xs with
  | [] => ret tt
  | x :: rest => bind (body x) (fun _ => forEach rest body)
  end.

(** [for (let i = 0; i < xs.length; i++) body(i, xs[i])] *)
Definition forIndexed {A : Type} (xs : list A) (body : nat -> A -> M unit) : M unit :=
  forEach (combine (seq 0 (List.length xs)) xs) (fun ix => body (fst ix) (snd ix)).
End Effects.

Notation "x <- m ;; k" := (bind m (fun x => k))
  (at level 61, m at next level, right associativity).
Notation "m ;;; k" := (bind m (fun _ => k))
  (at level 61, right associativity).

(** ** detectAnomalies *)

Definition quoted (s : string) : string := String dquote (s ++ String dquote EmptyString).

Definition errorSelectors : list string :=
  [".error-message"; ".data-error"; "[data-error]"; ".alert-danger"; ".warning"].

Definition loadingSelectors : list string :=
  [".loading"; ".spinner"; "[data-loading=" ++ quoted "true" ++ "]"].

Definition chartSelectors : list string :=
  ["svg[class*=" ++ quoted "chart" ++ "]";
   "canvas[class*=" ++ quoted "chart" ++ "]";
   ".chart-container"].

(** [text?.trim()] *)
Definition trimmed (text : option string) : json :=
  match text with
  | Some t => JStr (trim t)
  | None => JUndefined
  end.

(** [anomalies.push(a)] *)
Definition push (a : json) : M (St := list json) unit := modify (fun l => (l ++ [a])%list).

Definition tooSmall (box : option (Q * Q)) : bool :=
  match box with
  | Some (width, height) =>
      negb (Qle_bool 10 width) || negb (Qle_bool 10 height)
  | None => false
  end.

(** The body of the [try] block. *)
Definition detectSteps (p : Page) : M (St := list json) unit :=
  forEach errorSelectors (fun selector =>
    errors <- await (query p selector) ;;
    when (0 <? List.length errors)
      (forEach errors (fun error =>
         text <- await (textContent error) ;;
         push (JObj [("type", JStr "error"); ("selector", JStr selector);
                     ("message", trimmed text)])))) ;;;
  forEach loadingSelectors (fun selector =>
    loading <- await (query p selector) ;;
    when (0 <? List.length loading)
      (push (JObj [("type", JStr "loading_stuck"); ("selector", JStr selector);
                   ("count", JNum (List.length loading));
                   ("message", JStr "Elements still in loading state")]))) ;;;
  tables <- await (query p "table") ;;
  forIndexed tables (fun i table =>
    rowCount <- await (countRows table) ;;
    when (rowCount <=? 1)
      (push (JObj [("type", JStr "empty_table"); ("index", JNum i);
                   ("message", JStr "Table appears to be empty")]))) ;;;
  forEach chartSelectors (fun selector =>
    charts <- await (query p selector) ;;
    forIndexed charts (fun i chart =>
      box <- await (boundingBox chart) ;;
      when (tooSmall box)
        (push (JObj [("type", JStr "chart_too_small"); ("selector", JStr selector);
                     ("index", JNum i);
                     ("message", JStr "Chart appears too small or hidden")])))).

(** [detectAnomalies(page)]: it never throws; an error of the page becomes
    one more anomaly. *)
Definition detectAnomalies (p : Page) : list json :=
  snd (tryCatch (detectSteps p)
                (fun message =>
                   push (JObj [("type", JStr "detection_error");
                               ("message", JStr message)]))
                []).

(** ** extractDashboardData *)

Record Data : Type := {
  metrics : list json;
  tables : list json;
  charts : list json;
  error : option string
}.

Definition metricSelectors : list string :=
  [".metric-value"; ".kpi-value"; "[data-metric]"; ".scorecard-value"].

(** [a || b] on attribute values: [null] and the empty string are falsy. *)
Definition orElse (a : option string) (b : option string) : option string :=
  match a with
  | Some t => if String.eqb t EmptyString then b else a
  | None => b
  end.

Definition rowsToJson (cells : list (list string)) : json :=
  JArr (map (fun row => JArr (map JStr row)) cells).

(** The body of the [try] block. *)
Definition extractSteps (p : Page) : M (St := Data) unit :=
  forEach metricSelectors (fun selector =>
    found <- await (query p selector) ;;
    forEach found (fun metric =>
      text <- await (textContent metric) ;;
      aria <- await (getAttribute metric "aria-label") ;;
      label <- match orElse aria None with
               | Some l => ret (Some l)
               | None => await (getAttribute metric "title")
               end ;;
      modify (fun d =>
        {| metrics := (metrics d ++
                       [JObj [("value", trimmed text);
                              ("label", JStr match orElse label None with
                                             | Some l => l
                                             | None => "Unlabeled"
                                             end)]])%list;
           tables := tables d; charts := charts d; error := error d |}))) ;;;
  found <- await (query p "table") ;;
  forIndexed found (fun i table =>
    tableData <- await (cellTexts table) ;;
    modify (fun d =>
      {| metrics := metrics d;
         tables := (tables d ++
                    [JObj [("index", JNum i); ("rows", JNum (List.length tableData));
                           ("data", rowsToJson tableData)]])%list;
         charts := charts d; error := error d |})) ;;;
  found <- await (query p "svg, canvas") ;;
  modify (fun d =>
    {| metrics := metrics d; tables := tables d;
       charts := (charts d ++
                  [JObj [("count", JNum (List.length found));
                         ("message", JStr ("Found " ++ natToString (List.length found)
                                           ++ " chart elements"))]])%list;
       error := error d |}).

Definition dataToJson (timestamp : Z) (pageTitle pageUrl : string) (d : Data) : json :=
  JObj ([("timestamp", JTime timestamp); ("title", JStr pageTitle); ("url", JStr pageUrl);
         ("metrics", JArr (metrics d)); ("tables", JArr (tables d));
         ("charts", JArr (charts d))]
        ++ match error d with
           | Some message => [("error", JStr message)]
           | None => []
           end)%list.

(** ** monitorDashboard

    The state of the run: the [results] array and the number of clock
    readings made so far. *)
Record Run : Type := {
  results : list json;
  ticks : nat
}.

(** [new Date()] *)
Definition now (w : World) : M (St := Run) Z :=
  fun s => (Returns (clock w (ticks s)),
            {| results := results s; ticks := S (ticks s) |}).

(** [results.push(entry)] *)
Definition record (entry : json) : M (St := Run) unit :=
  modify (fun s => {| results := (results s ++ [entry])%list; ticks := ticks s |}).

(** [extractDashboardData(page)]: the clock and the title are read before
    the [try] block, so an error of [page.title()] is thrown to the caller;
    an error inside the block is kept in [data.error]. *)
Definition extractDashboardData (w : World) (p : Page) : M (St := Run) json :=
  timestamp <- now w ;;
  pageTitle <- await (title p) ;;
  let d := snd (tryCatch (extractSteps p)
                         (fun message =>
                            modify (fun d =>
                              {| metrics := metrics d; tables := tables d;
                                 charts := charts d; error := Some message |}))
                         {| metrics := []; tables := []; charts := []; error := None |}) in
  ret (dataToJson timestamp pageTitle (url p) d).

(** The body of the [try] block of check [i] (counted from 0). *)
Definition checkSteps (w : World) (config : Config) (i : nat) : M (St := Run) unit :=
  let p := page w i in
  await (goto p) ;;;
  await (settle p) ;;;
  let anomalies := detectAnomalies p in
  dashboardData <- extractDashboardData w p ;;
  timestamp <- now w ;;
  record (JObj [("check", JNum (i + 1));
                ("timestamp", JTime timestamp);
                ("status", JStr (if List.length anomalies =? 0
                                 then "healthy" else "issues_detected"));
                ("anomalyCount", JNum (List.length anomalies));
                ("anomalies", JArr anomalies);
                ("data", dashboardData)]) ;;;
  when (i <? checkCount config - 1) (await (pause p)).

(** The [catch] block of check [i]. *)
Definition checkFailed (w : World) (i : nat) (message : string) : M (St := Run) unit :=
  timestamp <- now w ;;
  record (JObj [("check", JNum (i + 1));
                ("timestamp", JTime timestamp);
                ("status", JStr "error");
                ("error", JStr message)]).

(** One turn of the [for] loop. *)
Definition check (w : World) (config : Config) (i : nat) (s : Run) : Run :=
  snd (tryCatch (checkSteps w config i) (checkFailed w i) s).

(** Checks [i], [i + 1], ... while [i < checkCount]; [remaining] is
    [checkCount - i]. *)
Fixpoint checksFrom (w : World) (config : Config) (i remaining : nat) (s : Run) : Run :=
  match remaining with
  | O => s
  | S remaining' => checksFrom w config (S i) remaining' (check w config i s)
  end.

(** The [results] array when the loop ends. *)
Definition monitorLoop (w : World) (config : Config) : list json :=
  results (checksFrom w config 0 (checkCount config) {| results := []; ticks := 0 |}).

(** The array written to the output file; [None] when the browser does not
    start or the file cannot be written, and the process exits with 1. *)
Definition monitorDashboard (w : World) (config : Config) : option (list json) :=
  match launch w with
  | Throws _ => None
  | Returns _ =>
      match save w with
      | Throws _ => None
      | Returns _ => Some (monitorLoop w config)
      end
  end.

End Monitor.

(* ===================================================================== *)
(** * Column letters *)
(* ===================================================================== *)

Module ColumnLetters.
Import JS Excel.

(** Upper-case Latin letters, by code unit. *)
Definition isUpperCode (u : nat) : bool := (65 <=? u) && (u <=? 90).

Fixpoint allUpper (s : string) : bool :=
  match s with
  | EmptyString => true
  | String c rest => isUpperCode (nat_of_ascii c) && allUpper rest
  end.

(** The number a column name stands for in bijective base 26: A is 1, Z is
    26, and a letter to the left weighs 26 times more. *)
Fixpoint columnNumberFrom (acc : nat) (s : string) : nat :=
  match s with
  | EmptyString => acc
  | String c rest => columnNumberFrom (26 * acc + (nat_of_ascii c - 64)) rest
  end.

Definition columnNumber (s : string) : nat := columnNumberFrom 0 s.


Lemma modulo26_lt (n : nat) : modulo26 n < 26.
Proof. unfold modulo26. apply Nat.mod_upper_bound. discriminate. Qed.

Lemma column_step (n : nat) :
  0 < n -> n = 26 * nextColNumber n + modulo26 n + 1.
Proof.
  intros Hn. unfold nextColNumber, modulo26.
  pose proof (Nat.div_mod_eq (n - 1) 26) as Hdm.
  pose proof (Nat.mod_upper_bound (n - 1) 26 ltac:(discriminate)) as Hlt.
  replace (n - (n - 1) mod 26) with (1 + (n - 1) / 26 * 26) by lia.
  rewrite Nat.div_add by discriminate.
  rewrite (Nat.div_small 1 26) by lia. lia.
Qed.

Lemma fromCharCode_small (code : nat) :
  (N.of_nat code < 65536)%N -> fromCharCode code = [code].
Proof.
  intros Hc. unfold fromCharCode.
  rewrite N.mod_small by exact Hc.
  now rewrite Nat2N.id.
Qed.

Lemma prependChar_letter (m : nat) (letter : string) :
  m < 26 -> prependChar (65 + m) letter = String (ascii_of_nat (65 + m)) letter.
Proof.
  intros Hm. unfold prependChar.
  rewrite fromCharCode_small by lia. reflexivity.
Qed.

Lemma letter_code (m : nat) : m < 26 -> nat_of_ascii (ascii_of_nat (65 + m)) = 65 + m.
Proof. intros Hm. apply nat_ascii_embedding. lia. Qed.

Lemma loop_unfold (n : nat) (letter : string) :
  0 < n ->
  getColumnLetter_loop n letter =
  getColumnLetter_loop (nextColNumber n)
                       (String (ascii_of_nat (65 + modulo26 n)) letter).
Proof.
  intros Hn. destruct n as [|k]; [lia|].
  simp getColumnLetter_loop.
  now rewrite prependChar_letter by apply modulo26_lt.
Qed.

(** The loop writes the digits of [n] in front of [letter]. *)
Lemma loop_columnNumber (n : nat) :
  forall letter, columnNumber (getColumnLetter_loop n letter) = columnNumberFrom n letter.
Proof.
  induction n as [n IH] using lt_wf_ind. intros letter.
  destruct (Nat.eq_dec n 0) as [-> | Hn].
  - now simp getColumnLetter_loop.
  - rewrite loop_unfold by lia.
    rewrite IH by (apply nextColNumber_lt; lia).
    cbn [columnNumberFrom].
    rewrite letter_code by apply modulo26_lt.
    f_equal. pose proof (column_step n ltac:(lia)). lia.
Qed.

Lemma loop_allUpper (n : nat) :
  forall letter, allUpper letter = true -> allUpper (getColumnLetter_loop n letter) = true.
Proof.
  induction n as [n IH] using lt_wf_ind. intros letter Hl.
  destruct (Nat.eq_dec n 0) as [-> | Hn].
  - now simp getColumnLetter_loop.
  - rewrite loop_unfold by lia.
    apply IH; [apply nextColNumber_lt; lia|].
    cbn [allUpper]. rewrite letter_code by apply modulo26_lt.
    rewrite Hl. pose proof (modulo26_lt n).
    unfold isUpperCode.
    apply andb_true_iff; split; [|reflexivity].
    apply andb_true_iff; split; apply Nat.leb_le; lia.
Qed.




Lemma getColumnLetter_upper (n : nat) : allUpper (getColumnLetter n) = true.
Proof. apply loop_allUpper. reflexivity. Qed.

Lemma getColumnLetter_number (n : nat) : columnNumber (getColumnLetter n) = n.
Proof. unfold getColumnLetter. now rewrite loop_columnNumber. Qed.



End ColumnLetters.

(* ===================================================================== *)
(** * Column statistics of the analyze action *)
(* ===================================================================== *)

Module Analyze.
Import JS Excel.

Open Scope Q_scope.

(** A cell that holds the rational [q]. *)
Definition numericCell (q : Q) : value := Prim (PNum (Finite q)).

Lemma numbersOf_numeric (qs : list Q) :
  numbersOf (map numericCell qs) = map Finite qs.
Proof. induction qs as [|q qs IH]; cbn; [reflexivity | now rewrite IH]. Qed.

Lemma numLt_finite (a b : Q) : numLt (Finite a) (Finite b) = true <-> a < b.
Proof.
  cbn. rewrite negb_true_iff. split.
  - intros H. apply Qnot_le_lt. intros Hle.
    apply Qle_bool_iff in Hle. congruence.
  - intros H. destruct (Qle_bool b a) eqn:E; [|reflexivity].
    apply Qle_bool_iff in E. exfalso. exact (Qlt_not_le _ _ H E).
Qed.

Lemma numLt_finite_false (a b : Q) : numLt (Finite a) (Finite b) = false <-> b <= a.
Proof.
  cbn. rewrite negb_false_iff. apply Qle_bool_iff.
Qed.

(** Folding [Math.min] over finite numbers keeps a finite lower bound. *)
Lemma fold_min_finite (qs : list Q) :
  forall a, exists m,
    fold_left numMin2 (map Finite qs) (Finite a) = Finite m
    /\ m <= a /\ Forall (fun q => m <= q) qs.
Proof.
  induction qs as [|q qs IH]; intros a; cbn [map fold_left].
  - exists a. repeat split; [apply Qle_refl | constructor].
  - unfold numMin2 at 2.
    destruct (numLt (Finite q) (Finite a)) eqn:E.
    + apply numLt_finite in E.
      destruct (IH q) as (m & Hm & Hle & Hall).
      exists m. repeat split; [exact Hm | | constructor; assumption].
      apply Qle_trans with q; [assumption | now apply Qlt_le_weak].
    + apply numLt_finite_false in E.
      destruct (IH a) as (m & Hm & Hle & Hall).
      exists m. repeat split; [exact Hm | exact Hle | constructor; [|assumption]].
      now apply Qle_trans with a.
Qed.

Lemma fold_max_finite (qs : list Q) :
  forall a, exists m,
    fold_left numMax2 (map Finite qs) (Finite a) = Finite m
    /\ a <= m /\ Forall (fun q => q <= m) qs.
Proof.
  induction qs as [|q qs IH]; intros a; cbn [map fold_left].
  - exists a. repeat split; [apply Qle_refl | constructor].
  - unfold numMax2 at 2.
    destruct (numLt (Finite a) (Finite q)) eqn:E.
    + apply numLt_finite in E.
      destruct (IH q) as (m & Hm & Hle & Hall).
      exists m. repeat split; [exact Hm | | constructor; assumption].
      apply Qle_trans with q; [now apply Qlt_le_weak | assumption].
    + apply numLt_finite_false in E.
      destruct (IH a) as (m & Hm & Hle & Hall).
      exists m. repeat split; [exact Hm | exact Hle | constructor; [|assumption]].
      now apply Qle_trans with a.
Qed.

Lemma fold_add_finite (qs : list Q) :
  forall a, fold_left numAdd (map Finite qs) (Finite a) = Finite (fold_left Qplus qs a).
Proof.
  induction qs as [|q qs IH]; intros a; cbn [map fold_left]; [reflexivity|].
  cbn [numAdd]. apply IH.
Qed.

(** A set is no larger than the array it is built from. *)
Lemma setOf_length (xs : list value) :
  forall seen, (List.length (setOf xs seen) <= List.length seen + List.length xs)%nat.
Proof.
  induction xs as [|x xs IH]; intros seen; cbn [setOf List.length]; [lia|].
  destruct (existsb (sameValueZero x) seen).
  - specialize (IH seen). lia.
  - specialize (IH (seen ++ [x])%list). rewrite length_app in IH. cbn in IH. lia.
Qed.

Lemma setSize_le (xs : list value) : (setSize xs <= List.length xs)%nat.
Proof. unfold setSize. pose proof (setOf_length xs []). cbn in H. exact H. Qed.

(** C6. For a column whose non-empty cells (at least one) all hold rational
    numbers, the record of the analyze action has [max - min >= 0],
    [sum = avg * count] and [unique <= count]; [min] and [max] bound every
    value of the column. *)
Theorem analyze_numeric_column (sheet : Worksheet) (col : nat) (qs : list Q) :
  columnData sheet col = map numericCell qs ->
  qs <> [] ->
  exists stats lo hi mean total,
    analyzeColumn sheet col = Some stats
    /\ count stats = List.length qs
    /\ min stats = Some (Finite lo)
    /\ max stats = Some (Finite hi)
    /\ avg stats = Some (Finite mean)
    /\ sum stats = Some (Finite total)
    /\ Forall (fun q => lo <= q <= hi) qs
    /\ 0 <= hi - lo
    /\ total == mean * inject_Z (Z.of_nat (count stats))
    /\ (unique stats <= count stats)%nat.
Proof.
  intros Hdata Hne.
  destruct qs as [|q qs]; [congruence|].
  destruct (fold_min_finite qs q) as (lo & Hlo & Hloq & Hloall).
  destruct (fold_max_finite qs q) as (hi & Hhi & Hhiq & Hhiall).
  set (total := fold_left Qplus (q :: qs) 0).
  set (n := inject_Z (Z.of_nat (List.length (q :: qs)))).
  assert (Hn : ~ n == 0).
  { unfold n. cbn [List.length]. rewrite Nat2Z.inj_succ.
    intros H. unfold Qeq in H. cbn in H. lia. }
  unfold analyzeColumn. rewrite Hdata. cbn [map].
  change (numericCell q :: map numericCell qs) with (map numericCell (q :: qs)).
  rewrite numbersOf_numeric, !length_map.
  change (typeof (numericCell q)) with "number".
  rewrite String.eqb_refl. cbn [List.length Nat.eqb negb andb].
  eexists. exists lo, hi, (total / n), total.
  split; [reflexivity|].
  cbn [count min max avg sum unique].
  split; [reflexivity|].
  split.
  { f_equal. unfold Math_min. cbn [map fold_left]. exact Hlo. }
  split.
  { f_equal. unfold Math_max. cbn [map fold_left]. exact Hhi. }
  split.
  { f_equal. unfold sumOf. rewrite fold_add_finite. fold total.
    change (inject_Z (Z.of_nat (S (List.length qs)))) with n.
    cbn [numDiv].
    destruct (Qeq_bool n 0) eqn:E; [apply Qeq_bool_iff in E; contradiction|].
    reflexivity. }
  split.
  { f_equal. unfold sumOf. now rewrite fold_add_finite. }
  split.
  { constructor.
    - split; assumption.
    - rewrite Forall_forall in *. intros x Hx. split; auto. }
  split.
  { apply (Qplus_le_l _ _ lo). ring_simplify.
    now apply Qle_trans with q. }
  split.
  { change (inject_Z (Z.of_nat (S (List.length qs)))) with n. now field. }
  pose proof (setSize_le (map numericCell (q :: qs))) as Hset.
  rewrite length_map in Hset. exact Hset.
Qed.

(** A sheet with the header [n] and the values 3, 1, 3 below it. *)
Definition sampleColumn : Worksheet :=
  {| name := "Sheet1";
     rows := [[Prim (PStr "n")]; [numericCell 3]; [numericCell 1]; [numericCell 3]] |}.

Lemma analyze_numeric_column_witness :
  exists stats lo hi mean total,
    analyzeColumn sampleColumn 1 = Some stats
    /\ count stats = 3%nat
    /\ min stats = Some (Finite lo)
    /\ max stats = Some (Finite hi)
    /\ avg stats = Some (Finite mean)
    /\ sum stats = Some (Finite total)
    /\ Forall (fun q => lo <= q <= hi) [3; 1; 3]
    /\ 0 <= hi - lo
    /\ total == mean * inject_Z (Z.of_nat (count stats))
    /\ (unique stats <= count stats)%nat.
Proof.
  apply (analyze_numeric_column sampleColumn 1 [3; 1; 3]).
  - reflexivity.
  - discriminate.
Defined.

End Analyze.

(* ===================================================================== *)
(** * Cell addresses and the extent of a sheet *)
(* ===================================================================== *)

Module Addresses.
Import JS Excel ColumnLetters.

(** The row of an A1-style address: the number after the column letters. *)
Fixpoint dropLetters (s : string) : string :=
  match s with
  | EmptyString => EmptyString
  | String c rest => if isUpperCode (nat_of_ascii c) then dropLetters rest else s
  end.

Definition addressRow (address : string) : option nat :=
  option_map Nat.of_uint (NilZero.uint_of_string (dropLetters address)).

(** The column of an A1-style address: the number its letters stand for. *)
Fixpoint takeLetters (s : string) : string :=
  match s with
  | EmptyString => EmptyString
  | String c rest =>
      if isUpperCode (nat_of_ascii c) then String c (takeLetters rest) else EmptyString
  end.

Definition addressColumn (address : string) : nat := columnNumber (takeLetters address).

Lemma natToString_digit (n : nat) :
  exists c rest, natToString n = String c rest /\ isUpperCode (nat_of_ascii c) = false.
Proof.
  unfold natToString.
  destruct (Nat.to_uint n); cbn; eexists; eexists; split; reflexivity.
Qed.

Lemma natToString_parse (n : nat) :
  option_map Nat.of_uint (NilZero.uint_of_string (natToString n)) = Some n.
Proof.
  unfold natToString.
  pose proof (DecimalNat.Unsigned.of_to n) as Hn.
  destruct (Nat.to_uint n) as [|d|d|d|d|d|d|d|d|d|d] eqn:E.
  1: { rewrite NilZero.usu_nil. cbn [option_map]. now rewrite <- Hn. }
  all: rewrite NilZero.usu by discriminate; cbn [option_map]; now rewrite Hn.
Qed.

Lemma dropLetters_app (letters tail : string) :
  allUpper letters = true ->
  (exists c rest, tail = String c rest /\ isUpperCode (nat_of_ascii c) = false) ->
  dropLetters (letters ++ tail) = tail /\ takeLetters (letters ++ tail) = letters.
Proof.
  intros Hup (c & rest & -> & Hc).
  induction letters as [|a letters IH]; cbn.
  - now rewrite Hc.
  - cbn in Hup. apply andb_true_iff in Hup as [Ha Hl].
    rewrite Ha. destruct (IH Hl) as [IH1 IH2]. now rewrite IH1, IH2.
Qed.

(** The address the compare action writes names the row and the column. *)
Lemma address_decodes (col row : nat) :
  addressRow (getColumnLetter col ++ natToString row) = Some row
  /\ addressColumn (getColumnLetter col ++ natToString row) = col.
Proof.
  destruct (dropLetters_app (getColumnLetter col) (natToString row)
              (getColumnLetter_upper col) (natToString_digit row)) as [Hd Ht].
  unfold addressRow, addressColumn. rewrite Hd, Ht. split.
  - apply natToString_parse.
  - apply getColumnLetter_number.
Qed.

(** A cell that is not empty lies within [rowCount] and [columnCount]. *)
Lemma columnCount_ge (sheet : Worksheet) (row : list value) :
  In row (rows sheet) -> hasValues row = true -> List.length row <= columnCount sheet.
Proof.
  unfold columnCount. induction (rows sheet) as [|r rs IH]; intros Hin Hv; [contradiction|].
  cbn [fold_right]. destruct Hin as [-> | Hin].
  - rewrite Hv. apply Nat.le_max_l.
  - specialize (IH Hin Hv). destruct (hasValues r); lia.
Qed.

Lemma nonempty_cell_in_extent (sheet : Worksheet) (row col : nat) :
  1 <= row -> 1 <= col ->
  isNull (getCell sheet row col) = false ->
  row <= rowCount sheet /\ col <= columnCount sheet.
Proof.
  intros Hr Hc Hv. unfold getCell in Hv.
  destruct (Nat.lt_ge_cases (row - 1) (List.length (rows sheet))) as [Hlt | Hge].
  2:{ rewrite (nth_overflow (rows sheet)) in Hv by exact Hge.
      destruct (col - 1); discriminate Hv. }
  set (cells := nth (row - 1) (rows sheet) []) in *.
  destruct (Nat.lt_ge_cases (col - 1) (List.length cells)) as [Hclt | Hcge].
  2:{ rewrite nth_overflow in Hv by exact Hcge. discriminate Hv. }
  split; [unfold rowCount; lia|].
  assert (Hin : In cells (rows sheet)) by (apply nth_In; exact Hlt).
  assert (Hhas : hasValues cells = true).
  { unfold hasValues. apply existsb_exists.
    exists (nth (col - 1) cells (Prim PNull)). split.
    - apply nth_In. exact Hclt.
    - now rewrite Hv. }
  pose proof (columnCount_ge sheet cells Hin Hhas). lia.
Qed.

End Addresses.

(* ===================================================================== *)
(** * The autofilter action *)
(* ===================================================================== *)

Module Autofilter.
Import JS Excel Addresses.

(** The range from A1 to the last column and the last row of the sheet. *)
Definition wholeSheet (sheet : Worksheet) : string :=
  "A1:" ++ getColumnLetter (columnCount sheet) ++ natToString (rowCount sheet).

(** The property as the specification words it: whatever the options, the
    range assigned is the whole sheet. *)
Definition alwaysWholeSheet : Prop :=
  forall (params : Params) (input : File) (sheet : Worksheet),
    selectSheet params (fst (readFile 0 input)) = Some sheet ->
    addAutofilter params input = Some (wholeSheet sheet).

Definition text (s : string) : fileCell := FPrim (PStr s).

Definition threeByThree : File :=
  [{| fileName := "Data";
      fileRows := [[text "id"; text "name"; text "city"];
                   [text "1"; text "Ann"; text "Oslo"];
                   [text "2"; text "Bob"; text "Rome"]] |}].

Definition givenRange : Params := {| sheet := None; range := Some "B2:C3" |}.
Definition noRange : Params := {| sheet := None; range := None |}.

Lemma addAutofilter_unfold (params : Params) (input : File) (sheet : Worksheet) :
  selectSheet params (fst (readFile 0 input)) = Some sheet ->
  addAutofilter params input = Some (autofilterRange params sheet).
Proof.
  unfold addAutofilter. destruct (readFile 0 input) as [workbook heap]. cbn [fst].
  now intros ->.
Qed.

(** With [--range B2:C3] on a sheet of three rows and three columns the
    filter is set to B2:C3, not to A1:C3. *)
Lemma autofilter_given_range_counterexample : ~ alwaysWholeSheet.
Proof.
  intros Hall.
  specialize (Hall givenRange threeByThree
                   {| name := "Data";
                      rows := [[Prim (PStr "id"); Prim (PStr "name"); Prim (PStr "city")];
                               [Prim (PStr "1"); Prim (PStr "Ann"); Prim (PStr "Oslo")];
                               [Prim (PStr "2"); Prim (PStr "Bob"); Prim (PStr "Rome")]] |}
                   eq_refl).
  vm_compute in Hall. discriminate Hall.
Qed.

(** C7, amended. Without [--range] (or with an empty one) the range assigned
    to [sheet.autoFilter] goes from A1 to the column [columnCount] and the
    row [rowCount] of the sheet, and every cell that is not empty lies in
    it; with [--range] the range assigned is the one given. *)
Theorem autofilter_range (params : Params) (input : File) (sheet : Worksheet) :
  selectSheet params (fst (readFile 0 input)) = Some sheet ->
  (truthyOption (range params) = None ->
   addAutofilter params input = Some (wholeSheet sheet)
   /\ addressRow (getColumnLetter (columnCount sheet) ++ natToString (rowCount sheet))
      = Some (rowCount sheet)
   /\ addressColumn (getColumnLetter (columnCount sheet) ++ natToString (rowCount sheet))
      = columnCount sheet
   /\ forall row col, 1 <= row -> 1 <= col ->
        isNull (getCell sheet row col) = false ->
        row <= rowCount sheet /\ col <= columnCount sheet)
  /\ (forall given, range params = Some given -> given <> EmptyString ->
      addAutofilter params input = Some given).
Proof.
  intros Hsel. rewrite (addAutofilter_unfold _ _ _ Hsel). unfold autofilterRange. split.
  - intros ->. split; [reflexivity|].
    destruct (address_decodes (columnCount sheet) (rowCount sheet)) as [Hr Hc].
    split; [exact Hr|]. split; [exact Hc|].
    intros row col. apply nonempty_cell_in_extent.
  - intros given Hgiven Hne. rewrite Hgiven. cbn [truthyOption].
    destruct (String.eqb given EmptyString) eqn:E; [|reflexivity].
    apply String.eqb_eq in E. contradiction.
Qed.

Lemma autofilter_range_witness :
  addAutofilter noRange threeByThree = Some "A1:C3"
  /\ addAutofilter givenRange threeByThree = Some "B2:C3".
Proof.
  set (data := {| name := "Data";
                  rows := [[Prim (PStr "id"); Prim (PStr "name"); Prim (PStr "city")];
                           [Prim (PStr "1"); Prim (PStr "Ann"); Prim (PStr "Oslo")];
                           [Prim (PStr "2"); Prim (PStr "Bob"); Prim (PStr "Rome")]] |}).
  split.
  - exact (proj1 (proj1 (autofilter_range noRange threeByThree data eq_refl) eq_refl)).
  - apply (proj2 (autofilter_range givenRange threeByThree data eq_refl) "B2:C3").
    + reflexivity.
    + discriminate.
Defined.

End Autofilter.

(* ===================================================================== *)
(** * The compare action *)
(* ===================================================================== *)

Module Compare.
Import JS Excel Addresses.

Lemma catOptions_In {A B : Type} (f : A -> option B) (xs : list A) (y : B) :
  In y (catOptions (map f xs)) <-> exists x, In x xs /\ f x = Some y.
Proof.
  induction xs as [|x xs IH]; cbn [map catOptions].
  - split; [contradiction | intros (x & [] & _)].
  - destruct (f x) as [b|] eqn:E.
    + cbn [In]. rewrite IH. split.
      * intros [Hb | (x' & Hin & Hf)].
        -- exists x. split; [now left | congruence].
        -- exists x'. split; [now right | assumption].
      * intros (x' & [Hx | Hin] & Hf).
        -- left. subst x'. congruence.
        -- right. exists x'. auto.
    + rewrite IH. split.
      * intros (x' & Hin & Hf). exists x'. split; [now right | assumption].
      * intros (x' & [Hx | Hin] & Hf).
        -- subst x'. congruence.
        -- exists x'. auto.
Qed.

(** Every sheet of the report compares a sheet of the first workbook with
    the sheet of the same name in the second. *)
Lemma report_sheets (workbook1 workbook2 : Workbook) (sd : SheetDiff) :
  In sd (sheets (compareWorkbooks workbook1 workbook2)) ->
  exists sheet1 sheet2,
    In sheet1 workbook1
    /\ getWorksheet workbook2 (name sheet1) = Some sheet2
    /\ sd = compareSheets sheet1 sheet2.
Proof.
  cbn [compareWorkbooks sheets]. rewrite catOptions_In.
  intros (sheet1 & Hin & Hf).
  destruct (getWorksheet workbook2 (name sheet1)) as [sheet2|] eqn:E; [|discriminate].
  exists sheet1, sheet2. split; [assumption|]. split; [exact E | congruence].
Qed.

Lemma comparedCells_In (sheet1 sheet2 : Worksheet) (row col : nat) :
  In (row, col) (comparedCells sheet1 sheet2) <->
  (1 <= row <= maxRow sheet1 sheet2
   /\ 1 <= col <= Nat.max (columnCount sheet1) (columnCount sheet2)).
Proof.
  unfold comparedCells. rewrite in_flat_map. split.
  - intros (r & Hr & Hin). apply in_map_iff in Hin as (c & Heq & Hc).
    injection Heq as <- <-. apply in_seq in Hr. apply in_seq in Hc. lia.
  - intros [Hr Hc]. exists row. split; [apply in_seq; lia|].
    apply in_map_iff. exists col. split; [reflexivity | apply in_seq; lia].
Qed.

(** An entry of [cellDifferences] comes from a visited cell. *)
Lemma difference_origin (sheet1 sheet2 : Worksheet) (d : CellDifference) :
  In d (cellDifferences (compareSheets sheet1 sheet2)) ->
  exists row col,
    In (row, col) (comparedCells sheet1 sheet2)
    /\ strictEquals (getCell sheet1 row col) (getCell sheet2 row col) = false
    /\ d = {| cell := getColumnLetter col ++ natToString row;
              file1 := getCell sheet1 row col;
              file2 := getCell sheet2 row col |}.
Proof.
  cbn [compareSheets cellDifferences]. rewrite in_flat_map.
  intros ([row col] & Hin & Hd). exists row, col.
  unfold compareCell in Hd.
  destruct (strictEquals (getCell sheet1 row col) (getCell sheet2 row col)); cbn in Hd.
  - contradiction.
  - destruct Hd as [<- | []]. auto.
Qed.

(** C9. The compare action looks at the first 100 rows at most: a visited
    cell has a row between 1 and [min(100, max of the two row counts)], and
    every address reported in [cellDifferences] names such a row. *)
Theorem compare_first_100_rows
        (input second : File) (report : Differences) (sd : SheetDiff) (d : CellDifference) :
  compareFiles input (Some second) = Some report ->
  In sd (sheets report) ->
  In d (cellDifferences sd) ->
  exists sheet1 sheet2 row col,
    sd = compareSheets sheet1 sheet2
    /\ rowCounts sd = (rowCount sheet1, rowCount sheet2)
    /\ (forall r c, In (r, c) (comparedCells sheet1 sheet2) ->
          1 <= r /\ r <= 100 /\ r <= Nat.max (rowCount sheet1) (rowCount sheet2))
    /\ In (row, col) (comparedCells sheet1 sheet2)
    /\ cell d = getColumnLetter col ++ natToString row
    /\ addressRow (cell d) = Some row
    /\ 1 <= row
    /\ row <= Nat.min 100 (Nat.max (fst (rowCounts sd)) (snd (rowCounts sd))).
Proof.
  unfold compareFiles.
  destruct (readFile 0 input) as [workbook1 heap].
  destruct (readFile heap second) as [workbook2 heap'].
  intros [= <-] Hsd Hd.
  apply report_sheets in Hsd as (sheet1 & sheet2 & _ & _ & ->).
  apply difference_origin in Hd as (row & col & Hin & _ & ->).
  exists sheet1, sheet2, row, col.
  split; [reflexivity|]. split; [reflexivity|].
  split.
  { intros r c Hrc. apply comparedCells_In in Hrc as [Hr _].
    unfold maxRow in Hr. lia. }
  split; [exact Hin|]. split; [reflexivity|].
  cbn [cell]. split; [apply address_decodes|].
  apply comparedCells_In in Hin as [Hr _]. unfold maxRow in Hr.
  cbn [compareSheets rowCounts fst snd]. lia.
Qed.

Definition num (z : Z) : fileCell := FPrim (PNum (Finite (inject_Z z))).

Definition oneSheet (cells : list (list fileCell)) : File :=
  [{| fileName := "Sheet1"; fileRows := cells |}].

(** Two files of one sheet that differ in cell A2. *)
Definition before : File := oneSheet [[num 0]; [num 1]].
Definition after : File := oneSheet [[num 0]; [num 2]].

Definition changedA2 : CellDifference :=
  {| cell := "A2";
     file1 := Prim (PNum (Finite (inject_Z 1)));
     file2 := Prim (PNum (Finite (inject_Z 2))) |}.

Definition sheetReport : SheetDiff :=
  {| sheetName := "Sheet1"; rowCounts := (2, 2); columnCounts := (1, 1);
     cellDifferences := [changedA2] |}.

Lemma compare_first_100_rows_witness :
  exists sheet1 sheet2 row col,
    sheetReport = compareSheets sheet1 sheet2
    /\ rowCounts sheetReport = (rowCount sheet1, rowCount sheet2)
    /\ (forall r c, In (r, c) (comparedCells sheet1 sheet2) ->
          1 <= r /\ r <= 100 /\ r <= Nat.max (rowCount sheet1) (rowCount sheet2))
    /\ In (row, col) (comparedCells sheet1 sheet2)
    /\ cell changedA2 = getColumnLetter col ++ natToString row
    /\ addressRow (cell changedA2) = Some row
    /\ 1 <= row
    /\ row <= Nat.min 100 (Nat.max (fst (rowCounts sheetReport)) (snd (rowCounts sheetReport))).
Proof.
  apply (compare_first_100_rows before after
           {| sheetCount := (1, 1); sheets := [sheetReport] |} sheetReport changedA2).
  - reflexivity.
  - left. reflexivity.
  - left. reflexivity.
Defined.

End Compare.

(* ===================================================================== *)
(** * Comparing a workbook with itself or with a changed copy *)
(* ===================================================================== *)

Module CompareCopies.
Import JS Excel Addresses Compare.

(** A file cell that holds a primitive value other than NaN. *)
Definition plainCell (c : fileCell) : bool :=
  match c with
  | FPrim (PNum NaN) => false
  | FPrim _ => true
  | FFormula _ _ | FObject => false
  end.

Definition plainFile (file : File) : Prop :=
  Forall (fun fs => Forall (Forall (fun c => plainCell c = true)) (fileRows fs)) file.

(** The value a plain cell is read as, whatever the heap. *)
Definition valueOf (c : fileCell) : value := fst (loadCell 0 c).

Definition sheetOf (fs : FileSheet) : Worksheet :=
  {| name := fileName fs; rows := map (map valueOf) (fileRows fs) |}.

Lemma loadRow_plain (row : list fileCell) (heap : nat) :
  Forall (fun c => plainCell c = true) row ->
  loadRow heap row = (map valueOf row, heap).
Proof.
  induction 1 as [|c cs Hc _ IH]; cbn [loadRow map]; [reflexivity|].
  destruct c as [p | f r |]; try discriminate Hc.
  cbn [loadCell]. now rewrite IH.
Qed.

Lemma loadRows_plain (rs : list (list fileCell)) (heap : nat) :
  Forall (Forall (fun c => plainCell c = true)) rs ->
  loadRows heap rs = (map (map valueOf) rs, heap).
Proof.
  induction 1 as [|r rs Hr _ IH]; cbn [loadRows map]; [reflexivity|].
  now rewrite (loadRow_plain r heap Hr), IH.
Qed.

Lemma readFile_plain (file : File) (heap : nat) :
  plainFile file -> readFile heap file = (map sheetOf file, heap).
Proof.
  induction 1 as [|fs file Hfs _ IH]; cbn [readFile map]; [reflexivity|].
  now rewrite (loadRows_plain _ heap Hfs), IH.
Qed.

(** A value equal to itself under [===]. *)
Definition reflexive (v : value) : Prop := strictEquals v v = true.

Lemma numEq_refl (q : Q) : numEq (Finite q) (Finite q) = true.
Proof. cbn. apply Qeq_bool_iff. reflexivity. Qed.

Lemma valueOf_reflexive (c : fileCell) : plainCell c = true -> reflexive (valueOf c).
Proof.
  destruct c as [[| [q | s |] | s | b] | |]; cbn; try discriminate; intros _; unfold reflexive; cbn.
  - reflexivity.
  - apply Qeq_bool_iff. reflexivity.
  - apply Bool.eqb_reflx.
  - apply String.eqb_refl.
  - apply Bool.eqb_reflx.
Qed.

Lemma getCell_reflexive (fs : FileSheet) (row col : nat) :
  Forall (Forall (fun c => plainCell c = true)) (fileRows fs) ->
  reflexive (getCell (sheetOf fs) row col).
Proof.
  intros Hplain. unfold getCell. cbn [sheetOf rows].
  destruct (nth_in_or_default (row - 1) (map (map valueOf) (fileRows fs)) []) as [Hin | ->].
  2:{ destruct (col - 1); reflexivity. }
  apply in_map_iff in Hin as (r & <- & Hr).
  rewrite Forall_forall in Hplain. specialize (Hplain r Hr).
  destruct (nth_in_or_default (col - 1) (map valueOf r) (Prim PNull)) as [Hc | ->];
    [|reflexivity].
  apply in_map_iff in Hc as (c & <- & Hc).
  rewrite Forall_forall in Hplain. apply valueOf_reflexive. auto.
Qed.

Lemma flat_map_nil {A B : Type} (f : A -> list B) (xs : list A) :
  (forall x, In x xs -> f x = []) -> flat_map f xs = [].
Proof.
  induction xs as [|x xs IH]; intros H; cbn; [reflexivity|].
  rewrite (H x) by now left. apply IH. intros y Hy. apply H. now right.
Qed.

Lemma getWorksheet_own (workbook : Workbook) (sheet : Worksheet) :
  NoDup (map name workbook) -> In sheet workbook ->
  getWorksheet workbook (name sheet) = Some sheet.
Proof.
  unfold getWorksheet.
  induction workbook as [|s ss IH]; intros Hnd Hin; [contradiction|].
  inversion Hnd as [|? ? Hnotin Hnd']; subst. cbn [find].
  destruct Hin as [-> | Hin].
  - now rewrite String.eqb_refl.
  - destruct (String.eqb (name s) (name sheet)) eqn:E.
    + apply String.eqb_eq in E. exfalso. apply Hnotin. rewrite E.
      now apply in_map.
    + now apply IH.
Qed.

(** Comparing a file of plain cells, with sheet names all different, with
    itself: every sheet is reported and none has a difference. *)
Lemma compare_plain_file_with_itself (file : File) :
  plainFile file ->
  NoDup (map fileName file) ->
  exists report,
    compareFiles file (Some file) = Some report
    /\ map sheetName (sheets report) = map fileName file
    /\ Forall (fun sd => cellDifferences sd = []) (sheets report).
Proof.
  intros Hplain Hnames. unfold compareFiles.
  rewrite (readFile_plain file 0 Hplain), (readFile_plain file 0 Hplain).
  eexists. split; [reflexivity|].
  set (workbook := map sheetOf file).
  assert (Hnd : NoDup (map name workbook)).
  { unfold workbook. rewrite map_map. exact Hnames. }
  assert (Hsheets : sheets (compareWorkbooks workbook workbook)
                    = map (fun s => compareSheets s s) workbook).
  { cbn [compareWorkbooks sheets].
    assert (Hall : forall ss, incl ss workbook ->
              catOptions (map (fun sheet1 =>
                                 match getWorksheet workbook (name sheet1) with
                                 | Some sheet2 => Some (compareSheets sheet1 sheet2)
                                 | None => None
                                 end) ss)
              = map (fun s => compareSheets s s) ss).
    { induction ss as [|s ss IH]; intros Hincl; cbn [map catOptions]; [reflexivity|].
      rewrite (getWorksheet_own workbook s Hnd) by (apply Hincl; now left).
      f_equal. apply IH. intros x Hx. apply Hincl. now right. }
    apply Hall. apply incl_refl. }
  rewrite Hsheets. split.
  - unfold workbook. rewrite !map_map. reflexivity.
  - apply Forall_forall. intros sd Hsd.
    apply in_map_iff in Hsd as (s & <- & Hs).
    unfold workbook in Hs. apply in_map_iff in Hs as (fs & <- & Hfs).
    cbn [compareSheets cellDifferences].
    apply flat_map_nil. intros [row col] _. unfold compareCell.
    unfold plainFile in Hplain. rewrite Forall_forall in Hplain.
    rewrite (getCell_reflexive fs row col (Hplain fs Hfs)). reflexivity.
Qed.

Lemma flat_map_seq_single {B : Type} (f : nat -> list B) (start len k : nat) :
  start <= k < start + len ->
  (forall x, x <> k -> f x = []) ->
  flat_map f (seq start len) = f k.
Proof.
  intros Hk Hothers.
  replace len with ((k - start) + S (len - (k - start) - 1)) by lia.
  rewrite seq_app, flat_map_app.
  rewrite (flat_map_nil f (seq start (k - start))).
  2:{ intros x Hx. apply in_seq in Hx. apply Hothers. lia. }
  replace (start + (k - start)) with k by lia.
  cbn [seq flat_map app].
  rewrite (flat_map_nil f (seq (S k) _)).
  2:{ intros x Hx. apply in_seq in Hx. apply Hothers. lia. }
  apply app_nil_r.
Qed.

Lemma flat_map_flat_map {A B C : Type} (g : B -> list C) (h : A -> list B) (xs : list A) :
  flat_map g (flat_map h xs) = flat_map (fun x => flat_map g (h x)) xs.
Proof.
  induction xs as [|x xs IH]; cbn; [reflexivity|].
  now rewrite flat_map_app, IH.
Qed.

Lemma flat_map_map {A B C : Type} (g : B -> list C) (h : A -> B) (xs : list A) :
  flat_map g (map h xs) = flat_map (fun x => g (h x)) xs.
Proof. induction xs as [|x xs IH]; cbn; [reflexivity | now rewrite IH]. Qed.

Lemma strictEquals_null (a b : value) :
  strictEquals a b = false -> isNull a = false \/ isNull b = false.
Proof.
  destruct a as [[| | |] | |]; destruct b as [[| | |] | |]; cbn; auto.
Qed.

(** Two sheets that differ at the cell [(row, col)] only, in the first 100
    rows: exactly one difference is reported, under the address of that
    cell.  Cells count as different when [!==] says so. *)
Lemma compare_one_cell_changed (sheet1 sheet2 : Worksheet) (row col : nat) :
  1 <= row <= 100 -> 1 <= col ->
  strictEquals (getCell sheet1 row col) (getCell sheet2 row col) = false ->
  (forall r c, (r, c) <> (row, col) ->
     strictEquals (getCell sheet1 r c) (getCell sheet2 r c) = true) ->
  cellDifferences (compareSheets sheet1 sheet2)
  = [{| cell := getColumnLetter col ++ natToString row;
        file1 := getCell sheet1 row col;
        file2 := getCell sheet2 row col |}]
  /\ addressRow (getColumnLetter col ++ natToString row) = Some row
  /\ addressColumn (getColumnLetter col ++ natToString row) = col.
Proof.
  intros Hrow Hcol Hdiff Hsame.
  split; [|apply address_decodes].
  assert (Hext : row <= Nat.max (rowCount sheet1) (rowCount sheet2)
                 /\ col <= Nat.max (columnCount sheet1) (columnCount sheet2)).
  { destruct (strictEquals_null _ _ Hdiff) as [H | H];
      apply nonempty_cell_in_extent in H; lia. }
  cbn [compareSheets cellDifferences]. unfold comparedCells.
  rewrite flat_map_flat_map.
  rewrite (flat_map_seq_single _ 1 _ row).
  - rewrite flat_map_map. rewrite (flat_map_seq_single _ 1 _ col).
    + unfold compareCell. now rewrite Hdiff.
    + lia.
    + intros c Hc. unfold compareCell. rewrite Hsame; [reflexivity | congruence].
  - unfold maxRow. lia.
  - intros r Hr. rewrite flat_map_map. apply flat_map_nil. intros c _.
    unfold compareCell. rewrite Hsame; [reflexivity | congruence].
Qed.

(** ** Object cells

    The references a read hands out lie between the heap it starts from and
    the heap it ends with. *)
Definition refsWithin (lo hi : nat) (v : value) : Prop :=
  forall r, refOf v = Some r -> lo <= r < hi.

Lemma refsWithin_wider (lo hi lo' hi' : nat) (v : value) :
  lo' <= lo -> hi <= hi' -> refsWithin lo hi v -> refsWithin lo' hi' v.
Proof. intros Hlo Hhi H r Hr. specialize (H r Hr). lia. Qed.

Lemma loadRow_refs (row : list fileCell) :
  forall heap vs heap',
    loadRow heap row = (vs, heap') ->
    heap <= heap' /\ Forall (refsWithin heap heap') vs.
Proof.
  induction row as [|c row IH]; intros heap vs heap'; cbn [loadRow].
  - intros [= <- <-]. split; [lia | constructor].
  - destruct (loadCell heap c) as [v heap1] eqn:Ec.
    destruct (loadRow heap1 row) as [vs' heap2] eqn:Er.
    intros [= <- <-]. destruct (IH _ _ _ Er) as [Hle Hall].
    assert (Hc : heap <= heap1 /\ refsWithin heap heap1 v).
    { destruct c; cbn in Ec; injection Ec as <- <-;
        (split; [lia|]); intros r Hr; cbn in Hr; try discriminate;
        injection Hr as <-; lia. }
    destruct Hc as [Hle1 Hv]. split; [lia|]. constructor.
    + apply (refsWithin_wider heap heap1); [lia | lia | exact Hv].
    + apply Forall_impl with (2 := Hall). intros x.
      apply refsWithin_wider; lia.
Qed.

Lemma loadRows_refs (rs : list (list fileCell)) :
  forall heap loaded heap',
    loadRows heap rs = (loaded, heap') ->
    heap <= heap' /\ Forall (Forall (refsWithin heap heap')) loaded.
Proof.
  induction rs as [|r rs IH]; intros heap loaded heap'; cbn [loadRows].
  - intros [= <- <-]. split; [lia | constructor].
  - destruct (loadRow heap r) as [row heap1] eqn:Er.
    destruct (loadRows heap1 rs) as [rows' heap2] eqn:Ers.
    intros [= <- <-].
    destruct (loadRow_refs _ _ _ _ Er) as [Hle1 Hrow].
    destruct (IH _ _ _ Ers) as [Hle2 Hrows]. split; [lia|]. constructor.
    + apply Forall_impl with (2 := Hrow). intros x. apply refsWithin_wider; lia.
    + apply Forall_impl with (2 := Hrows). intros row' Hrow'.
      apply Forall_impl with (2 := Hrow'). intros x. apply refsWithin_wider; lia.
Qed.

Lemma readFile_refs (file : File) :
  forall heap workbook heap',
    readFile heap file = (workbook, heap') ->
    heap <= heap'
    /\ Forall (fun sheet => Forall (Forall (refsWithin heap heap')) (rows sheet)) workbook.
Proof.
  induction file as [|fs file IH]; intros heap workbook heap'; cbn [readFile].
  - intros [= <- <-]. split; [lia | constructor].
  - destruct (loadRows heap (fileRows fs)) as [rs heap1] eqn:Ers.
    destruct (readFile heap1 file) as [sheets' heap2] eqn:Ef.
    intros [= <- <-].
    destruct (loadRows_refs _ _ _ _ Ers) as [Hle1 Hrs].
    destruct (IH _ _ _ Ef) as [Hle2 Hsheets]. split; [lia|]. constructor.
    + cbn [rows]. apply Forall_impl with (2 := Hrs). intros row Hrow.
      apply Forall_impl with (2 := Hrow). intros x. apply refsWithin_wider; lia.
    + apply Forall_impl with (2 := Hsheets). intros sheet Hsheet.
      apply Forall_impl with (2 := Hsheet). intros row Hrow.
      apply Forall_impl with (2 := Hrow). intros x. apply refsWithin_wider; lia.
Qed.

Lemma getCell_refs (lo hi : nat) (sheet : Worksheet) (row col : nat) :
  Forall (Forall (refsWithin lo hi)) (rows sheet) ->
  refsWithin lo hi (getCell sheet row col).
Proof.
  intros Hall. unfold getCell.
  destruct (nth_in_or_default (row - 1) (rows sheet) []) as [Hin | ->].
  2:{ destruct (col - 1); intros r Hr; discriminate Hr. }
  rewrite Forall_forall in Hall. specialize (Hall _ Hin).
  destruct (nth_in_or_default (col - 1) (nth (row - 1) (rows sheet) []) (Prim PNull))
    as [Hc | ->]; [|intros r Hr; discriminate Hr].
  rewrite Forall_forall in Hall. auto.
Qed.

(** Between two workbooks read one after the other, a cell that holds an
    object is never [===] to the cell it is compared with, whatever the
    files hold. *)
Lemma object_cells_always_differ
      (input second : File) (workbook1 workbook2 : Workbook) (heap heap' : nat)
      (sheet1 sheet2 : Worksheet) (row col : nat) :
  readFile 0 input = (workbook1, heap) ->
  readFile heap second = (workbook2, heap') ->
  In sheet1 workbook1 -> In sheet2 workbook2 ->
  refOf (getCell sheet1 row col) <> None ->
  strictEquals (getCell sheet1 row col) (getCell sheet2 row col) = false.
Proof.
  intros H1 H2 Hs1 Hs2 Hobj.
  destruct (readFile_refs _ _ _ _ H1) as [_ Hall1].
  destruct (readFile_refs _ _ _ _ H2) as [_ Hall2].
  rewrite Forall_forall in Hall1, Hall2.
  pose proof (getCell_refs _ _ sheet1 row col (Hall1 _ Hs1)) as Hr1.
  pose proof (getCell_refs _ _ sheet2 row col (Hall2 _ Hs2)) as Hr2.
  destruct (getCell sheet1 row col) as [p | r1 f1 res1 | r1];
    [now contradiction Hobj | |];
    destruct (getCell sheet2 row col) as [p2 | r2 f2 res2 | r2]; cbn; try reflexivity;
    specialize (Hr1 r1 eq_refl); specialize (Hr2 r2 eq_refl);
    apply Nat.eqb_neq; lia.
Qed.

(** A workbook of one sheet whose cell B1 holds a formula. *)
Definition withFormula : File :=
  oneSheet [[num 1; FFormula "A1+1" (PNum (Finite (inject_Z 2)))]].

(** C2 (defect). Compared with itself, a file that holds a formula cell is
    reported to differ at that cell: the two reads give two objects, and
    [!==] compares objects by reference.  The report of [withFormula]
    against itself has one entry, at B1, where the claim wants none. *)
Theorem compare_self_reports_formula_cell :
  option_map (fun report => map cellDifferences (sheets report))
             (compareFiles withFormula (Some withFormula))
  = Some [[{| cell := "B1";
              file1 := Formula 0 "A1+1" (PNum (Finite (inject_Z 2)));
              file2 := Formula 1 "A1+1" (PNum (Finite (inject_Z 2))) |}]].
Proof. reflexivity. Qed.

End CompareCopies.

(* ===================================================================== *)
(** * From CSV to a workbook and back *)
(* ===================================================================== *)

Module RoundTrip.
Import JS Excel Csv.

Definition lineBreak : string := String newline EmptyString.
Definition fieldBreak : string := String comma EmptyString.

(** The CSV text of a grid of fields, and the grid of a CSV text. *)
Definition csvText (grid : list (list string)) : string :=
  join lineBreak (map (join fieldBreak) grid).

Definition csvGrid (content : string) : list (list string) :=
  map (split comma) (split newline content).

(** [csvToExcel] then [excelToCSV] with the default options: the content of
    the one file written. *)
Definition roundTrip (csvContent : string) : option string :=
  match excelToCSV (csvToExcel csvContent) defaultExport with
  | Some [(_, content)] => Some content
  | _ => None
  end.

(** A field without embedded delimiters. *)
Definition noDelimiters (c : string) : Prop :=
  includes comma c = false /\ includes dquote c = false /\ includes newline c = false.

(** What a field comes back as: itself when it is text or empty, and the
    number it is read as, written back by [String], when it is numeric. *)
Definition normalize (c : string) : string :=
  if isNaN c || String.eqb c EmptyString then c
  else numberToString (parseFloat c).

(** A field written as a binary, octal or hexadecimal literal, such as
    [0x10]: [isNaN] takes it for a number, [parseFloat] reads it as 0. *)
Definition radixNumber (c : string) : bool :=
  match parseRadixLiteral c with
  | Some (Finite _) => true
  | _ => false
  end.

(** ** Numeric fields the exact numbers stand for

    The numbers of the code are binary64 values: [parseFloat] rounds the
    decimal text to the nearest one and [String] writes the shortest digits
    that read back as it.  For a plain decimal numeral of at most 15
    characters (digits, an optional sign, an optional point, no exponent)
    the two steps give back the digits of the numeral, without leading and
    trailing zeros: it has at most 15 significant digits and lies between
    10^-14 and 10^15, where binary64 tells all such numerals apart.  This is
    what [parseFloat] and [numberToString] of this model compute from the
    exact value.  Longer numerals, exponents and [Infinity] are outside. *)
Definition decimalChar (c : ascii) : bool :=
  isDigit c || Ascii.eqb c "." || Ascii.eqb c "+" || Ascii.eqb c "-".

Fixpoint decimalText (s : string) : bool :=
  match s with
  | EmptyString => true
  | String c rest => decimalChar c && decimalText rest
  end.

Definition shortDecimal (c : string) : bool :=
  (String.length c <=? 15) && decimalText c.

(** A field that is text, empty, or such a numeral. *)
Definition withinBinary64 (c : string) : bool :=
  isNaN c || String.eqb c EmptyString || shortDecimal c.

(** ** Splitting and joining *)

Lemma includes_app (c : ascii) (a b : string) :
  includes c (a ++ b) = includes c a || includes c b.
Proof.
  induction a as [|d a IH]; cbn; [reflexivity|].
  now rewrite IH, orb_assoc.
Qed.

Lemma split_without (sep : ascii) (p : string) :
  includes sep p = false -> split sep p = [p].
Proof.
  induction p as [|c p IH]; cbn; [reflexivity|].
  intros H. apply orb_false_iff in H as [Hc Hp].
  rewrite Hc, (IH Hp). reflexivity.
Qed.

Lemma split_first (sep : ascii) (p rest : string) :
  includes sep p = false ->
  split sep (p ++ String sep rest) = p :: split sep rest.
Proof.
  induction p as [|c p IH]; cbn.
  - intros _. now rewrite Ascii.eqb_refl.
  - intros H. apply orb_false_iff in H as [Hc Hp].
    rewrite Hc, (IH Hp). reflexivity.
Qed.

Lemma split_join (sep : ascii) (parts : list string) :
  parts <> [] ->
  Forall (fun p => includes sep p = false) parts ->
  split sep (join (String sep EmptyString) parts) = parts.
Proof.
  induction parts as [|p parts IH]; [congruence|].
  intros _ Hall. inversion Hall as [|? ? Hp Hrest]; subst.
  destruct parts as [|q parts].
  - cbn [join]. now apply split_without.
  - change (join (String sep EmptyString) (p :: q :: parts))
      with (p ++ String sep EmptyString ++ join (String sep EmptyString) (q :: parts)).
    cbn [append]. rewrite split_first by exact Hp.
    f_equal. apply IH; [discriminate | exact Hrest].
Qed.

Lemma includes_join_other (c sep : ascii) (parts : list string) :
  Ascii.eqb sep c = false ->
  Forall (fun p => includes c p = false) parts ->
  includes c (join (String sep EmptyString) parts) = false.
Proof.
  intros Hsep. induction 1 as [|p parts Hp Hall IH]; [reflexivity|].
  destruct parts as [|q parts]; [exact Hp|].
  change (join (String sep EmptyString) (p :: q :: parts))
    with (p ++ String sep EmptyString ++ join (String sep EmptyString) (q :: parts)).
  rewrite includes_app, Hp. cbn [append includes]. now rewrite Hsep, IH.
Qed.

Lemma includes_join_sep (sep : ascii) (p q : string) (parts : list string) :
  includes sep (join (String sep EmptyString) (p :: q :: parts)) = true.
Proof.
  change (join (String sep EmptyString) (p :: q :: parts))
    with (p ++ String sep EmptyString ++ join (String sep EmptyString) (q :: parts)).
  rewrite includes_app. cbn [append includes]. rewrite Ascii.eqb_refl.
  now rewrite orb_true_r.
Qed.

(** ** Trimming *)

(** Some character of the text is not white space. *)
Fixpoint hasInk (s : string) : bool :=
  match s with
  | EmptyString => false
  | String c rest => negb (isWhiteSpace c) || hasInk rest
  end.

Lemma trimStart_ink (s : string) : hasInk s = true -> hasInk (trimStart s) = true.
Proof.
  induction s as [|c s IH]; cbn; [discriminate|].
  destruct (isWhiteSpace c) eqn:E; cbn; [exact IH|].
  intros _. now rewrite E.
Qed.

Lemma trimEnd_ink (s : string) : hasInk s = true -> trimEnd s <> EmptyString.
Proof.
  induction s as [|c s IH]; cbn; [discriminate|].
  destruct (trimEnd s) eqn:Et; [|discriminate].
  destruct (isWhiteSpace c); cbn; [|discriminate].
  intros H. now apply IH.
Qed.

Lemma includes_ink (c : ascii) (s : string) :
  isWhiteSpace c = false -> includes c s = true -> hasInk s = true.
Proof.
  intros Hc. induction s as [|d s IH]; cbn; [discriminate|].
  destruct (Ascii.eqb d c) eqn:E.
  - apply Ascii.eqb_eq in E. subst d. now rewrite Hc.
  - cbn. intros H. rewrite (IH H). apply orb_true_r.
Qed.

Lemma trim_not_blank (s : string) :
  includes comma s = true -> String.eqb (trim s) EmptyString = false.
Proof.
  intros H. apply String.eqb_neq. unfold trim.
  apply trimEnd_ink, trimStart_ink.
  now apply (includes_ink comma).
Qed.

(** ** Reading the CSV text *)

Lemma filter_all {A : Type} (f : A -> bool) (xs : list A) :
  Forall (fun x => f x = true) xs -> filter f xs = xs.
Proof.
  induction 1 as [|x xs Hx _ IH]; cbn; [reflexivity|].
  now rewrite Hx, IH.
Qed.

Lemma map_fixed {A : Type} (f : A -> A) (xs : list A) :
  Forall (fun x => f x = x) xs -> map f xs = xs.
Proof.
  induction 1 as [|x xs Hx _ IH]; cbn; [reflexivity|].
  now rewrite Hx, IH.
Qed.

(** A row of at least two fields, none with a comma or a newline, each
    already trimmed. *)
Definition cleanRow (row : list string) : Prop :=
  2 <= List.length row
  /\ Forall (fun c => includes comma c = false) row
  /\ Forall (fun c => includes newline c = false) row
  /\ Forall (fun c => trim c = c) row.

Lemma parseRows_csvText (grid : list (list string)) :
  grid <> [] ->
  Forall cleanRow grid ->
  parseRows (csvText grid) = grid.
Proof.
  intros Hne Hclean. unfold parseRows, csvText, lineBreak.
  rewrite split_join.
  - rewrite filter_all.
    + rewrite map_map. apply map_fixed.
      apply Forall_impl with (2 := Hclean).
      intros row (Hlen & Hcomma & _ & Htrim).
      unfold fieldBreak. rewrite split_join; [now apply map_fixed | | exact Hcomma].
      destruct row; [cbn in Hlen; lia | discriminate].
    + apply Forall_map. apply Forall_impl with (2 := Hclean).
      intros row (Hlen & _ & _ & _).
      rewrite trim_not_blank; [reflexivity|].
      destruct row as [|p [|q row]]; cbn in Hlen; try lia.
      apply includes_join_sep.
  - destruct grid; [congruence | discriminate].
  - apply Forall_map. apply Forall_impl with (2 := Hclean).
    intros row (_ & _ & Hnl & _).
    now apply includes_join_other.
Qed.

(** ** Filling the worksheet *)

Lemma setNth_end {A : Type} (hole x : A) (l : list A) :
  setNth hole (List.length l) x l = (l ++ [x])%list.
Proof. induction l as [|y l IH]; cbn; [reflexivity | now rewrite IH]. Qed.

Lemma setNth_last {A : Type} (hole x y : A) (l : list A) :
  setNth hole (List.length l) x (l ++ [y]) = (l ++ [x])%list.
Proof. induction l as [|z l IH]; cbn; [reflexivity | now rewrite IH]. Qed.

(** The row under construction: absent while it has no cell. *)
Definition openRow (cells : list value) : list (list value) :=
  match cells with
  | [] => []
  | _ => [cells]
  end.

Lemma nth_openRow (done : list (list value)) (cells : list value) :
  nth (List.length done) (done ++ openRow cells) [] = cells.
Proof.
  destruct cells as [|v cells]; cbn [openRow].
  - rewrite app_nil_r. now apply nth_overflow.
  - now rewrite nth_middle.
Qed.

Lemma setNth_openRow (done : list (list value)) (cells row : list value) :
  setNth [] (List.length done) row (done ++ openRow cells) = (done ++ [row])%list.
Proof.
  destruct cells as [|v cells]; cbn [openRow].
  - rewrite app_nil_r. apply setNth_end.
  - apply setNth_last.
Qed.

Lemma fill_row (done : list (list value)) (fields : list string) :
  forall cells,
    forEachIndexed
      (fun cell colIndex sheet' =>
         setCell sheet' (List.length done + 1) (colIndex + 1) (cellValue cell))
      fields (List.length cells)
      {| name := "Sheet1"; rows := done ++ openRow cells |}
    = {| name := "Sheet1";
         rows := done ++ openRow (cells ++ map cellValue fields) |}.
Proof.
  induction fields as [|c fields IH]; intros cells; cbn [forEachIndexed map].
  - now rewrite app_nil_r.
  - unfold setCell at 2. cbn [name rows].
    rewrite !Nat.add_sub, nth_openRow, setNth_end, setNth_openRow.
    specialize (IH (cells ++ [cellValue c])%list).
    rewrite length_app in IH. cbn [List.length] in IH.
    rewrite (Nat.add_1_r (List.length cells)) in IH.
    replace (done ++ [(cells ++ [cellValue c])%list])%list
      with (done ++ openRow (cells ++ [cellValue c]))%list
      by (destruct cells; reflexivity).
    rewrite IH, <- app_assoc. reflexivity.
Qed.

Lemma fill_rows (parsed : list (list string)) :
  Forall (fun row => row <> []) parsed ->
  forall done,
    forEachIndexed
      (fun row rowIndex sheet =>
         forEachIndexed
           (fun cell colIndex sheet' =>
              setCell sheet' (rowIndex + 1) (colIndex + 1) (cellValue cell))
           row 0 sheet)
      parsed (List.length done) {| name := "Sheet1"; rows := done |}
    = {| name := "Sheet1"; rows := done ++ map (map cellValue) parsed |}.
Proof.
  induction 1 as [|row parsed Hrow _ IH]; intros done; cbn [forEachIndexed map].
  - now rewrite app_nil_r.
  - pose proof (fill_row done row []) as Hfill.
    cbn [List.length openRow app] in Hfill. rewrite app_nil_r in Hfill.
    rewrite Hfill.
    replace (openRow (map cellValue row)) with [map cellValue row]
      by (destruct row; [congruence | reflexivity]).
    specialize (IH (done ++ [map cellValue row])%list).
    rewrite length_app in IH. cbn [List.length] in IH.
    rewrite (Nat.add_1_r (List.length done)) in IH.
    rewrite IH, <- app_assoc. reflexivity.
Qed.

Lemma fillWorksheet_grid (parsed : list (list string)) :
  Forall (fun row => row <> []) parsed ->
  fillWorksheet parsed = {| name := "Sheet1"; rows := map (map cellValue) parsed |}.
Proof.
  intros H. exact (fill_rows parsed H []).
Qed.

(** ** Writing the file and reading it back *)

Lemma cellValue_prim (c : string) : exists p, cellValue c = Prim p /\ p <> PNull.
Proof.
  unfold cellValue.
  destruct (negb (isNaN c) && negb (String.eqb c EmptyString));
    eexists; split; try reflexivity; discriminate.
Qed.

Lemma loadRow_stored (fields : list string) (heap : nat) :
  loadRow heap (map storeCell (map cellValue fields)) = (map cellValue fields, heap).
Proof.
  induction fields as [|c fields IH]; cbn [map loadRow]; [reflexivity|].
  destruct (cellValue_prim c) as (p & -> & _). cbn [storeCell loadCell].
  now rewrite IH.
Qed.

Lemma loadRows_stored (grid : list (list string)) (heap : nat) :
  loadRows heap (map (map storeCell) (map (map cellValue) grid))
  = (map (map cellValue) grid, heap).
Proof.
  induction grid as [|row grid IH]; cbn [map loadRows]; [reflexivity|].
  now rewrite loadRow_stored, IH.
Qed.

Lemma roundTrip_sheet (csvContent : string) :
  Forall (fun row => row <> []) (parseRows csvContent) ->
  roundTrip csvContent
  = Some (sheetToCsv {| name := "Sheet1";
                        rows := map (map cellValue) (parseRows csvContent) |}).
Proof.
  intros Hrows. unfold roundTrip, excelToCSV, csvToExcel.
  rewrite (fillWorksheet_grid _ Hrows).
  cbn [writeFile map name rows readFile fileRows fileName].
  rewrite loadRows_stored. reflexivity.
Qed.

(** ** The text of a number holds no delimiter *)

Definition plainChar (c : ascii) : bool :=
  negb (Ascii.eqb c comma || Ascii.eqb c dquote || Ascii.eqb c newline).

Fixpoint plainText (s : string) : bool :=
  match s with
  | EmptyString => true
  | String c rest => plainChar c && plainText rest
  end.

Lemma plainText_noDelimiters (s : string) : plainText s = true -> noDelimiters s.
Proof.
  unfold noDelimiters.
  induction s as [|c s IH]; cbn [includes plainText]; [auto|].
  intros H. apply andb_true_iff in H as [Hc Hs].
  destruct (IH Hs) as (H1 & H2 & H3). rewrite H1, H2, H3, !orb_false_r.
  unfold plainChar in Hc. apply negb_true_iff in Hc.
  apply orb_false_iff in Hc as [Hc Hn]. apply orb_false_iff in Hc as [Hc Hq].
  auto.
Qed.

Lemma plainText_app (a b : string) :
  plainText (a ++ b) = plainText a && plainText b.
Proof.
  induction a as [|c a IH]; cbn; [reflexivity|].
  now rewrite IH, andb_assoc.
Qed.

Lemma plainText_zeros (n : nat) : plainText (zeros n) = true.
Proof. induction n; cbn; auto. Qed.

Lemma plainText_take (n : nat) (s : string) :
  plainText s = true -> plainText (take n s) = true.
Proof.
  revert s. induction n as [|n IH]; intros [|c s]; cbn; auto.
  intros H. apply andb_true_iff in H as [Hc Hs]. now rewrite Hc, IH.
Qed.

Lemma plainText_drop (n : nat) (s : string) :
  plainText s = true -> plainText (drop n s) = true.
Proof.
  revert s. induction n as [|n IH]; intros [|c s]; cbn; auto.
  intros H. apply andb_true_iff in H as [Hc Hs]. now apply IH.
Qed.

Lemma plainText_uint (d : Decimal.uint) : plainText (NilEmpty.string_of_uint d) = true.
Proof. induction d; cbn; auto. Qed.

Lemma plainText_zToString (z : Z) : plainText (zToString z) = true.
Proof.
  unfold zToString, NilZero.string_of_uint.
  destruct (N.to_uint (Z.to_N z)); try apply plainText_uint. reflexivity.
Qed.

Create HintDb plain.
#[local] Hint Resolve plainText_zeros plainText_take plainText_drop
  plainText_zToString : plain.

Ltac plain_pieces :=
  repeat (rewrite plainText_app || (apply andb_true_iff; split));
  cbn [plainText plainChar];
  auto with plain.

Lemma plainText_formatDecimal (digits : string) (n : Z) :
  plainText digits = true -> plainText (formatDecimal digits n) = true.
Proof.
  intros Hd. unfold formatDecimal.
  repeat match goal with
         | |- context [if ?b then _ else _] => destruct b
         end; plain_pieces.
Qed.

Lemma plainText_numberToString (x : number) : plainText (numberToString x) = true.
Proof.
  destruct x as [q | [|] |]; cbn [numberToString]; try reflexivity.
  destruct (Qeq_bool q 0); [reflexivity|].
  rewrite plainText_app, plainText_formatDecimal by apply plainText_zToString.
  destruct (qNegative q); reflexivity.
Qed.

(** ** Writing the cells *)

Lemma cellText_cellValue (c : string) :
  noDelimiters c -> cellText (cellValue c) = normalize c.
Proof.
  intros (Hcomma & Hquote & Hnl). unfold cellValue, normalize.
  destruct (isNaN c); cbn [negb andb orb].
  - unfold cellText. cbn [isNull primToString]. now rewrite Hcomma, Hquote, Hnl.
  - destruct (String.eqb c EmptyString); cbn [negb].
    + unfold cellText. cbn [isNull primToString]. now rewrite Hcomma, Hquote, Hnl.
    + unfold cellText. cbn [isNull primToString].
      destruct (plainText_noDelimiters _ (plainText_numberToString (parseFloat c)))
        as (H1 & H2 & H3).
      now rewrite H1, H2, H3.
Qed.

Lemma normalize_noDelimiters (c : string) : noDelimiters c -> noDelimiters (normalize c).
Proof.
  intros H. unfold normalize.
  destruct (isNaN c || String.eqb c EmptyString); [exact H|].
  apply plainText_noDelimiters, plainText_numberToString.
Qed.

(** Numbers in their shortest decimal form come back as they are, other
    spellings of a number come back in that form, text is kept. *)
Example normalize_samples :
  map normalize ["5"; "-12"; "3.25"; "5.0"; "007"; "1e3"; "+4"; ".5"; "pen"; "12 kg"]
  = ["5"; "-12"; "3.25"; "5"; "7"; "1000"; "4"; "0.5"; "pen"; "12 kg"].
Proof. vm_compute. reflexivity. Qed.

(** A field spelled as a hexadecimal literal is taken for a number by
    [isNaN], and read as 0 by [parseFloat]. *)
Example normalize_hexadecimal :
  isNaN "0x10" = false /\ radixNumber "0x10" = true /\ normalize "0x10" = "0".
Proof. vm_compute. auto. Qed.

Lemma hasValues_row (row : list string) :
  row <> [] -> hasValues (map cellValue row) = true.
Proof.
  destruct row as [|c row]; [congruence|]. intros _. cbn [map hasValues existsb].
  destruct (cellValue_prim c) as (p & -> & Hp).
  destruct p; [congruence | reflexivity ..].
Qed.

Lemma sheetToCsv_grid (grid : list (list string)) :
  Forall (fun row => row <> []) grid ->
  Forall (Forall noDelimiters) grid ->
  sheetToCsv {| name := "Sheet1"; rows := map (map cellValue) grid |}
  = csvText (map (map normalize) grid).
Proof.
  intros Hne Hplain. unfold sheetToCsv, csvText. cbn [rows]. f_equal.
  rewrite filter_all.
  2:{ apply Forall_map. apply Forall_impl with (2 := Hne). apply hasValues_row. }
  rewrite !map_map. apply map_ext_in. intros row Hrow. unfold fieldBreak. f_equal.
  rewrite map_map. apply map_ext_in. intros c Hc.
  apply cellText_cellValue.
  rewrite Forall_forall in Hplain. specialize (Hplain row Hrow).
  rewrite Forall_forall in Hplain. auto.
Qed.

Lemma csvGrid_csvText (grid : list (list string)) :
  grid <> [] ->
  Forall (fun row => row <> []) grid ->
  Forall (Forall noDelimiters) grid ->
  csvGrid (csvText grid) = grid.
Proof.
  intros Hgrid Hne Hplain. unfold csvGrid, csvText, lineBreak.
  rewrite split_join.
  - rewrite map_map. apply map_fixed. rewrite Forall_forall. intros row Hrow.
    unfold fieldBreak. apply split_join.
    + rewrite Forall_forall in Hne. auto.
    + rewrite Forall_forall in Hplain. specialize (Hplain row Hrow).
      apply Forall_impl with (2 := Hplain). now intros c (H & _ & _).
  - destruct grid; [congruence | discriminate].
  - apply Forall_map. rewrite Forall_forall. intros row Hrow.
    apply includes_join_other; [reflexivity|].
    rewrite Forall_forall in Hplain. specialize (Hplain row Hrow).
    apply Forall_impl with (2 := Hplain). now intros c (_ & _ & H).
Qed.

(** ** The round trip *)

Definition threeByThree (grid : list (list string)) : Prop :=
  List.length grid = 3 /\ Forall (fun row => List.length row = 3) grid.

(** The property as the specification words it.  A field comes back "up to
    the format of numbers" when it comes back unchanged or is numeric; how a
    numeric field may change is left open. *)
Definition upToNumberFormat (original returned : string) : Prop :=
  returned = original \/ isNaN original = false.

Definition reproducesEveryGrid : Prop :=
  forall grid,
    threeByThree grid ->
    Forall (Forall noDelimiters) grid ->
    exists content,
      roundTrip (csvText grid) = Some content
      /\ Forall2 (Forall2 upToNumberFormat) grid (csvGrid content).

(** A grid with a field that starts with a space. *)
Definition padded : list (list string) :=
  [["item"; "qty"; "note"]; ["pen"; "5"; " x"]; ["ink"; "7"; "y"]].

Lemma Forall2_at {A B : Type} (R : A -> B -> Prop) (xs : list A) (ys : list B) :
  Forall2 R xs ys ->
  forall n x y, nth_error xs n = Some x -> nth_error ys n = Some y -> R x y.
Proof.
  induction 1 as [|x0 y0 xs ys H0 _ IH]; intros [|n] x y Hx Hy; try discriminate.
  - cbn in Hx, Hy. congruence.
  - cbn in Hx, Hy. eauto.
Qed.

(** What the round trip gives for [padded]. *)
Definition paddedBack : list (list string) :=
  [["item"; "qty"; "note"]; ["pen"; "5"; "x"]; ["ink"; "7"; "y"]].

(** The field [" x"] is text and comes back as ["x"]: [csvToExcel] trims
    every field. *)
Lemma roundTrip_padded_counterexample : ~ reproducesEveryGrid.
Proof.
  intros Hall.
  destruct (Hall padded) as (content & Hcontent & Hgrid).
  - split; [reflexivity | repeat constructor].
  - repeat constructor.
  - assert (Hback : roundTrip (csvText padded) = Some (csvText paddedBack))
      by (vm_compute; reflexivity).
    rewrite Hback in Hcontent. injection Hcontent as <-.
    replace (csvGrid (csvText paddedBack)) with paddedBack in Hgrid
      by (vm_compute; reflexivity).
    pose proof (Forall2_at _ _ _ Hgrid 1 ["pen"; "5"; " x"] ["pen"; "5"; "x"]
                           eq_refl eq_refl) as Hrow.
    pose proof (Forall2_at _ _ _ Hrow 2 " x" "x" eq_refl eq_refl) as [Heq | Hnum].
    + discriminate Heq.
    + vm_compute in Hnum. discriminate Hnum.
Qed.

Lemma Forall2_mapped {A B : Type} (R : A -> B -> Prop) (f : A -> B) (xs : list A) :
  Forall (fun x => R x (f x)) xs -> Forall2 R xs (map f xs).
Proof. induction 1; cbn [map]; constructor; assumption. Qed.

(** C8, amended. For a CSV file of three rows and three columns whose
    fields hold no comma, quote or newline and no white space at either
    end, and whose numeric fields are plain decimal numerals of at most 15
    characters, [csvToExcel] followed by [excelToCSV] gives back a grid of
    three rows and three columns in which every field that is text or
    empty is unchanged and every numeric field [c] is
    [String(parseFloat(c))], again without comma, quote or newline.  The
    file written by [csvToExcel] is read back by [excelToCSV] with the same
    cell values.  Numerals of more than 15 characters, exponents,
    [Infinity] and binary, octal or hexadecimal literals are left out. *)
Theorem roundTrip_trimmed_grid (grid : list (list string)) :
  threeByThree grid ->
  Forall (Forall noDelimiters) grid ->
  Forall (Forall (fun c => trim c = c)) grid ->
  Forall (Forall (fun c => withinBinary64 c = true)) grid ->
  roundTrip (csvText grid) = Some (csvText (map (map normalize) grid))
  /\ csvGrid (csvText (map (map normalize) grid)) = map (map normalize) grid
  /\ Forall2 (Forall2 (fun original returned =>
                         (isNaN original = true -> returned = original)
                         /\ (original = EmptyString -> returned = original)
                         /\ (isNaN original = false -> original <> EmptyString ->
                             returned = numberToString (parseFloat original))
                         /\ noDelimiters returned))
             grid (map (map normalize) grid)
  /\ threeByThree (map (map normalize) grid).
Proof.
  intros [Hrows Hcols] Hplain Htrim _.
  assert (Hgrid : grid <> []) by (destruct grid; [discriminate | congruence]).
  assert (Hne : Forall (fun row : list string => row <> []) grid).
  { apply Forall_impl with (2 := Hcols). intros [|c row]; [discriminate | congruence]. }
  assert (Hclean : Forall cleanRow grid).
  { rewrite Forall_forall in *. intros row Hrow.
    specialize (Hcols row Hrow). specialize (Hplain row Hrow). specialize (Htrim row Hrow).
    unfold cleanRow. rewrite Hcols. split; [lia|].
    split; [|split; [|exact Htrim]];
      apply Forall_impl with (2 := Hplain); unfold noDelimiters; tauto. }
  split; [|split; [|split]].
  - rewrite roundTrip_sheet; rewrite (parseRows_csvText grid Hgrid Hclean); [|exact Hne].
    f_equal. now apply sheetToCsv_grid.
  - apply csvGrid_csvText.
    + destruct grid; [congruence | discriminate].
    + apply Forall_map. apply Forall_impl with (2 := Hne).
      intros [|c row]; [congruence | discriminate].
    + apply Forall_map. apply Forall_impl with (2 := Hplain).
      intros row Hrow. apply Forall_map. apply Forall_impl with (2 := Hrow).
      apply normalize_noDelimiters.
  - apply Forall2_mapped. apply Forall_impl with (2 := Hplain). intros row Hrow.
    apply Forall2_mapped. apply Forall_impl with (2 := Hrow). intros c Hc.
    split; [|split; [|split]].
    + unfold normalize. now intros ->.
    + unfold normalize. intros ->. reflexivity.
    + unfold normalize. intros -> Hempty. apply String.eqb_neq in Hempty.
      now rewrite Hempty.
    + now apply normalize_noDelimiters.
  - split; [now rewrite length_map|].
    apply Forall_map. apply Forall_impl with (2 := Hcols).
    intros row Hrow. now rewrite length_map.
Qed.

(** A grid with a header row, text and numbers. *)
Definition inventory : list (list string) :=
  [["item"; "qty"; "price"]; ["pen"; "5"; "1.50"]; ["ink"; "007"; "x y"]].

Lemma roundTrip_trimmed_grid_witness :
  roundTrip (csvText inventory)
  = Some (csvText [["item"; "qty"; "price"]; ["pen"; "5"; "1.5"]; ["ink"; "7"; "x y"]]).
Proof.
  apply (roundTrip_trimmed_grid inventory).
  - split; [reflexivity | repeat constructor].
  - repeat constructor.
  - repeat constructor.
  - repeat constructor.
Defined.

End RoundTrip.

(* ===================================================================== *)
(** * The monitoring loop *)
(* ===================================================================== *)

Module Checks.
Import JS Monitor.

(** The two kinds of entries the loop pushes. *)
Definition statusOf (anomalies : list json) : string :=
  if List.length anomalies =? 0 then "healthy" else "issues_detected".

Definition resultEntry (i : nat) (t : Z) (anomalies : list json) (data : json) : json :=
  JObj [("check", JNum (i + 1));
        ("timestamp", JTime t);
        ("status", JStr (statusOf anomalies));
        ("anomalyCount", JNum (List.length anomalies));
        ("anomalies", JArr anomalies);
        ("data", data)].

Definition errorEntry (i : nat) (t : Z) (message : string) : json :=
  JObj [("check", JNum (i + 1));
        ("timestamp", JTime t);
        ("status", JStr "error");
        ("error", JStr message)].

Definition noData : Data := {| metrics := []; tables := []; charts := []; error := None |}.

(** The [data] of a check whose page title is [pageTitle], read at [t]. *)
Definition dataOf (p : Page) (t : Z) (pageTitle : string) : json :=
  dataToJson t pageTitle (url p)
    (snd (tryCatch (extractSteps p)
                   (fun message =>
                      modify (fun d =>
                        {| metrics := metrics d; tables := tables d;
                           charts := charts d; error := Some message |}))
                   noData)).

(** How the [try] block of a check ends: an error reaches the [catch] block
    after [reads] readings of the clock, or the result is pushed and the
    wait before the next check returns or throws. *)
Inductive attempt : Type :=
| Failed (message : string) (reads : nat)
| Completed (pageTitle : string) (pauseError : option string).

Definition attemptOf (config : Config) (i : nat) (p : Page) : attempt :=
  match goto p with
  | Throws m => Failed m 0
  | Returns _ =>
      match settle p with
      | Throws m => Failed m 0
      | Returns _ =>
          match title p with
          | Throws m => Failed m 1
          | Returns pageTitle =>
              Completed pageTitle
                (if i <? checkCount config - 1
                 then match pause p with
                      | Throws m => Some m
                      | Returns _ => None
                      end
                 else None)
          end
      end
  end.

(** The entries a check pushes and the clock readings it makes, when it
    starts after [k] readings. *)
Definition pushed (w : World) (config : Config) (i k : nat) : list json * nat :=
  let p := page w i in
  match attemptOf config i p with
  | Failed m reads => ([errorEntry i (clock w (reads + k)) m], S (reads + k))
  | Completed pageTitle pauseError =>
      let entry := resultEntry i (clock w (1 + k)) (detectAnomalies p)
                               (dataOf p (clock w k) pageTitle) in
      match pauseError with
      | None => ([entry], 2 + k)
      | Some m => ([entry; errorEntry i (clock w (2 + k)) m], 3 + k)
      end
  end.

Lemma check_pushed (w : World) (config : Config) (i : nat) (s : Run) :
  check w config i s
  = {| results := results s ++ fst (pushed w config i (ticks s));
       ticks := snd (pushed w config i (ticks s)) |}.
Proof.
  unfold pushed, attemptOf, check, checkSteps, tryCatch, bind, await.
  destruct s as [rs k]. cbn [results ticks].
  destruct (goto (page w i)) as [[]|m]; [|reflexivity].
  destruct (settle (page w i)) as [[]|m]; [|reflexivity].
  unfold extractDashboardData, bind, now, await. cbn [results ticks].
  destruct (title (page w i)) as [pageTitle|m]; [|reflexivity].
  unfold when.
  destruct (i <? checkCount config - 1); [|reflexivity].
  destruct (pause (page w i)) as [[]|m]; [reflexivity|].
  unfold checkFailed, record, modify, bind, now, ret. cbn [results ticks fst snd].
  now rewrite <- app_assoc.
Qed.

(** ** The loop as a whole *)

Lemma checksFrom_results (w : World) (config : Config) (n : nat) :
  forall i s, exists more,
    results (checksFrom w config i n s) = (results s ++ more)%list.
Proof.
  induction n as [|n IH]; intros i s; cbn [checksFrom].
  - exists []. now rewrite app_nil_r.
  - destruct (IH (S i) (check w config i s)) as (more & Hmore).
    rewrite Hmore, check_pushed. cbn [results].
    eexists. now rewrite <- app_assoc.
Qed.

(** An entry of the array: pushed by the [catch] block or by the [try]
    block of some check [i]. *)
Definition isCheckEntry (w : World) (config : Config) (e : json) : Prop :=
  exists i t,
    i < checkCount config
    /\ ((exists m, e = errorEntry i t m)
        \/ (exists td pageTitle,
               e = resultEntry i t (detectAnomalies (page w i))
                               (dataOf (page w i) td pageTitle))).

Lemma pushed_entries (w : World) (config : Config) (i k : nat) :
  i < checkCount config -> Forall (isCheckEntry w config) (fst (pushed w config i k)).
Proof.
  intros Hi. unfold pushed.
  destruct (attemptOf config i (page w i)) as [m reads | pageTitle [m|]]; cbn [fst];
    repeat constructor; unfold isCheckEntry; eauto 8.
Qed.

Lemma checksFrom_entries (w : World) (config : Config) (n : nat) :
  forall i s,
    i + n = checkCount config ->
    Forall (isCheckEntry w config) (results s) ->
    Forall (isCheckEntry w config) (results (checksFrom w config i n s)).
Proof.
  induction n as [|n IH]; intros i s Hin Hs; cbn [checksFrom]; [exact Hs|].
  apply IH; [lia|]. rewrite check_pushed. cbn [results].
  apply Forall_app. split; [exact Hs|]. apply pushed_entries. lia.
Qed.

Lemma monitorLoop_entries (w : World) (config : Config) :
  Forall (isCheckEntry w config) (monitorLoop w config).
Proof.
  unfold monitorLoop. apply checksFrom_entries; [reflexivity | constructor].
Qed.

(** What a check pushes is found in the array at the end. *)
Lemma checksFrom_keeps (w : World) (config : Config) (P : json -> Prop) (n : nat) :
  forall i0 s i,
    i0 <= i < i0 + n ->
    (forall k, exists e, In e (fst (pushed w config i k)) /\ P e) ->
    exists e, In e (results (checksFrom w config i0 n s)) /\ P e.
Proof.
  induction n as [|n IH]; intros i0 s i Hi Hpush; [lia|].
  cbn [checksFrom].
  destruct (Nat.eq_dec i0 i) as [-> | Hneq].
  - destruct (Hpush (ticks s)) as (e & He & HP).
    destruct (checksFrom_results w config n (S i) (check w config i s)) as (more & Hmore).
    exists e. split; [|exact HP].
    rewrite Hmore, check_pushed. cbn [results].
    apply in_or_app. left. apply in_or_app. now right.
  - apply (IH (S i0) _ i); [lia | exact Hpush].
Qed.

(** ** One entry per check, unless the wait between checks throws *)

Definition quietPauses (w : World) : Prop :=
  forall i, exists u, pause (page w i) = Returns u.

Lemma pushed_one (w : World) (config : Config) (i k : nat) :
  quietPauses w -> List.length (fst (pushed w config i k)) = 1.
Proof.
  intros Hq. unfold pushed, attemptOf.
  destruct (goto (page w i)); [|reflexivity].
  destruct (settle (page w i)); [|reflexivity].
  destruct (title (page w i)); [|reflexivity].
  destruct (Hq i) as (u & ->).
  destruct (i <? checkCount config - 1); reflexivity.
Qed.

Lemma checksFrom_length (w : World) (config : Config) (n : nat) :
  quietPauses w ->
  forall i s,
    List.length (results (checksFrom w config i n s)) = List.length (results s) + n.
Proof.
  intros Hq. induction n as [|n IH]; intros i s; cbn [checksFrom]; [lia|].
  rewrite IH, check_pushed. cbn [results].
  rewrite length_app, pushed_one by exact Hq. lia.
Qed.

Lemma pushed_one_or_two (w : World) (config : Config) (i k : nat) :
  1 <= List.length (fst (pushed w config i k)) <= 2.
Proof.
  unfold pushed.
  destruct (attemptOf config i (page w i)) as [m reads | pageTitle [m|]]; cbn; lia.
Qed.

(** In general every check pushes one entry or two. *)
Lemma checksFrom_length_bounds (w : World) (config : Config) (n : nat) :
  forall i s,
    List.length (results s) + n
    <= List.length (results (checksFrom w config i n s))
    <= List.length (results s) + 2 * n.
Proof.
  induction n as [|n IH]; intros i s; cbn [checksFrom]; [lia|].
  specialize (IH (S i) (check w config i s)).
  rewrite check_pushed in IH. cbn [results] in IH. rewrite length_app in IH.
  pose proof (pushed_one_or_two w config i (ticks s)).
  rewrite check_pushed. cbn [results]. lia.
Qed.

(** The times written in the entries, in the order of the array. *)
Definition timestamps (entries : list json) : list Z :=
  flat_map (fun e => match fieldOf "timestamp" e with
                     | Some (JTime t) => [t]
                     | _ => []
                     end) entries.

Lemma timestamps_app (a b : list json) :
  timestamps (a ++ b) = (timestamps a ++ timestamps b)%list.
Proof. apply flat_map_app. Qed.

(** The entries carry successive readings of the clock. *)
Definition readingsOf (w : World) (s : Run) : Prop :=
  exists js,
    timestamps (results s) = map (clock w) js
    /\ StronglySorted lt js
    /\ Forall (fun j => j < ticks s) js.

Lemma StronglySorted_snoc (js : list nat) (j : nat) :
  StronglySorted lt js -> Forall (fun x => x < j) js -> StronglySorted lt (js ++ [j]).
Proof.
  induction 1 as [|x js Hjs IH Hx]; intros Hlt; cbn.
  - repeat constructor.
  - inversion Hlt; subst. constructor; [now apply IH|].
    apply Forall_app. split; [exact Hx | now repeat constructor].
Qed.

Lemma readings_step (w : World) (config : Config) (i : nat) (s : Run) :
  readingsOf w s -> readingsOf w (check w config i s).
Proof.
  intros (js & Hts & Hsorted & Hbound).
  rewrite check_pushed. unfold readingsOf. cbn [results ticks].
  rewrite timestamps_app, Hts. unfold pushed.
  assert (Hweak : forall k', ticks s <= k' -> Forall (fun j => j < k') js).
  { intros k' Hk'. apply Forall_impl with (2 := Hbound). intros; lia. }
  destruct (attemptOf config i (page w i)) as [m reads | pageTitle [m|]]; cbn [fst snd].
  - exists (js ++ [reads + ticks s])%list. rewrite map_app. split; [reflexivity|]. split.
    + apply StronglySorted_snoc; [exact Hsorted | apply Hweak; lia].
    + apply Forall_app. split; [apply Hweak; lia | repeat constructor; lia].
  - exists ((js ++ [1 + ticks s]) ++ [2 + ticks s])%list.
    rewrite !map_app, <- app_assoc. split; [reflexivity|]. split.
    + apply StronglySorted_snoc.
      * apply StronglySorted_snoc; [exact Hsorted | apply Hweak; lia].
      * apply Forall_app. split; [apply Hweak; lia | repeat constructor; lia].
    + apply Forall_app. split.
      * apply Forall_app. split; [apply Hweak; lia | repeat constructor; lia].
      * repeat constructor; lia.
  - exists (js ++ [1 + ticks s])%list. rewrite map_app. split; [reflexivity|]. split.
    + apply StronglySorted_snoc; [exact Hsorted | apply Hweak; lia].
    + apply Forall_app. split; [apply Hweak; lia | repeat constructor; lia].
Qed.

Lemma readings_loop (w : World) (config : Config) (n : nat) :
  forall i s, readingsOf w s -> readingsOf w (checksFrom w config i n s).
Proof.
  induction n as [|n IH]; intros i s Hs; cbn [checksFrom]; [exact Hs|].
  apply IH. now apply readings_step.
Qed.

Lemma sorted_readings (w : World) (js : list nat) :
  (forall a b, a <= b -> (clock w a <= clock w b)%Z) ->
  StronglySorted lt js -> StronglySorted Z.le (map (clock w) js).
Proof.
  intros Hmono. induction 1 as [|j js Hjs IH Hj]; cbn [map]; constructor; [exact IH|].
  apply Forall_map. apply Forall_impl with (2 := Hj).
  intros x Hx. apply Hmono. lia.
Qed.

Definition statusIn (e : json) : Prop :=
  fieldOf "status" e = Some (JStr "healthy")
  \/ fieldOf "status" e = Some (JStr "issues_detected")
  \/ fieldOf "status" e = Some (JStr "error").

Lemma entry_status (w : World) (config : Config) (e : json) :
  isCheckEntry w config e -> statusIn e.
Proof.
  intros (i & t & _ & [(m & ->) | (td & pageTitle & ->)]); unfold statusIn.
  - right. right. reflexivity.
  - cbn. unfold statusOf. destruct (List.length _ =? 0); auto.
Qed.

(** When no wait between two checks throws and the clock does not go back,
    [checks = K] gives exactly [K] entries, with times that do not decrease
    and a status among the three. *)
Lemma monitor_with_quiet_pauses (w : World) (config : Config) :
  quietPauses w ->
  (forall a b, a <= b -> (clock w a <= clock w b)%Z) ->
  List.length (monitorLoop w config) = checkCount config
  /\ StronglySorted Z.le (timestamps (monitorLoop w config))
  /\ Forall statusIn (monitorLoop w config).
Proof.
  intros Hq Hmono. split; [|split].
  - unfold monitorLoop. now rewrite checksFrom_length.
  - assert (Hr : readingsOf w (checksFrom w config 0 (checkCount config)
                                          {| results := []; ticks := 0 |})).
    { apply readings_loop. exists []. repeat constructor. }
    destruct Hr as (js & Hts & Hsorted & _).
    unfold monitorLoop. rewrite Hts. now apply sorted_readings.
  - apply Forall_impl with (2 := monitorLoop_entries w config).
    apply entry_status.
Qed.

(** A check that is not the last, whose result is pushed and whose wait
    before the next check throws, leaves two entries with its number. *)
Lemma pause_error_pushes_twice
      (w : World) (config : Config) (i : nat) (s : Run) (pageTitle m : string) :
  i < checkCount config - 1 ->
  goto (page w i) = Returns tt ->
  settle (page w i) = Returns tt ->
  title (page w i) = Returns pageTitle ->
  pause (page w i) = Throws m ->
  exists t1 t2 data,
    results (check w config i s)
    = (results s ++ [resultEntry i t1 (detectAnomalies (page w i)) data;
                     errorEntry i t2 m])%list.
Proof.
  intros Hi Hgoto Hsettle Htitle Hpause.
  rewrite check_pushed. cbn [results]. unfold pushed, attemptOf.
  rewrite Hgoto, Hsettle, Htitle, Hpause.
  apply Nat.ltb_lt in Hi. rewrite Hi. cbn [fst]. eauto.
Qed.

(** A page with nothing wrong on it; the wait after the check ends as given. *)
Definition quietPage (afterCheck : outcome unit) : Page :=
  {| goto := Returns tt;
     settle := Returns tt;
     query := fun _ => Returns [];
     title := Returns "Dashboard";
     url := "https://example.test/report";
     pause := afterCheck |}.

(** A page that is closed: every call throws. *)
Definition closedPage : Page :=
  {| goto := Throws "Target closed";
     settle := Throws "Target closed";
     query := fun _ => Throws "Target closed";
     title := Throws "Target closed";
     url := "https://example.test/report";
     pause := Throws "Target closed" |}.

(** The page is closed while the script waits after the first check. *)
Definition closedWhileWaiting : World :=
  {| launch := Returns tt;
     page := fun i => match i with
                      | O => quietPage (Throws "Target closed")
                      | S _ => closedPage
                      end;
     clock := fun k => (1000 * Z.of_nat k)%Z;
     save := Returns tt |}.

Definition twoChecks : Config := {| interval := 300; checkCount := 2 |}.

(** C1 (defect). With [checks = 2] and a page closed during the wait after
    the first check, the array has three entries: the result of check 1 is
    already pushed when the wait throws, and the [catch] block pushes an
    error entry for check 1 as well. *)
Theorem monitor_pause_error_adds_entry :
  option_map (map (fun e => (fieldOf "check" e, fieldOf "status" e)))
             (monitorDashboard closedWhileWaiting twoChecks)
  = Some [(Some (JNum 1), Some (JStr "healthy"));
          (Some (JNum 1), Some (JStr "error"));
          (Some (JNum 2), Some (JStr "error"))].
Proof. reflexivity. Qed.

(** ** Status and anomalies of a completed check *)

Lemma statusOf_healthy (anomalies : list json) :
  statusOf anomalies = "healthy" <-> anomalies = [].
Proof.
  unfold statusOf. destruct anomalies; cbn; split; congruence.
Qed.

Lemma statusOf_issues (anomalies : list json) :
  statusOf anomalies = "issues_detected" <-> anomalies <> [].
Proof.
  unfold statusOf. destruct anomalies; cbn; split; congruence.
Qed.

(** C3. A check whose navigation, settle delay and page title do not throw
    pushes an entry whose [anomalies] are those [detectAnomalies] returned,
    whose [anomalyCount] is their number, and whose status is [healthy]
    exactly when there is none and [issues_detected] otherwise. *)
Theorem check_status_reflects_anomalies
        (w : World) (config : Config) (i : nat) (pageTitle : string) :
  i < checkCount config ->
  goto (page w i) = Returns tt ->
  settle (page w i) = Returns tt ->
  title (page w i) = Returns pageTitle ->
  exists entry,
    In entry (monitorLoop w config)
    /\ fieldOf "check" entry = Some (JNum (i + 1))
    /\ fieldOf "anomalies" entry = Some (JArr (detectAnomalies (page w i)))
    /\ fieldOf "anomalyCount" entry
       = Some (JNum (List.length (detectAnomalies (page w i))))
    /\ (fieldOf "status" entry = Some (JStr "healthy")
        <-> detectAnomalies (page w i) = [])
    /\ (fieldOf "status" entry = Some (JStr "issues_detected")
        <-> detectAnomalies (page w i) <> []).
Proof.
  intros Hi Hgoto Hsettle Htitle.
  destruct (checksFrom_keeps w config
              (fun e => exists t td,
                   e = resultEntry i t (detectAnomalies (page w i))
                                   (dataOf (page w i) td pageTitle))
              (checkCount config) 0 {| results := []; ticks := 0 |} i)
    as (entry & Hin & t & td & ->).
  - lia.
  - intros k. unfold pushed, attemptOf. rewrite Hgoto, Hsettle, Htitle.
    destruct (if i <? checkCount config - 1
              then match pause (page w i) with
                   | Returns _ => None
                   | Throws m => Some m
                   end
              else None); (eexists; split; [left; reflexivity | eauto]).
  - exists (resultEntry i t (detectAnomalies (page w i)) (dataOf (page w i) td pageTitle)).
    split; [exact Hin|]. cbn [resultEntry fieldOf field String.eqb Ascii.eqb Bool.eqb].
    repeat split; try reflexivity.
    + intros [= H]. now apply statusOf_healthy.
    + intros H. apply statusOf_healthy in H. now rewrite H.
    + intros [= H]. now apply statusOf_issues.
    + intros H. apply statusOf_issues in H. now rewrite H.
Qed.

(** A dashboard that shows one error banner. *)
Definition banner : Element :=
  {| textContent := Returns (Some " Data source unavailable ");
     getAttribute := fun _ => Returns None;
     countRows := Returns 0;
     cellTexts := Returns [];
     boundingBox := Returns None |}.

Definition brokenPage : Page :=
  {| goto := Returns tt;
     settle := Returns tt;
     query := fun selector =>
                if String.eqb selector ".error-message" then Returns [banner]
                else Returns [];
     title := Returns "Dashboard";
     url := "https://example.test/report";
     pause := Returns tt |}.

Definition brokenWorld : World :=
  {| launch := Returns tt;
     page := fun _ => brokenPage;
     clock := fun k => (1000 * Z.of_nat k)%Z;
     save := Returns tt |}.

Definition oneCheck : Config := {| interval := 300; checkCount := 1 |}.

Lemma check_status_reflects_anomalies_witness :
  exists entry,
    In entry (monitorLoop brokenWorld oneCheck)
    /\ fieldOf "check" entry = Some (JNum 1)
    /\ fieldOf "anomalies" entry = Some (JArr (detectAnomalies brokenPage))
    /\ fieldOf "anomalyCount" entry = Some (JNum 1)
    /\ (fieldOf "status" entry = Some (JStr "healthy")
        <-> detectAnomalies brokenPage = [])
    /\ (fieldOf "status" entry = Some (JStr "issues_detected")
        <-> detectAnomalies brokenPage <> []).
Proof.
  apply (check_status_reflects_anomalies brokenWorld oneCheck 0 "Dashboard").
  - unfold oneCheck. cbn. lia.
  - reflexivity.
  - reflexivity.
  - reflexivity.
Defined.

(** ** The fields of an entry *)

Definition hasField (key : string) (e : json) : Prop := fieldOf key e <> None.

(** The record shape as the specification words it: every entry has the six
    fields. *)
Definition everyEntryComplete : Prop :=
  forall (w : World) (config : Config) (e : json),
    In e (monitorLoop w config) ->
    hasField "check" e /\ hasField "timestamp" e /\ hasField "status" e
    /\ hasField "anomalyCount" e /\ hasField "anomalies" e /\ hasField "data" e.

(** The browser starts but the page cannot be opened. *)
Definition unreachable : World :=
  {| launch := Returns tt;
     page := fun _ => closedPage;
     clock := fun k => (1000 * Z.of_nat k)%Z;
     save := Returns tt |}.

(** The entry pushed by the [catch] block has no [anomalyCount]. *)
Lemma error_entry_counterexample : ~ everyEntryComplete.
Proof.
  intros Hall.
  destruct (Hall unreachable oneCheck (errorEntry 0 0 "Target closed"))
    as (_ & _ & _ & Hcount & _).
  - left. reflexivity.
  - apply Hcount. reflexivity.
Qed.

(** C4, amended. Every entry has [check], [timestamp] and [status].  An
    entry pushed by the [try] block has the status [healthy] or
    [issues_detected] and carries [anomalyCount], [anomalies] and [data]
    (with [metrics], [tables] and [charts]); an entry pushed by the [catch]
    block has the status [error], carries the message in [error] and has
    none of [anomalyCount], [anomalies] and [data]. *)
Theorem entry_shapes (w : World) (config : Config) (e : json) :
  In e (monitorLoop w config) ->
  (exists n, fieldOf "check" e = Some (JNum n) /\ 1 <= n <= checkCount config)
  /\ (exists t, fieldOf "timestamp" e = Some (JTime t))
  /\ ((fieldOf "status" e = Some (JStr "error")
       /\ (exists m, fieldOf "error" e = Some (JStr m))
       /\ fieldOf "anomalyCount" e = None
       /\ fieldOf "anomalies" e = None
       /\ fieldOf "data" e = None)
      \/ ((fieldOf "status" e = Some (JStr "healthy")
           \/ fieldOf "status" e = Some (JStr "issues_detected"))
          /\ fieldOf "error" e = None
          /\ exists items fields,
               fieldOf "anomalies" e = Some (JArr items)
               /\ fieldOf "anomalyCount" e = Some (JNum (List.length items))
               /\ fieldOf "data" e = Some (JObj fields)
               /\ (exists l, field "metrics" fields = Some (JArr l))
               /\ (exists l, field "tables" fields = Some (JArr l))
               /\ (exists l, field "charts" fields = Some (JArr l)))).
Proof.
  intros Hin.
  pose proof (monitorLoop_entries w config) as Hall.
  rewrite Forall_forall in Hall.
  destruct (Hall e Hin) as (i & t & Hi & [(m & ->) | (td & pageTitle & ->)]).
  - split; [exists (i + 1); split; [reflexivity | lia]|].
    split; [exists t; reflexivity|].
    left. cbn. repeat split; try reflexivity. now exists m.
  - split; [exists (i + 1); split; [reflexivity | lia]|].
    split; [exists t; reflexivity|].
    right. split.
    + cbn. unfold statusOf. destruct (List.length _ =? 0); auto.
    + split; [reflexivity|].
      eexists. eexists. split; [reflexivity|]. split; [reflexivity|].
      split; [reflexivity|].
      cbn. repeat split; eexists; reflexivity.
Qed.

Lemma entry_shapes_witness :
  fieldOf "status" (errorEntry 0 0 "Target closed") = Some (JStr "error")
  \/ fieldOf "status" (errorEntry 0 0 "Target closed") = Some (JStr "healthy")
  \/ fieldOf "status" (errorEntry 0 0 "Target closed") = Some (JStr "issues_detected").
Proof.
  destruct (entry_shapes unreachable oneCheck (errorEntry 0 0 "Target closed")
                         (or_introl eq_refl))
    as (_ & _ & [(H & _) | ([H | H] & _)]); auto.
Defined.

(** ** Errors during a check *)











End Checks.

(* ===================================================================== *)
(** * More on column names *)
(* ===================================================================== *)

Module ColumnNames.
Import JS Excel ColumnLetters.

Lemma upper_code (c : ascii) :
  isUpperCode (nat_of_ascii c) = true ->
  exists v, 1 <= v <= 26 /\ nat_of_ascii c = 64 + v /\ c = ascii_of_nat (64 + v).
Proof.
  unfold isUpperCode. intros H. apply andb_true_iff in H as [Hlo Hhi].
  apply Nat.leb_le in Hlo, Hhi.
  exists (nat_of_ascii c - 64). split; [lia|]. split; [lia|].
  replace (64 + (nat_of_ascii c - 64)) with (nat_of_ascii c) by lia.
  now rewrite ascii_nat_embedding.
Qed.

Lemma loop_letters (s : string) :
  allUpper s = true ->
  forall acc letter,
    getColumnLetter_loop (columnNumberFrom acc s) letter
    = getColumnLetter_loop acc (s ++ letter).
Proof.
  induction s as [|c s IH]; intros Hup acc letter; cbn [columnNumberFrom append].
  - reflexivity.
  - cbn [allUpper] in Hup. apply andb_true_iff in Hup as [Hc Hs].
    rewrite (IH Hs).
    destruct (upper_code c Hc) as (v & Hv & Hcode & Hchar).
    rewrite Hcode. replace (64 + v - 64) with v by lia.
    rewrite (loop_unfold (26 * acc + v)) by lia.
    pose proof (column_step (26 * acc + v) ltac:(lia)) as Hstep.
    pose proof (modulo26_lt (26 * acc + v)) as Hm.
    assert (Hnext : nextColNumber (26 * acc + v) = acc) by lia.
    assert (Hmod : modulo26 (26 * acc + v) = v - 1) by lia.
    rewrite Hnext, Hmod.
    replace (65 + (v - 1)) with (64 + v) by lia.
    now rewrite <- Hchar.
Qed.

(** X1. Every string of letters A to Z is the name [getColumnLetter] gives
    to the column it stands for in bijective base 26; with the converse
    (the name of column [n] stands for [n]) the names of the columns are
    exactly the strings of letters, one for each column. *)
Theorem getColumnLetter_of_letters (s : string) :
  allUpper s = true ->
  getColumnLetter (columnNumber s) = s
  /\ (s <> EmptyString -> 1 <= columnNumber s).
Proof.
  intros Hup. split.
  - unfold getColumnLetter, columnNumber.
    rewrite (loop_letters s Hup 0 EmptyString).
    simp getColumnLetter_loop.
    clear. induction s as [|c s IH]; cbn; [reflexivity | now rewrite IH].
  - intros Hne. destruct (Nat.eq_dec (columnNumber s) 0) as [H0 | H0]; [|lia].
    exfalso. apply Hne.
    assert (H : getColumnLetter (columnNumber s) = s).
    { unfold getColumnLetter, columnNumber.
      rewrite (loop_letters s Hup 0 EmptyString).
      simp getColumnLetter_loop.
      clear. induction s as [|c s IH]; cbn; [reflexivity | now rewrite IH]. }
    rewrite H0 in H. now rewrite <- H.
Qed.

Lemma getColumnLetter_of_letters_witness :
  getColumnLetter (columnNumber "XFD") = "XFD" /\ columnNumber "XFD" = N.to_nat 16384.
Proof.
  split.
  - apply (getColumnLetter_of_letters "XFD"). reflexivity.
  - vm_compute. reflexivity.
Defined.

End ColumnNames.

(* ===================================================================== *)
(** * What the compare action leaves out *)
(* ===================================================================== *)

Module CompareScope.
Import JS Excel Addresses Compare CompareCopies.

(** X2. Differences below row 100 are not reported: two sheets whose cells
    are equal in rows 1 to 100 get an empty [cellDifferences], whatever
    the later rows hold. *)
Theorem differences_beyond_row_100_unreported (sheet1 sheet2 : Worksheet) :
  (forall row col, 1 <= row <= 100 -> 1 <= col ->
     strictEquals (getCell sheet1 row col) (getCell sheet2 row col) = true) ->
  cellDifferences (compareSheets sheet1 sheet2) = [].
Proof.
  intros Hsame. cbn [compareSheets cellDifferences].
  apply flat_map_nil. intros [row col] Hin.
  apply comparedCells_In in Hin as [Hrow Hcol]. unfold maxRow in Hrow.
  unfold compareCell. rewrite Hsame by lia. reflexivity.
Qed.

(** A sheet of 101 rows of one cell: the first hundred hold [same], the
    last one [last]. *)
Definition tallSheet (last : string) : Worksheet :=
  {| name := "Data";
     rows := repeat [Prim (PStr "same")] 100 ++ [[Prim (PStr last)]] |}.

Lemma tallSheet_top (last : string) (row col : nat) :
  1 <= row <= 100 ->
  getCell (tallSheet last) row col = nth (col - 1) [Prim (PStr "same")] (Prim PNull).
Proof.
  intros Hrow. unfold getCell, tallSheet. cbn [rows].
  rewrite app_nth1 by (rewrite repeat_length; lia).
  rewrite nth_repeat_lt by lia. reflexivity.
Qed.

Lemma differences_beyond_row_100_unreported_witness :
  cellDifferences (compareSheets (tallSheet "old") (tallSheet "new")) = []
  /\ strictEquals (getCell (tallSheet "old") 101 1) (getCell (tallSheet "new") 101 1) = false.
Proof.
  split.
  - apply (differences_beyond_row_100_unreported (tallSheet "old") (tallSheet "new")).
    intros row col Hrow _. rewrite !tallSheet_top by exact Hrow.
    destruct (col - 1) as [|[|k]]; reflexivity.
  - reflexivity.
Defined.

Lemma readFile_names (file : File) :
  forall heap, map name (fst (readFile heap file)) = map fileName file.
Proof.
  induction file as [|fs file IH]; intros heap; cbn [readFile]; [reflexivity|].
  destruct (loadRows heap (fileRows fs)) as [rs heap1].
  specialize (IH heap1). destruct (readFile heap1 file) as [sheets' heap2].
  cbn [fst map name] in *. now rewrite IH.
Qed.

Lemma getWorksheet_found (workbook : Workbook) (wanted : string) :
  match getWorksheet workbook wanted with
  | Some sheet => name sheet = wanted /\ existsb (String.eqb wanted) (map name workbook) = true
  | None => existsb (String.eqb wanted) (map name workbook) = false
  end.
Proof.
  unfold getWorksheet. induction workbook as [|s ss IH]; cbn [find map existsb]; [reflexivity|].
  rewrite (String.eqb_sym wanted).
  destruct (String.eqb (name s) wanted) eqn:E; cbn [orb].
  - apply String.eqb_eq in E. auto.
  - exact IH.
Qed.

Lemma compared_names (workbook1 workbook2 : Workbook) :
  map sheetName (sheets (compareWorkbooks workbook1 workbook2))
  = filter (fun n => existsb (String.eqb n) (map name workbook2)) (map name workbook1).
Proof.
  cbn [compareWorkbooks sheets].
  induction workbook1 as [|s ss IH]; cbn [map catOptions filter]; [reflexivity|].
  pose proof (getWorksheet_found workbook2 (name s)) as H.
  destruct (getWorksheet workbook2 (name s)) as [s2|].
  - destruct H as [_ H]. rewrite H. cbn [catOptions map compareSheets sheetName].
    now rewrite IH.
  - rewrite H. exact IH.
Qed.

(** X3. The report of the compare action has one entry for each sheet of
    the first file whose name is also the name of a sheet of the second
    file, in the order of the first file; a sheet found in one file only
    is left out without a word, and only [sheetCount] tells the numbers of
    sheets apart. *)
Theorem compare_reports_common_sheets (input second : File) (report : Differences) :
  compareFiles input (Some second) = Some report ->
  map sheetName (sheets report)
  = filter (fun n => existsb (String.eqb n) (map fileName second)) (map fileName input)
  /\ sheetCount report = (List.length input, List.length second).
Proof.
  unfold compareFiles.
  pose proof (readFile_names input 0) as Hn1.
  destruct (readFile 0 input) as [workbook1 heap].
  pose proof (readFile_names second heap) as Hn2.
  destruct (readFile heap second) as [workbook2 heap'].
  cbn [fst] in Hn1, Hn2. intros [= <-]. split.
  - now rewrite compared_names, Hn1, Hn2.
  - cbn [compareWorkbooks sheetCount].
    now rewrite <- (length_map name workbook1), <- (length_map name workbook2),
      Hn1, Hn2, !length_map.
Qed.

Definition sheetNamed (n : string) : FileSheet :=
  {| fileName := n; fileRows := [[num 1]] |}.

Lemma compare_reports_common_sheets_witness :
  exists report,
    compareFiles [sheetNamed "Jan"; sheetNamed "Feb"; sheetNamed "Mar"]
                 (Some [sheetNamed "Mar"; sheetNamed "Apr"; sheetNamed "Jan"]) = Some report
    /\ map sheetName (sheets report) = ["Jan"; "Mar"]
    /\ sheetCount report = (3, 3).
Proof.
  eexists. split; [reflexivity|].
  apply (compare_reports_common_sheets
           [sheetNamed "Jan"; sheetNamed "Feb"; sheetNamed "Mar"]
           [sheetNamed "Mar"; sheetNamed "Apr"; sheetNamed "Jan"]).
  reflexivity.
Defined.

End CompareScope.

(* ===================================================================== *)
(** * The report of the analyze action *)
(* ===================================================================== *)

Module AnalyzeReport.
Import JS Excel Analyze.

Open Scope Q_scope.

Lemma setOf_grows (xs : list value) :
  forall seen, (List.length seen <= List.length (setOf xs seen))%nat.
Proof.
  induction xs as [|x xs IH]; intros seen; cbn [setOf]; [lia|].
  destruct (existsb (sameValueZero x) seen); [apply IH|].
  specialize (IH (seen ++ [x])%list). rewrite length_app in IH. cbn in IH. lia.
Qed.

Lemma columnData_short (sheet : Worksheet) (col : nat) :
  (List.length (columnData sheet col) <= rowCount sheet - 1)%nat.
Proof.
  unfold columnData.
  etransitivity; [apply filter_length_le|].
  now rewrite length_map, length_seq.
Qed.

Lemma numbersOf_short (data : list value) :
  (List.length (numbersOf data) <= List.length data)%nat.
Proof.
  induction data as [|[[|x|s|b]|r f p|r] data IH]; cbn [numbersOf List.length]; lia.
Qed.

Lemma numbersOf_first (first : value) (rest : list value) :
  typeof first = "number" -> numbersOf (first :: rest) <> [].
Proof.
  destruct first as [[|x|s|b]|r f p|r]; cbn; discriminate.
Qed.

(** The columns that get a record: those with a value below the header. *)
Definition hasData (sheet : Worksheet) (col : nat) : bool :=
  match columnData sheet col with
  | [] => false
  | _ :: _ => true
  end.

Lemma report_columns (sheet : Worksheet) (cols : list nat) :
  map column (catOptions (map (analyzeColumn sheet) cols))
  = map colLetter (filter (hasData sheet) cols).
Proof.
  induction cols as [|col cols IH]; cbn [map catOptions filter]; [reflexivity|].
  unfold analyzeColumn at 1, hasData at 1.
  destruct (columnData sheet col) as [|first rest]; [exact IH|].
  cbn [catOptions map column]. now rewrite IH.
Qed.

(** X4. The report of the analyze action has one record for each column,
    from 1 to [columnCount], that holds a value below the header row, in
    the order of the columns; a column that is empty below its header gets
    none.  In every record [1 <= unique <= count <= rowCount - 1], and
    [min], [max], [avg] and [sum] are all present when [type] is [number]
    and all absent otherwise. *)
Theorem analyze_report_records
        (params : Params) (input : File) (sheet : Worksheet) (report : list ColStats) :
  selectSheet params (fst (readFile 0 input)) = Some sheet ->
  analyzeData params input = Some report ->
  map column report
  = map colLetter (filter (hasData sheet) (seq 1 (columnCount sheet)))
  /\ Forall (fun stats =>
               (1 <= unique stats)%nat
               /\ (unique stats <= count stats)%nat
               /\ (count stats <= rowCount sheet - 1)%nat
               /\ ((type stats = "number"
                    /\ min stats <> None /\ max stats <> None
                    /\ avg stats <> None /\ sum stats <> None)
                   \/ (type stats <> "number"
                       /\ min stats = None /\ max stats = None
                       /\ avg stats = None /\ sum stats = None)))
            report.
Proof.
  unfold analyzeData. destruct (readFile 0 input) as [workbook heap]. cbn [fst].
  intros -> [= <-]. split; [apply report_columns|].
  apply Forall_forall. intros stats Hin.
  apply Compare.catOptions_In in Hin as (col & _ & Hcol).
  unfold analyzeColumn in Hcol.
  pose proof (columnData_short sheet col) as Hshort.
  pose proof (setSize_le (columnData sheet col)) as Hset.
  destruct (columnData sheet col) as [|first rest] eqn:Hdata; [discriminate|].
  injection Hcol as <-. cbn [unique count type min max avg sum].
  split.
  { unfold setSize. cbn [setOf existsb].
    pose proof (setOf_grows rest ([] ++ [first])%list) as H. cbn in H. exact H. }
  split; [exact Hset|]. split; [exact Hshort|].
  destruct (String.eqb (typeof first) "number") eqn:Etype.
  - apply String.eqb_eq in Etype. left.
    destruct first as [[|x|s|b]|r f p|r]; try discriminate Etype.
    cbn [List.length Nat.eqb negb andb]. repeat split; discriminate.
  - apply String.eqb_neq in Etype. right. cbn [andb]. auto.
Qed.

(** A sheet with a numeric column, an empty column and a column of text. *)
Definition threeColumns : File :=
  [{| fileName := "Data";
      fileRows := [[FPrim (PStr "qty"); FPrim (PStr "unused"); FPrim (PStr "city")];
                   [FPrim (PNum (Finite 3)); FPrim PNull; FPrim (PStr "Oslo")];
                   [FPrim (PNum (Finite 3)); FPrim PNull; FPrim (PStr "Rome")]] |}].

Definition firstSheet : Params := {| sheet := None; range := None |}.

Lemma analyze_report_records_witness :
  exists report,
    analyzeData firstSheet threeColumns = Some report
    /\ map column report = [[65%nat]; [67%nat]]
    /\ map unique report = [1%nat; 2%nat].
Proof.
  eexists. split; [reflexivity|]. split; [|reflexivity].
  refine (proj1 (analyze_report_records firstSheet threeColumns _ _ eq_refl eq_refl)).
Defined.

(** ** Columns of integers

    The numbers of the code are binary64 values.  [Math.min] and
    [Math.max] return one of their arguments and never round.  A sum of
    integers whose absolute values add up to at most 2^53 is made of
    partial sums that are integers of at most that size, so every addition
    of [reduce] is exact; and a quotient of two such integers that is an
    integer is exact as well.  On such columns the exact numbers of this
    model are the numbers the code computes. *)

Definition integerCell (z : Z) : number := Finite (inject_Z z).

(** The sum of the values, and the sum of their absolute values. *)
Definition totalOf (zs : list Z) : Z := fold_right Z.add 0%Z zs.

Definition weightOf (zs : list Z) : Z := fold_right (fun z acc => (Z.abs z + acc)%Z) 0%Z zs.

Lemma numLt_integer (a b : Z) :
  numLt (integerCell a) (integerCell b) = (a <? b)%Z.
Proof.
  unfold integerCell. cbn [numLt]. unfold Qle_bool. cbn [inject_Z Qnum Qden].
  rewrite !Z.mul_1_r. now rewrite Z.ltb_antisym.
Qed.

Lemma fold_min_integer (zs : list Z) :
  forall a, exists m,
    fold_left numMin2 (map integerCell zs) (integerCell a) = integerCell m
    /\ In m (a :: zs) /\ (m <= a)%Z /\ Forall (fun z => (m <= z)%Z) zs.
Proof.
  induction zs as [|z zs IH]; intros a; cbn [map fold_left].
  - exists a. repeat split; [now left | lia | constructor].
  - assert (Hstep : numMin2 (integerCell a) (integerCell z)
                    = integerCell (if (z <? a)%Z then z else a)).
    { unfold numMin2. change (integerCell a) with (Finite (inject_Z a)) at 1.
      change (integerCell z) with (Finite (inject_Z z)) at 1.
      cbv beta iota. fold (integerCell a) (integerCell z).
      rewrite numLt_integer. now destruct (z <? a)%Z. }
    rewrite Hstep. destruct (z <? a)%Z eqn:E.
    + apply Z.ltb_lt in E. destruct (IH z) as (m & Hm & Hin & Hle & Hall).
      exists m. split; [exact Hm|]. split; [now right|]. split; [lia|].
      constructor; assumption.
    + apply Z.ltb_ge in E. destruct (IH a) as (m & Hm & Hin & Hle & Hall).
      exists m. split; [exact Hm|]. split.
      { destruct Hin as [Ha | Hzs]; [now left | right; now right]. }
      split; [exact Hle|]. constructor; [lia | assumption].
Qed.

Lemma fold_max_integer (zs : list Z) :
  forall a, exists m,
    fold_left numMax2 (map integerCell zs) (integerCell a) = integerCell m
    /\ In m (a :: zs) /\ (a <= m)%Z /\ Forall (fun z => (z <= m)%Z) zs.
Proof.
  induction zs as [|z zs IH]; intros a; cbn [map fold_left].
  - exists a. repeat split; [now left | lia | constructor].
  - assert (Hstep : numMax2 (integerCell a) (integerCell z)
                    = integerCell (if (a <? z)%Z then z else a)).
    { unfold numMax2. change (integerCell a) with (Finite (inject_Z a)) at 1.
      change (integerCell z) with (Finite (inject_Z z)) at 1.
      cbv beta iota. fold (integerCell a) (integerCell z).
      rewrite numLt_integer. now destruct (a <? z)%Z. }
    rewrite Hstep. destruct (a <? z)%Z eqn:E.
    + apply Z.ltb_lt in E. destruct (IH z) as (m & Hm & Hin & Hle & Hall).
      exists m. split; [exact Hm|]. split; [now right|]. split; [lia|].
      constructor; assumption.
    + apply Z.ltb_ge in E. destruct (IH a) as (m & Hm & Hin & Hle & Hall).
      exists m. split; [exact Hm|]. split.
      { destruct Hin as [Ha | Hzs]; [now left | right; now right]. }
      split; [exact Hle|]. constructor; [lia | assumption].
Qed.

Lemma fold_add_integer (zs : list Z) :
  forall a, fold_left Qplus (map inject_Z zs) a == a + inject_Z (totalOf zs).
Proof.
  induction zs as [|z zs IH]; intros a; cbn [map fold_left totalOf fold_right].
  - change (inject_Z 0) with 0. ring.
  - rewrite IH. fold (totalOf zs). rewrite inject_Z_plus. ring.
Qed.

(** X5. In a column whose first non-empty cell is a number, the statistics
    are taken over the numeric cells only while [count] counts every
    non-empty cell.  When the numeric cells are integers whose absolute
    values add up to at most 2^53, where the additions of the code are
    exact: [min] and [max] are the least and the greatest of them, [sum]
    is their sum, [avg] is the quotient of that sum by their number [k]
    whenever [k] divides it, and [1 <= k <= count]. *)
Theorem analyze_counts_text_cells
        (sheet : Worksheet) (col : nat) (stats : ColStats) (zs : list Z) :
  analyzeColumn sheet col = Some stats ->
  type stats = "number" ->
  numbersOf (columnData sheet col) = map integerCell zs ->
  (weightOf zs <= 9007199254740992)%Z ->
  exists lo hi total,
    min stats = Some (integerCell lo)
    /\ max stats = Some (integerCell hi)
    /\ In lo zs /\ In hi zs
    /\ Forall (fun z => (lo <= z <= hi)%Z) zs
    /\ sum stats = Some (Finite total)
    /\ total == inject_Z (totalOf zs)
    /\ ((Z.of_nat (List.length zs) | totalOf zs)%Z ->
        exists mean,
          avg stats = Some (Finite mean)
          /\ mean == inject_Z (totalOf zs / Z.of_nat (List.length zs)))
    /\ (1 <= List.length zs <= count stats)%nat.
Proof.
  intros Hstats Htype Hnumbers _. unfold analyzeColumn in Hstats.
  pose proof (numbersOf_short (columnData sheet col)) as Hshort.
  destruct (columnData sheet col) as [|first rest] eqn:Hdata; [discriminate|].
  rewrite Hnumbers, !length_map in Hstats.
  injection Hstats as <-. cbn [type] in Htype. cbn [min max avg sum count].
  pose proof (numbersOf_first first rest Htype) as Hne.
  rewrite Hnumbers in *. rewrite length_map in *.
  destruct zs as [|z zs]; [cbn in Hne; congruence|].
  rewrite Htype, String.eqb_refl. cbn [List.length Nat.eqb negb andb].
  destruct (fold_min_integer zs z) as (lo & Hlo & Hloin & Hloz & Hloall).
  destruct (fold_max_integer zs z) as (hi & Hhi & Hhiin & Hhiz & Hhiall).
  set (k := Z.of_nat (S (List.length zs))).
  assert (Hk : ~ inject_Z k == 0).
  { unfold k. rewrite Nat2Z.inj_succ. intros H. unfold Qeq in H. cbn in H. lia. }
  assert (Hsum : sumOf (map integerCell (z :: zs))
                 = Finite (fold_left Qplus (map inject_Z (z :: zs)) 0)).
  { unfold sumOf. rewrite <- fold_add_finite. now rewrite map_map. }
  assert (Htotal : fold_left Qplus (map inject_Z (z :: zs)) 0
                   == inject_Z (totalOf (z :: zs))).
  { rewrite fold_add_integer. ring. }
  exists lo, hi, (fold_left Qplus (map inject_Z (z :: zs)) 0).
  split. { f_equal. unfold Math_min. cbn [map fold_left]. exact Hlo. }
  split. { f_equal. unfold Math_max. cbn [map fold_left]. exact Hhi. }
  split; [exact Hloin|]. split; [exact Hhiin|].
  split.
  { constructor; [lia|].
    rewrite Forall_forall in *. intros x Hx. split; auto. }
  split; [now rewrite Hsum|]. split; [exact Htotal|]. split.
  - intros (m & Hm). fold k in Hm |- *.
    exists (fold_left Qplus (map inject_Z (z :: zs)) 0 / inject_Z k). split.
    + f_equal. rewrite Hsum. cbn [numDiv].
      destruct (Qeq_bool (inject_Z k) 0) eqn:E;
        [apply Qeq_bool_iff in E; contradiction | reflexivity].
    + rewrite Htotal, Hm.
      assert (Hk' : k <> 0%Z) by (unfold k; lia).
      rewrite Z.div_mul by exact Hk'. rewrite inject_Z_mult. now field.
  - cbn [List.length] in *. lia.
Qed.

(** A column with the values 3, [n/a] and 5 under its header. *)
Definition mixedColumn : Worksheet :=
  {| name := "Sheet1";
     rows := [[Prim (PStr "qty")]; [numericCell 3]; [Prim (PStr "n/a")]; [numericCell 5]] |}.

Lemma analyze_counts_text_cells_witness :
  exists stats lo hi total,
    analyzeColumn mixedColumn 1 = Some stats
    /\ count stats = 3%nat
    /\ min stats = Some (integerCell lo)
    /\ max stats = Some (integerCell hi)
    /\ In lo [3; 5]%Z /\ In hi [3; 5]%Z
    /\ Forall (fun z => (lo <= z <= hi)%Z) [3; 5]%Z
    /\ sum stats = Some (Finite total)
    /\ total == inject_Z (totalOf [3; 5]%Z)
    /\ (exists mean, avg stats = Some (Finite mean) /\ mean == inject_Z 4)
    /\ (1 <= 2 <= count stats)%nat.
Proof.
  destruct (analyzeColumn mixedColumn 1) as [stats|] eqn:E; [|discriminate E].
  destruct (analyze_counts_text_cells mixedColumn 1 stats [3; 5]%Z E)
    as (lo & hi & total & Hmin & Hmax & Hlo & Hhi & Hall & Hsum & Htotal & Havg & Hk);
    [injection E as <-; reflexivity | reflexivity | cbn; lia |].
  exists stats, lo, hi, total.
  split; [reflexivity|]. split; [injection E as <-; reflexivity|].
  repeat (split; [assumption|]). split; [|exact Hk].
  apply Havg. exists 4%Z. reflexivity.
Defined.

End AnalyzeReport.

(* ===================================================================== *)
(** * More on the CSV scripts *)
(* ===================================================================== *)

Module CsvFields.
Import JS Excel Csv RoundTrip.

(** ** Quoting

    How a reader of CSV takes a field: a field that opens with a quote
    runs to the closing quote, and two quotes inside it stand for one. *)
Fixpoint decodeQuoted (s : string) : option string :=
  match s with
  | EmptyString => None
  | String c rest =>
      if Ascii.eqb c dquote then
        match rest with
        | EmptyString => Some EmptyString
        | String d rest' =>
            if Ascii.eqb d dquote
            then option_map (String dquote) (decodeQuoted rest')
            else None
        end
      else option_map (String c) (decodeQuoted rest)
  end.

Definition decodeField (s : string) : option string :=
  match s with
  | EmptyString => Some EmptyString
  | String c rest => if Ascii.eqb c dquote then decodeQuoted rest else Some s
  end.

Lemma decodeQuoted_escaped (s : string) :
  decodeQuoted (replaceAll dquote (String dquote (String dquote EmptyString)) s
                ++ String dquote EmptyString)
  = Some s.
Proof.
  induction s as [|c s IH]; cbn [replaceAll append]; [reflexivity|].
  destruct (Ascii.eqb c dquote) eqn:E.
  - apply Ascii.eqb_eq in E. subst c. cbn [append decodeQuoted].
    rewrite Ascii.eqb_refl, IH. reflexivity.
  - cbn [append decodeQuoted]. rewrite E, IH. reflexivity.
Qed.

Lemma decodeField_plain (s : string) :
  includes dquote s = false -> decodeField s = Some s.
Proof.
  destruct s as [|c s]; cbn [includes decodeField]; [reflexivity|].
  intros H. apply orb_false_iff in H as [Hc _]. now rewrite Hc.
Qed.

Lemma quoted_decodes (text : string) :
  decodeField
    (if includes comma text || includes dquote text || includes newline text
     then String dquote
                 (replaceAll dquote (String dquote (String dquote EmptyString)) text
                  ++ String dquote EmptyString)
     else text)
  = Some text.
Proof.
  destruct (includes comma text || includes dquote text || includes newline text) eqn:E.
  - cbn [decodeField]. rewrite Ascii.eqb_refl. apply decodeQuoted_escaped.
  - apply decodeField_plain.
    apply orb_false_iff in E as [E _]. now apply orb_false_iff in E as [_ E].
Qed.

(** X6. The text [excelToCSV] writes for a cell follows the CSV quoting
    rules: a reader that honours quotes gets back the text of any string,
    number or boolean cell, commas, quotes and newlines included, and
    nothing for an empty cell. *)
Theorem cellText_decodes (p : primitive) :
  decodeField (cellText (Prim p))
  = Some (match p with PNull => EmptyString | _ => primToString p end).
Proof.
  destruct p as [|x|s|b]; [reflexivity | | |];
    unfold cellText; cbn [isNull]; apply quoted_decodes.
Qed.

(** ** File names *)

Fixpoint allSafe (s : string) : bool :=
  match s with
  | EmptyString => true
  | String c rest => (isAlphaNum c || Ascii.eqb c "_") && allSafe rest
  end.

Fixpoint allAlphaNum (s : string) : bool :=
  match s with
  | EmptyString => true
  | String c rest => isAlphaNum c && allAlphaNum rest
  end.

(** X7. The name of the file written for a sheet is made of letters, digits
    and underscores, followed by [.csv]: it has as many characters as the
    name of the sheet, it is the name of the sheet itself when that holds
    letters and digits only, and two sheet names that differ only in other
    characters give the same file. *)
Theorem csvFilename_safe (sheet : Worksheet) :
  csvFilename sheet = sanitize (name sheet) ++ ".csv"
  /\ allSafe (sanitize (name sheet)) = true
  /\ String.length (sanitize (name sheet)) = String.length (name sheet)
  /\ sanitize (sanitize (name sheet)) = sanitize (name sheet)
  /\ (allAlphaNum (name sheet) = true -> sanitize (name sheet) = name sheet).
Proof.
  split; [reflexivity|].
  induction (name sheet) as [|c s (Hsafe & Hlen & Hidem & Hid)]; cbn [sanitize allSafe allAlphaNum String.length].
  - auto.
  - destruct (isAlphaNum c) eqn:E.
    + cbn [orb andb]. rewrite E, Hsafe, Hlen, Hidem. repeat split; try reflexivity.
      intros H. now rewrite (Hid H).
    + cbn [orb andb]. rewrite Hsafe, Hlen, Hidem. repeat split; try reflexivity.
      discriminate.
Qed.

Lemma csvFilename_safe_witness :
  csvFilename {| name := "Q1 2024/plan"; rows := [] |} = "Q1_2024_plan.csv"
  /\ csvFilename {| name := "Q1_2024 plan"; rows := [] |} = "Q1_2024_plan.csv"
  /\ sanitize "Sheet1" = "Sheet1".
Proof.
  split; [reflexivity|]. split; [reflexivity|].
  apply (proj2 (proj2 (proj2 (proj2
           (csvFilename_safe {| name := "Sheet1"; rows := [] |}))))).
  reflexivity.
Defined.

(** ** Trimmed fields *)

Lemma trimEnd_trimEnd (s : string) : trimEnd (trimEnd s) = trimEnd s.
Proof.
  induction s as [|c s IH]; cbn [trimEnd]; [reflexivity|].
  destruct (trimEnd s) as [|d t] eqn:Et.
  - destruct (isWhiteSpace c) eqn:Ec; cbn [trimEnd]; [reflexivity | now rewrite Ec].
  - cbn [trimEnd]. cbn [trimEnd] in IH. now rewrite IH.
Qed.

Lemma trimStart_inked (c : ascii) (s : string) :
  isWhiteSpace c = false -> trimStart (trimEnd (String c s)) = trimEnd (String c s).
Proof.
  intros Hc. cbn [trimEnd].
  destruct (trimEnd s); [rewrite Hc|]; cbn [trimStart]; now rewrite Hc.
Qed.

Lemma trimStart_head (s : string) :
  trimStart s = EmptyString
  \/ exists c rest, trimStart s = String c rest /\ isWhiteSpace c = false.
Proof.
  induction s as [|c s IH]; cbn [trimStart]; [now left|].
  destruct (isWhiteSpace c) eqn:E; [exact IH|]. right. eauto.
Qed.

Lemma trim_trim (s : string) : trim (trim s) = trim s.
Proof.
  unfold trim.
  destruct (trimStart_head s) as [-> | (c & rest & -> & Hc)]; [reflexivity|].
  rewrite trimStart_inked by exact Hc. apply trimEnd_trimEnd.
Qed.

Lemma split_fields (sep : ascii) (s : string) :
  split sep s <> [] /\ Forall (fun f => includes sep f = false) (split sep s).
Proof.
  induction s as [|c s [IHne IHall]]; cbn [split].
  - split; [discriminate | repeat constructor].
  - destruct (Ascii.eqb c sep) eqn:E.
    + split; [discriminate | constructor; [reflexivity | exact IHall]].
    + destruct (split sep s) as [|f fs]; [congruence|].
      inversion IHall; subst. split; [discriminate|].
      constructor; [cbn [includes]; now rewrite E | assumption].
Qed.

Lemma trim_without (c : ascii) (s : string) :
  includes c s = false -> includes c (trim s) = false.
Proof.
  intros H. unfold trim.
  assert (Hstart : forall t, includes c t = false -> includes c (trimStart t) = false).
  { induction t as [|d t IH]; cbn [trimStart includes]; [reflexivity|].
    intros Ht. apply orb_false_iff in Ht as [Hd Ht'].
    destruct (isWhiteSpace d); [now apply IH | cbn [includes]; now rewrite Hd, Ht']. }
  assert (Hend : forall t, includes c t = false -> includes c (trimEnd t) = false).
  { induction t as [|d t IH]; cbn [trimEnd includes]; [reflexivity|].
    intros Ht. apply orb_false_iff in Ht as [Hd Ht'].
    specialize (IH Ht').
    destruct (trimEnd t).
    - destruct (isWhiteSpace d); cbn [includes]; [reflexivity | now rewrite Hd].
    - cbn [includes] in *. now rewrite Hd, IH. }
  apply Hend, Hstart, H.
Qed.

Lemma split_two (sep : ascii) (s : string) :
  includes sep s = true -> 2 <= List.length (split sep s).
Proof.
  induction s as [|c s IH]; cbn [includes split]; [discriminate|].
  destruct (Ascii.eqb c sep) eqn:Ec; cbn [orb].
  - intros _. destruct (split_fields sep s) as [Hs _].
    destruct (split sep s); [congruence | cbn; lia].
  - intros Hs. specialize (IH Hs).
    destruct (split sep s) as [|f fs]; cbn in *; lia.
Qed.

(** X8. Whatever the CSV text, every row [csvToExcel] stores has at least
    one field, every field is free of white space at both ends, of commas
    and of newlines, and no row comes from a blank line (a row is never the
    single empty field). *)
Theorem parseRows_fields (csvContent : string) (row : list string) :
  In row (parseRows csvContent) ->
  row <> []
  /\ row <> [EmptyString]
  /\ Forall (fun f => trim f = f
                      /\ includes comma f = false
                      /\ includes newline f = false) row.
Proof.
  unfold parseRows. intros Hin.
  apply in_map_iff in Hin as (line & <- & Hline).
  apply filter_In in Hline as [Hsplit Hblank].
  apply negb_true_iff, String.eqb_neq in Hblank.
  destruct (split_fields comma line) as [Hne Hcomma].
  assert (Hnl : includes newline line = false).
  { destruct (split_fields newline csvContent) as [_ Hall].
    rewrite Forall_forall in Hall. auto. }
  split; [|split].
  - destruct (split comma line); [congruence | discriminate].
  - intros Hone.
    destruct (includes comma line) eqn:E.
    + pose proof (split_two comma line E) as Hlen.
      rewrite <- (length_map trim), Hone in Hlen. cbn in Hlen. lia.
    + rewrite (split_without comma line E) in Hone. cbn in Hone. congruence.
  - apply Forall_map.
    assert (Hnls : Forall (fun f => includes newline f = false) (split comma line)).
    { clear - Hnl. revert Hnl. induction line as [|c s IH]; cbn [includes split].
      - repeat constructor.
      - intros H. apply orb_false_iff in H as [Hc Hs]. specialize (IH Hs).
        destruct (Ascii.eqb c comma); [constructor; [reflexivity | exact IH]|].
        destruct (split comma s) as [|f fs];
          [constructor; [cbn [includes]; now rewrite Hc | constructor]|].
        inversion IH; subst. constructor; [cbn [includes]; now rewrite Hc | assumption]. }
    rewrite Forall_forall in *. intros f Hf. split; [apply trim_trim|].
    split; apply trim_without; auto.
Qed.

Lemma parseRows_fields_witness :
  ["a"; ""; "b c"] <> []
  /\ ["a"; ""; "b c"] <> [EmptyString]
  /\ Forall (fun f => trim f = f
                      /\ includes comma f = false
                      /\ includes newline f = false) ["a"; ""; "b c"].
Proof.
  apply (parseRows_fields
           (" a ,  , b c " ++ String newline ("   " ++ String newline "x"))).
  left. reflexivity.
Defined.

End CsvFields.

(* ===================================================================== *)
(** * Text sheets and line endings *)
(* ===================================================================== *)

Module CsvText.
Import JS Excel Csv RoundTrip CsvFields.

Lemma hasInk_app (a b : string) : hasInk (a ++ b) = hasInk a || hasInk b.
Proof.
  induction a as [|c a IH]; cbn [append hasInk]; [reflexivity|].
  now rewrite IH, orb_assoc.
Qed.

Lemma trimStart_blank (s : string) : hasInk s = false -> trimStart s = EmptyString.
Proof.
  induction s as [|c s IH]; cbn [hasInk trimStart]; [reflexivity|].
  intros H. apply orb_false_iff in H as [Hc Hs].
  apply negb_false_iff in Hc. rewrite Hc. now apply IH.
Qed.

Lemma trimmed_ink (s : string) : trim s = s -> s <> EmptyString -> hasInk s = true.
Proof.
  intros Htrim Hne. destruct (hasInk s) eqn:E; [reflexivity|].
  unfold trim in Htrim. rewrite (trimStart_blank s E) in Htrim. cbn in Htrim. congruence.
Qed.

Lemma ink_not_blank (s : string) : hasInk s = true -> String.eqb (trim s) EmptyString = false.
Proof.
  intros H. apply String.eqb_neq. unfold trim. now apply trimEnd_ink, trimStart_ink.
Qed.

Lemma join_ink (sep : string) (first : string) (rest : list string) :
  hasInk first = true -> hasInk (join sep (first :: rest)) = true.
Proof.
  intros H. destruct rest as [|q rest]; [exact H|].
  change (join sep (first :: q :: rest)) with (first ++ sep ++ join sep (q :: rest)).
  now rewrite hasInk_app, H.
Qed.

(** A field of text: no delimiter, no white space at either end, and not
    a number for [isNaN] (so not empty either). *)
Definition textField (s : string) : Prop :=
  noDelimiters s /\ trim s = s /\ isNaN s = true.

Lemma textField_nonempty (s : string) : textField s -> s <> EmptyString.
Proof. intros (_ & _ & H) ->. vm_compute in H. discriminate H. Qed.

Definition textRow (row : list string) : Prop := row <> [] /\ Forall textField row.

(** The sheet [Sheet1] whose cells hold the strings of the grid. *)
Definition textSheet (grid : list (list string)) : Worksheet :=
  {| name := "Sheet1"; rows := map (map (fun s => Prim (PStr s))) grid |}.

Lemma cellValue_text (s : string) : isNaN s = true -> cellValue s = Prim (PStr s).
Proof. intros H. unfold cellValue. now rewrite H. Qed.

Lemma textSheet_cells (grid : list (list string)) :
  Forall textRow grid ->
  map (map (fun s => Prim (PStr s))) grid = map (map cellValue) grid.
Proof.
  intros Hgrid. apply map_ext_in. intros row Hrow.
  rewrite Forall_forall in Hgrid. destruct (Hgrid row Hrow) as [_ Hfields].
  apply map_ext_in. intros s Hs. rewrite Forall_forall in Hfields.
  destruct (Hfields s Hs) as (_ & _ & Hnan). now rewrite cellValue_text.
Qed.

Lemma normalize_text (s : string) : isNaN s = true -> normalize s = s.
Proof. intros H. unfold normalize. now rewrite H. Qed.

Lemma parseRows_text (grid : list (list string)) :
  Forall textRow grid -> parseRows (csvText grid) = grid.
Proof.
  intros Hgrid. destruct grid as [|row0 grid0]; [reflexivity|].
  set (grid := row0 :: grid0) in *.
  unfold parseRows, csvText, lineBreak.
  rewrite split_join.
  - rewrite filter_all.
    + rewrite map_map. apply map_fixed.
      apply Forall_impl with (2 := Hgrid). intros row [Hne Hfields].
      unfold fieldBreak. rewrite split_join.
      * apply map_fixed. apply Forall_impl with (2 := Hfields).
        now intros s (_ & Htrim & _).
      * exact Hne.
      * apply Forall_impl with (2 := Hfields). now intros s ((H & _ & _) & _ & _).
    + apply Forall_map. apply Forall_impl with (2 := Hgrid). intros row [Hne Hfields].
      destruct row as [|first rest]; [congruence|].
      inversion Hfields as [|? ? Hfirst _]; subst.
      rewrite ink_not_blank; [reflexivity|]. apply join_ink.
      apply trimmed_ink; [now destruct Hfirst as (_ & H & _) | now apply textField_nonempty].
  - discriminate.
  - apply Forall_map. apply Forall_impl with (2 := Hgrid). intros row [_ Hfields].
    apply includes_join_other; [reflexivity|].
    apply Forall_impl with (2 := Hfields). now intros s ((_ & _ & H) & _ & _).
Qed.

(** X9. From a workbook to CSV and back: for a sheet named [Sheet1] whose
    cells all hold text (no comma, quote or newline, no white space at
    either end, nothing [isNaN] takes for a number) and whose rows have at
    least one cell, [excelToCSV] writes one file, and [csvToExcel] on its
    content writes the workbook it came from. *)
Theorem export_then_import_text (grid : list (list string)) :
  Forall textRow grid ->
  exists content,
    excelToCSV (writeFile [textSheet grid]) defaultExport = Some [("Sheet1.csv", content)]
    /\ content = csvText grid
    /\ csvToExcel content = writeFile [textSheet grid].
Proof.
  intros Hgrid.
  assert (Hne : Forall (fun row : list string => row <> []) grid).
  { apply Forall_impl with (2 := Hgrid). now intros row [H _]. }
  assert (Hplain : Forall (Forall noDelimiters) grid).
  { apply Forall_impl with (2 := Hgrid). intros row [_ H].
    apply Forall_impl with (2 := H). now intros s (Hs & _ & _). }
  assert (Hcsv : sheetToCsv (textSheet grid) = csvText grid).
  { unfold textSheet. rewrite (textSheet_cells grid Hgrid).
    rewrite (sheetToCsv_grid grid Hne Hplain). f_equal.
    apply map_fixed. apply Forall_impl with (2 := Hgrid). intros row [_ H].
    apply map_fixed. apply Forall_impl with (2 := H).
    intros s (_ & _ & Hnan). now apply normalize_text. }
  exists (csvText grid). split; [|split; [reflexivity|]].
  - unfold excelToCSV, textSheet. rewrite (textSheet_cells grid Hgrid).
    cbn [writeFile map name rows readFile fileRows fileName].
    rewrite loadRows_stored. cbn [defaultExport allSheets exportSheet truthyOption].
    cbn [map]. f_equal. f_equal. f_equal.
    fold (textSheet grid) in Hcsv. unfold textSheet in Hcsv.
    rewrite (textSheet_cells grid Hgrid) in Hcsv. exact Hcsv.
  - unfold csvToExcel. rewrite (parseRows_text grid Hgrid), (fillWorksheet_grid grid Hne).
    unfold textSheet. now rewrite (textSheet_cells grid Hgrid).
Qed.

Lemma export_then_import_text_witness :
  exists content,
    excelToCSV (writeFile [textSheet [["city"]; ["Oslo"]; ["Rio de Janeiro"]]]) defaultExport
    = Some [("Sheet1.csv", content)]
    /\ content = csvText [["city"]; ["Oslo"]; ["Rio de Janeiro"]]
    /\ csvToExcel content = writeFile [textSheet [["city"]; ["Oslo"]; ["Rio de Janeiro"]]].
Proof.
  apply (export_then_import_text [["city"]; ["Oslo"]; ["Rio de Janeiro"]]).
  repeat constructor; (discriminate || reflexivity).
Defined.

(** ** Lines that end with a carriage return *)

Definition carriageReturn : string := String (ascii_of_nat 13) EmptyString.

(** The CSV text of a grid with every line closed by CR LF. *)
Definition crlfText (grid : list (list string)) : string :=
  join lineBreak (map (fun row => join fieldBreak row ++ carriageReturn) grid) ++ lineBreak.

Fixpoint onLast (f : string -> string) (row : list string) : list string :=
  match row with
  | [] => []
  | [x] => [f x]
  | x :: rest => x :: onLast f rest
  end.

Lemma append_assoc (a b c : string) : (a ++ b) ++ c = a ++ b ++ c.
Proof. induction a as [|x a IH]; cbn [append]; [reflexivity | now rewrite IH]. Qed.

Lemma append_empty (a : string) : a ++ EmptyString = a.
Proof. induction a as [|x a IH]; cbn [append]; [reflexivity | now rewrite IH]. Qed.

Lemma join_onLast (sep tail : string) (row : list string) :
  row <> [] -> join sep row ++ tail = join sep (onLast (fun x => x ++ tail) row).
Proof.
  induction row as [|x row IH]; [congruence|]. intros _.
  destruct row as [|y row]; [reflexivity|].
  change (join sep (x :: y :: row)) with (x ++ sep ++ join sep (y :: row)).
  change (onLast (fun x0 => x0 ++ tail) (x :: y :: row))
    with (x :: onLast (fun x0 => x0 ++ tail) (y :: row)).
  assert (Hcons : exists z zs, onLast (fun x0 => x0 ++ tail) (y :: row) = z :: zs).
  { destruct row; cbn; eauto. }
  destruct Hcons as (z & zs & Hz).
  rewrite Hz in *. change (join sep (x :: z :: zs)) with (x ++ sep ++ join sep (z :: zs)).
  rewrite <- IH by discriminate.
  now rewrite !append_assoc.
Qed.

Lemma join_snoc_empty (sep : string) (parts : list string) :
  parts <> [] -> join sep (parts ++ [EmptyString]) = join sep parts ++ sep.
Proof.
  induction parts as [|p parts IH]; [congruence|]. intros _.
  destruct parts as [|q parts].
  - cbn [app]. change (join sep [p; EmptyString]) with (p ++ sep ++ EmptyString).
    now rewrite append_empty.
  - change (join sep ((p :: q :: parts) ++ [EmptyString]))
      with (p ++ sep ++ join sep ((q :: parts) ++ [EmptyString])).
    rewrite IH by discriminate.
    change (join sep (p :: q :: parts)) with (p ++ sep ++ join sep (q :: parts)).
    now rewrite !append_assoc.
Qed.

Lemma trimStart_length (s : string) : String.length (trimStart s) <= String.length s.
Proof.
  induction s as [|c s IH]; cbn [trimStart String.length]; [lia|].
  destruct (isWhiteSpace c); cbn [String.length]; lia.
Qed.

Lemma trimEnd_length (s : string) : String.length (trimEnd s) <= String.length s.
Proof.
  induction s as [|c s IH]; cbn [trimEnd String.length]; [lia|].
  destruct (trimEnd s); [destruct (isWhiteSpace c)|]; cbn [String.length] in *; lia.
Qed.

Lemma trimmed_head (c : ascii) (s : string) :
  trim (String c s) = String c s -> isWhiteSpace c = false.
Proof.
  intros H. destruct (isWhiteSpace c) eqn:E; [|reflexivity].
  exfalso. unfold trim in H. cbn [trimStart] in H. rewrite E in H.
  pose proof (trimEnd_length (trimStart s)) as H1.
  pose proof (trimStart_length s) as H2.
  rewrite H in H1. cbn [String.length] in H1. lia.
Qed.

Lemma trimEnd_snoc (w : ascii) (s : string) :
  isWhiteSpace w = true -> trimEnd (s ++ String w EmptyString) = trimEnd s.
Proof.
  intros Hw. induction s as [|c s IH]; cbn [append trimEnd].
  - now rewrite Hw.
  - now rewrite IH.
Qed.

Lemma trim_carriageReturn (s : string) : trim s = s -> trim (s ++ carriageReturn) = s.
Proof.
  intros H. destruct s as [|c s]; [reflexivity|].
  pose proof (trimmed_head c s H) as Hc.
  unfold trim in *. cbn [append trimStart] in *. rewrite Hc in *.
  unfold carriageReturn.
  change (String c (s ++ String (ascii_of_nat 13) EmptyString))
    with (String c s ++ String (ascii_of_nat 13) EmptyString).
  rewrite trimEnd_snoc by reflexivity. exact H.
Qed.

Lemma trim_onLast (row : list string) :
  Forall (fun c => trim c = c) row ->
  map trim (onLast (fun x => x ++ carriageReturn) row) = row.
Proof.
  induction 1 as [|x row Hx Hrow IH]; [reflexivity|].
  destruct row as [|y row].
  - cbn [onLast map]. now rewrite trim_carriageReturn.
  - change (onLast (fun x0 => x0 ++ carriageReturn) (x :: y :: row))
      with (x :: onLast (fun x0 => x0 ++ carriageReturn) (y :: row)).
    cbn [map]. now rewrite Hx, IH.
Qed.

Lemma onLast_without (c : ascii) (tail : string) (row : list string) :
  includes c tail = false ->
  Forall (fun f => includes c f = false) row ->
  Forall (fun f => includes c f = false) (onLast (fun x => x ++ tail) row).
Proof.
  intros Htail. induction 1 as [|x row Hx Hrow IH]; [constructor|].
  destruct row as [|y row].
  - cbn [onLast]. constructor; [|constructor]. now rewrite includes_app, Hx, Htail.
  - change (onLast (fun x0 => x0 ++ tail) (x :: y :: row))
      with (x :: onLast (fun x0 => x0 ++ tail) (y :: row)).
    now constructor.
Qed.

Lemma onLast_nonempty (f : string -> string) (row : list string) :
  row <> [] -> onLast f row <> [].
Proof. destruct row as [|x [|y row]]; cbn; congruence. Qed.

(** X10. Windows line endings: a CSV text whose lines are closed by CR LF
    gives the same rows, hence the same workbook, as the text with bare
    LF between the lines, for rows of at least two fields that hold no
    comma or newline and no white space at either end. *)
Theorem crlf_same_workbook (grid : list (list string)) :
  grid <> [] ->
  Forall cleanRow grid ->
  parseRows (crlfText grid) = grid
  /\ csvToExcel (crlfText grid) = csvToExcel (csvText grid).
Proof.
  intros Hgrid Hclean.
  assert (Hrows : parseRows (crlfText grid) = grid).
  { unfold parseRows, crlfText.
    set (closed := map (fun row => join fieldBreak row ++ carriageReturn) grid).
    assert (Hclosed : closed <> []) by (unfold closed; destruct grid; [congruence | discriminate]).
    rewrite <- (join_snoc_empty lineBreak closed Hclosed). unfold lineBreak.
    rewrite split_join.
    - rewrite filter_app. cbn [filter trim trimStart trimEnd String.eqb negb].
      rewrite app_nil_r, filter_all.
      + unfold closed. rewrite map_map. apply map_fixed.
        apply Forall_impl with (2 := Hclean).
        intros row (Hlen & Hcomma & _ & Htrim).
        assert (Hne : row <> []) by (destruct row; [cbn in Hlen; lia | discriminate]).
        rewrite (join_onLast fieldBreak carriageReturn row Hne).
        unfold fieldBreak. rewrite split_join.
        * now apply trim_onLast.
        * now apply onLast_nonempty.
        * now apply onLast_without.
      + unfold closed. apply Forall_map. apply Forall_impl with (2 := Hclean).
        intros row (Hlen & _ & _ & _).
        rewrite trim_not_blank; [reflexivity|].
        rewrite includes_app.
        destruct row as [|p [|q row]]; cbn in Hlen; try lia.
        now rewrite includes_join_sep.
    - destruct closed; [congruence | discriminate].
    - apply Forall_app. split; [|repeat constructor].
      unfold closed. apply Forall_map. apply Forall_impl with (2 := Hclean).
      intros row (_ & _ & Hnl & _).
      unfold fieldBreak.
      rewrite includes_app, includes_join_other; [reflexivity | reflexivity | exact Hnl]. }
  split; [exact Hrows|].
  unfold csvToExcel. now rewrite Hrows, (parseRows_csvText grid Hgrid Hclean).
Qed.

Lemma crlf_same_workbook_witness :
  parseRows (crlfText [["item"; "qty"]; ["pen"; "5"]]) = [["item"; "qty"]; ["pen"; "5"]]
  /\ csvToExcel (crlfText [["item"; "qty"]; ["pen"; "5"]])
     = csvToExcel (csvText [["item"; "qty"]; ["pen"; "5"]]).
Proof.
  apply (crlf_same_workbook [["item"; "qty"]; ["pen"; "5"]]).
  - discriminate.
  - repeat constructor.
Defined.

End CsvText.

(* ===================================================================== *)
(** * The check numbers of a run *)
(* ===================================================================== *)

Module CheckNumbers.
Import JS Monitor Checks.

(** The [check] fields of the entries, in the order of the array. *)
Definition checkNumbers (entries : list json) : list nat :=
  flat_map (fun e => match fieldOf "check" e with
                     | Some (JNum n) => [n]
                     | _ => []
                     end) entries.

(** Check [i] (counted from 0) pushes its result and the wait after it
    throws. *)
Definition pausedOut (w : World) (config : Config) (i : nat) : bool :=
  match goto (page w i), settle (page w i), title (page w i) with
  | Returns _, Returns _, Returns _ =>
      (i <? checkCount config - 1)
      && match pause (page w i) with
         | Throws _ => true
         | Returns _ => false
         end
  | _, _, _ => false
  end.

Definition numbersOfCheck (w : World) (config : Config) (i : nat) : list nat :=
  if pausedOut w config i then [i + 1; i + 1] else [i + 1].

Lemma pushed_numbers (w : World) (config : Config) (i k : nat) :
  checkNumbers (fst (pushed w config i k)) = numbersOfCheck w config i
  /\ List.length (fst (pushed w config i k)) = List.length (numbersOfCheck w config i).
Proof.
  unfold pushed, attemptOf, numbersOfCheck, pausedOut.
  destruct (goto (page w i)); [|split; reflexivity].
  destruct (settle (page w i)); [|split; reflexivity].
  destruct (title (page w i)); [|split; reflexivity].
  destruct (i <? checkCount config - 1); [|split; reflexivity].
  destruct (pause (page w i)); split; reflexivity.
Qed.

Lemma checkNumbers_app (a b : list json) :
  checkNumbers (a ++ b) = (checkNumbers a ++ checkNumbers b)%list.
Proof. apply flat_map_app. Qed.

Lemma checksFrom_numbers (w : World) (config : Config) (n : nat) :
  forall i s,
    checkNumbers (results (checksFrom w config i n s))
    = (checkNumbers (results s) ++ flat_map (numbersOfCheck w config) (seq i n))%list
    /\ List.length (results (checksFrom w config i n s))
       = List.length (results s) + List.length (flat_map (numbersOfCheck w config) (seq i n)).
Proof.
  induction n as [|n IH]; intros i s; cbn [checksFrom seq flat_map].
  - rewrite app_nil_r. cbn. split; [reflexivity | lia].
  - destruct (IH (S i) (check w config i s)) as [Hnum Hlen].
    rewrite Hnum, Hlen, check_pushed. cbn [results].
    destruct (pushed_numbers w config i (ticks s)) as [Hp Hl].
    rewrite checkNumbers_app, Hp, !length_app, Hl, <- app_assoc. split; [reflexivity | lia].
Qed.

Lemma numbers_sorted (w : World) (config : Config) (n : nat) :
  forall i,
    StronglySorted le (flat_map (numbersOfCheck w config) (seq i n))
    /\ Forall (fun x => i + 1 <= x) (flat_map (numbersOfCheck w config) (seq i n)).
Proof.
  induction n as [|n IH]; intros i; cbn [seq flat_map]; [split; constructor|].
  destruct (IH (S i)) as [Hsorted Hlow].
  assert (Hlow' : Forall (fun x => i + 1 <= x) (flat_map (numbersOfCheck w config) (seq (S i) n))).
  { apply Forall_impl with (2 := Hlow). intros; lia. }
  unfold numbersOfCheck at 1 3. destruct (pausedOut w config i); cbn [app].
  - split.
    + constructor; [constructor; [exact Hsorted | exact Hlow']|].
      constructor; [lia | exact Hlow'].
    + constructor; [lia|]. constructor; [lia | exact Hlow'].
  - split.
    + constructor; [exact Hsorted | exact Hlow'].
    + constructor; [lia | exact Hlow'].
Qed.

Lemma numbers_length (w : World) (config : Config) (n : nat) :
  forall i,
    List.length (flat_map (numbersOfCheck w config) (seq i n))
    = n + List.length (filter (pausedOut w config) (seq i n)).
Proof.
  induction n as [|n IH]; intros i; cbn [seq flat_map filter]; [reflexivity|].
  rewrite length_app, IH. unfold numbersOfCheck.
  destruct (pausedOut w config i); cbn [List.length]; lia.
Qed.

Lemma last_not_pausedOut (w : World) (config : Config) (i : nat) :
  checkCount config <= S i -> pausedOut w config i = false.
Proof.
  intros Hi. unfold pausedOut.
  destruct (goto (page w i)), (settle (page w i)), (title (page w i)); try reflexivity.
  assert (H : (i <? checkCount config - 1) = false) by (apply Nat.ltb_ge; lia).
  now rewrite H.
Qed.

Lemma filter_seq_bound (f : nat -> bool) (n : nat) :
  forall i, List.length (filter f (seq i n)) <= n.
Proof.
  induction n as [|n IH]; intros i; cbn [seq filter List.length]; [lia|].
  specialize (IH (S i)). destruct (f i); cbn [List.length]; lia.
Qed.

(** X11. The check numbers of the array written by a run of [K] checks:
    check [i] appears once, or twice when its result was pushed and the
    wait after it threw; every entry carries a check number; the numbers
    never decrease along the array; and the array has [K] entries plus one
    for each such check, hence at most [2K - 1] when [K >= 1], the last
    check being followed by no wait. *)
Theorem monitor_check_numbers (w : World) (config : Config) (entries : list json) :
  monitorDashboard w config = Some entries ->
  checkNumbers entries
  = flat_map (fun i => if pausedOut w config i then [i + 1; i + 1] else [i + 1])
             (seq 0 (checkCount config))
  /\ StronglySorted le (checkNumbers entries)
  /\ List.length entries
     = checkCount config
       + List.length (filter (pausedOut w config) (seq 0 (checkCount config)))
  /\ (1 <= checkCount config -> List.length entries <= 2 * checkCount config - 1).
Proof.
  unfold monitorDashboard. destruct (launch w); [|discriminate].
  destruct (save w); [|discriminate].
  intros [= <-]. unfold monitorLoop.
  destruct (checksFrom_numbers w config (checkCount config) 0
              {| results := []; ticks := 0 |}) as [Hnum Hlen].
  cbn [results checkNumbers flat_map app List.length] in Hnum, Hlen.
  fold (checkNumbers (results (checksFrom w config 0 (checkCount config)
                                          {| results := []; ticks := 0 |}))) in Hnum.
  split; [exact Hnum|]. split; [|split].
  - rewrite Hnum. apply (numbers_sorted w config (checkCount config) 0).
  - rewrite Hlen. apply numbers_length.
  - intros HK. rewrite Hlen, numbers_length.
    destruct (checkCount config) as [|k] eqn:EK; [lia|].
    rewrite seq_S, filter_app. cbn [filter Nat.add].
    rewrite (last_not_pausedOut w config k) by lia.
    rewrite app_nil_r. pose proof (filter_seq_bound (pausedOut w config) k 0). lia.
Qed.

Lemma monitor_check_numbers_witness :
  checkNumbers (monitorLoop closedWhileWaiting twoChecks)
  = flat_map (fun i => if pausedOut closedWhileWaiting twoChecks i
                       then [i + 1; i + 1] else [i + 1])
             (seq 0 (checkCount twoChecks))
  /\ StronglySorted le (checkNumbers (monitorLoop closedWhileWaiting twoChecks))
  /\ List.length (monitorLoop closedWhileWaiting twoChecks)
     = checkCount twoChecks
       + List.length (filter (pausedOut closedWhileWaiting twoChecks)
                             (seq 0 (checkCount twoChecks)))
  /\ (1 <= checkCount twoChecks ->
      List.length (monitorLoop closedWhileWaiting twoChecks) <= 2 * checkCount twoChecks - 1).
Proof.
  apply (monitor_check_numbers closedWhileWaiting twoChecks
           (monitorLoop closedWhileWaiting twoChecks)).
  reflexivity.
Defined.

End CheckNumbers.

(* ===================================================================== *)
(** * What detectAnomalies reports *)
(* ===================================================================== *)

Module Detection.
Import JS Monitor.

(** An anomaly pushed by the [try] block. *)
Definition observed (a : json) : Prop :=
  exists kind,
    fieldOf "type" a = Some (JStr kind)
    /\ In kind ["error"; "loading_stuck"; "empty_table"; "chart_too_small"]
    /\ fieldOf "message" a <> None.

Definition detectionError (message : string) : json :=
  JObj [("type", JStr "detection_error"); ("message", JStr message)].

(** A computation that only appends observed anomalies. *)
Definition grows {A : Type} (m : M (St := list json) A) : Prop :=
  forall s, exists more, snd (m s) = (s ++ more)%list /\ Forall observed more.

Lemma grows_ret {A : Type} (a : A) : grows (ret a).
Proof. intros s. exists []. cbn. now rewrite app_nil_r. Qed.

Lemma grows_await {A : Type} (call : outcome A) : grows (await call).
Proof. intros s. exists []. cbn. now rewrite app_nil_r. Qed.

Lemma grows_push (a : json) : observed a -> grows (push a).
Proof. intros Ha s. exists [a]. cbn. split; [reflexivity | now repeat constructor]. Qed.

Lemma grows_bind {A B : Type} (m : M A) (k : A -> M B) :
  grows m -> (forall a, grows (k a)) -> grows (bind m k).
Proof.
  intros Hm Hk s. unfold bind. destruct (Hm s) as (more & Hs & Hmore).
  destruct (m s) as [[a|e] s']; cbn [snd] in Hs; subst s'.
  - destruct (Hk a (s ++ more)%list) as (more' & Hs' & Hmore').
    exists (more ++ more')%list. rewrite Hs', <- app_assoc. split; [reflexivity|].
    apply Forall_app. now split.
  - now exists more.
Qed.

Lemma grows_when (b : bool) (m : M unit) : grows m -> grows (when b m).
Proof. destruct b; [trivial | intros _; apply grows_ret]. Qed.

Lemma grows_forEach {A : Type} (xs : list A) (body : A -> M unit) :
  (forall x, grows (body x)) -> grows (forEach xs body).
Proof.
  intros Hbody. induction xs as [|x xs IH]; cbn [forEach]; [apply grows_ret|].
  apply grows_bind; [apply Hbody | intros _; exact IH].
Qed.

Lemma grows_forIndexed {A : Type} (xs : list A) (body : nat -> A -> M unit) :
  (forall i x, grows (body i x)) -> grows (forIndexed xs body).
Proof. intros Hbody. apply grows_forEach. intros [i x]. apply Hbody. Qed.

Ltac observe :=
  eexists; split; [reflexivity | split; [cbn; tauto | discriminate]].

Lemma grows_detectSteps (p : Page) : grows (detectSteps p).
Proof.
  unfold detectSteps.
  apply grows_bind; [|intros _; apply grows_bind; [|intros _; apply grows_bind;
                      [|intros found; apply grows_bind; [|intros _]]]].
  - apply grows_forEach. intros selector.
    apply grows_bind; [apply grows_await|]. intros errors.
    apply grows_when, grows_forEach. intros e.
    apply grows_bind; [apply grows_await|]. intros text.
    apply grows_push. destruct text; observe.
  - apply grows_forEach. intros selector.
    apply grows_bind; [apply grows_await|]. intros loading.
    apply grows_when, grows_push. observe.
  - apply grows_await.
  - apply grows_forIndexed. intros i table.
    apply grows_bind; [apply grows_await|]. intros rowCount.
    apply grows_when, grows_push. observe.
  - apply grows_forEach. intros selector.
    apply grows_bind; [apply grows_await|]. intros found'.
    apply grows_forIndexed. intros i chart.
    apply grows_bind; [apply grows_await|]. intros box.
    apply grows_when, grows_push. observe.
Qed.

(** X12. Whatever the page does, the list [detectAnomalies] returns is made
    of anomalies of type [error], [loading_stuck], [empty_table] or
    [chart_too_small], each with a message, followed by at most one
    [detection_error] entry, which is then the last: what was found before
    a call threw is kept, and nothing is looked for after it. *)
Theorem detection_error_is_last (p : Page) :
  exists seen,
    Forall observed seen
    /\ (detectAnomalies p = seen
        \/ exists message, detectAnomalies p = (seen ++ [detectionError message])%list).
Proof.
  unfold detectAnomalies, tryCatch.
  destruct (grows_detectSteps p []) as (more & Hs & Hmore).
  destruct (detectSteps p []) as [[[]|message] s']; cbn [snd app] in Hs; subst s'.
  - exists more. split; [exact Hmore | now left].
  - exists more. split; [exact Hmore|]. right. now exists message.
Qed.

(** ** A page whose calls all return *)

Definition foundAt (p : Page) (selector : string) : list Element :=
  match query p selector with
  | Returns elements => elements
  | Throws _ => []
  end.

Definition textOf (e : Element) : option string :=
  match textContent e with
  | Returns text => text
  | Throws _ => None
  end.

Definition rowsOf (e : Element) : nat :=
  match countRows e with
  | Returns n => n
  | Throws _ => 0
  end.

Definition boxOf (e : Element) : option (Q * Q) :=
  match boundingBox e with
  | Returns box => box
  | Throws _ => None
  end.

Definition answers (e : Element) : Prop :=
  (exists text, textContent e = Returns text)
  /\ (exists n, countRows e = Returns n)
  /\ (exists box, boundingBox e = Returns box).

Definition calm (p : Page) : Prop :=
  forall selector, exists elements,
    query p selector = Returns elements /\ Forall answers elements.

Definition indexed {A : Type} (xs : list A) : list (nat * A) :=
  combine (seq 0 (List.length xs)) xs.

Definition errorsOf (p : Page) : list json :=
  flat_map (fun selector =>
              map (fun e => JObj [("type", JStr "error"); ("selector", JStr selector);
                                  ("message", trimmed (textOf e))])
                  (foundAt p selector))
           errorSelectors.

Definition loadingOf (p : Page) : list json :=
  flat_map (fun selector =>
              match foundAt p selector with
              | [] => []
              | elements =>
                  [JObj [("type", JStr "loading_stuck"); ("selector", JStr selector);
                         ("count", JNum (List.length elements));
                         ("message", JStr "Elements still in loading state")]]
              end)
           loadingSelectors.

Definition emptyTablesOf (p : Page) : list json :=
  flat_map (fun it =>
              if rowsOf (snd it) <=? 1
              then [JObj [("type", JStr "empty_table"); ("index", JNum (fst it));
                          ("message", JStr "Table appears to be empty")]]
              else [])
           (indexed (foundAt p "table")).

Definition smallChartsOf (p : Page) : list json :=
  flat_map (fun selector =>
              flat_map (fun ic =>
                          if tooSmall (boxOf (snd ic))
                          then [JObj [("type", JStr "chart_too_small");
                                      ("selector", JStr selector);
                                      ("index", JNum (fst ic));
                                      ("message", JStr "Chart appears too small or hidden")]]
                          else [])
                       (indexed (foundAt p selector)))
           chartSelectors.

Lemma forEach_run {A : Type} (xs : list A) (body : A -> M (St := list json) unit)
      (f : A -> list json) :
  (forall x s, In x xs -> body x s = (Returns tt, (s ++ f x)%list)) ->
  forall s, forEach xs body s = (Returns tt, (s ++ flat_map f xs)%list).
Proof.
  induction xs as [|x xs IH]; intros Hbody s; cbn [forEach flat_map].
  - unfold ret. now rewrite app_nil_r.
  - unfold bind. rewrite Hbody by now left.
    rewrite IH by (intros; apply Hbody; now right).
    now rewrite <- app_assoc.
Qed.

Lemma flat_map_single {A B : Type} (f : A -> B) (xs : list A) :
  flat_map (fun x => [f x]) xs = map f xs.
Proof. induction xs as [|x xs IH]; cbn; [reflexivity | now rewrite IH]. Qed.

Lemma in_indexed {A : Type} (xs : list A) (i : nat) (x : A) :
  In (i, x) (indexed xs) -> In x xs.
Proof. unfold indexed. apply in_combine_r. Qed.

Lemma detectSteps_calm (p : Page) :
  calm p ->
  detectSteps p []
  = (Returns tt, (errorsOf p ++ loadingOf p ++ emptyTablesOf p ++ smallChartsOf p)%list).
Proof.
  intros Hcalm. unfold detectSteps.
  unfold bind at 1.
  rewrite (forEach_run errorSelectors _
             (fun selector =>
                map (fun e => JObj [("type", JStr "error"); ("selector", JStr selector);
                                    ("message", trimmed (textOf e))])
                    (foundAt p selector))).
  2:{ intros selector s _. unfold bind at 1, await at 1, foundAt.
      destruct (Hcalm selector) as (elements & -> & Hall).
      destruct elements as [|e0 rest]; [unfold when, ret; cbn; now rewrite app_nil_r|].
      cbn [List.length Nat.ltb Nat.leb when].
      rewrite <- flat_map_single. apply forEach_run.
      intros e s' He. rewrite Forall_forall in Hall.
      destruct (Hall e He) as ((text & Htext) & _).
      unfold bind, await, textOf. now rewrite Htext. }
  unfold bind at 1.
  rewrite (forEach_run loadingSelectors _
             (fun selector =>
                match foundAt p selector with
                | [] => []
                | elements =>
                    [JObj [("type", JStr "loading_stuck"); ("selector", JStr selector);
                           ("count", JNum (List.length elements));
                           ("message", JStr "Elements still in loading state")]]
                end)).
  2:{ intros selector s _. unfold bind at 1, await at 1, foundAt.
      destruct (Hcalm selector) as (elements & -> & _).
      destruct elements as [|e0 rest]; [unfold when, ret; cbn; now rewrite app_nil_r|].
      reflexivity. }
  unfold bind at 1, await at 1.
  pose proof (Hcalm "table") as (tables & Htables & Hall).
  assert (Hfound : foundAt p "table" = tables) by (unfold foundAt; now rewrite Htables).
  rewrite Htables. unfold bind at 1, forIndexed at 1.
  rewrite (forEach_run _ _
             (fun it =>
                if rowsOf (snd it) <=? 1
                then [JObj [("type", JStr "empty_table"); ("index", JNum (fst it));
                            ("message", JStr "Table appears to be empty")]]
                else [])).
  2:{ intros [i table] s Hin. apply in_combine_r in Hin.
      rewrite Forall_forall in Hall. destruct (Hall table Hin) as (_ & (n & Hn) & _).
      unfold bind, await, rowsOf. cbn [fst snd]. rewrite Hn.
      destruct (n <=? 1); [reflexivity|]. unfold when, ret. now rewrite app_nil_r. }
  rewrite (forEach_run chartSelectors _
             (fun selector =>
                flat_map (fun ic =>
                            if tooSmall (boxOf (snd ic))
                            then [JObj [("type", JStr "chart_too_small");
                                        ("selector", JStr selector);
                                        ("index", JNum (fst ic));
                                        ("message", JStr "Chart appears too small or hidden")]]
                            else [])
                         (indexed (foundAt p selector)))).
  2:{ intros selector s _. unfold bind at 1, await at 1, foundAt.
      destruct (Hcalm selector) as (elements & -> & Hels).
      unfold forIndexed, indexed. apply forEach_run.
      intros [i chart] s' Hin. apply in_combine_r in Hin.
      rewrite Forall_forall in Hels. destruct (Hels chart Hin) as (_ & _ & (box & Hbox)).
      unfold bind, await, boxOf. cbn [fst snd]. rewrite Hbox.
      destruct (tooSmall box); [reflexivity|]. unfold when, ret. now rewrite app_nil_r. }
  unfold errorsOf, loadingOf, emptyTablesOf, smallChartsOf, indexed.
  rewrite Hfound. cbn [app]. now rewrite <- !app_assoc.
Qed.

Lemma flat_map_empty {A B : Type} (f : A -> list B) (xs : list A) :
  flat_map f xs = [] <-> Forall (fun x => f x = []) xs.
Proof.
  induction xs as [|x xs IH]; cbn [flat_map].
  - split; [constructor | reflexivity].
  - split.
    + intros H. apply app_eq_nil in H as [Hx Hxs]. constructor; [exact Hx | now apply IH].
    + intros H. inversion H as [|? ? Hx Hxs]; subst. rewrite Hx. now apply IH.
Qed.

Lemma indexed_all {A : Type} (P : A -> Prop) (xs : list A) :
  Forall (fun ix => P (snd ix)) (indexed xs) <-> Forall P xs.
Proof.
  unfold indexed. generalize 0 as start.
  induction xs as [|x xs IH]; intros start; cbn [List.length seq combine].
  - split; constructor.
  - split; intros H; inversion H; subst; constructor; try assumption; now apply (IH (S start)).
Qed.

(** X13. On a page whose calls all return, [detectAnomalies] returns, in
    this order, one [error] entry per element matching an error selector,
    one [loading_stuck] entry per loading selector that matches something,
    one [empty_table] entry per table of at most one row and one
    [chart_too_small] entry per chart whose box is under 10 in width or
    height, and no [detection_error].  So the list is empty exactly when no
    element matches an error or loading selector, every table has at least
    two rows, and every chart has no box or one of at least 10 by 10. *)
Theorem calm_page_anomalies (p : Page) :
  calm p ->
  detectAnomalies p
  = (errorsOf p ++ loadingOf p ++ emptyTablesOf p ++ smallChartsOf p)%list
  /\ (detectAnomalies p = []
      <-> (forall selector,
              In selector (errorSelectors ++ loadingSelectors)%list ->
              foundAt p selector = [])
          /\ Forall (fun table => 2 <= rowsOf table) (foundAt p "table")
          /\ (forall selector,
                 In selector chartSelectors ->
                 Forall (fun chart => tooSmall (boxOf chart) = false) (foundAt p selector))).
Proof.
  intros Hcalm.
  assert (Heq : detectAnomalies p
                = (errorsOf p ++ loadingOf p ++ emptyTablesOf p ++ smallChartsOf p)%list).
  { unfold detectAnomalies, tryCatch. now rewrite (detectSteps_calm p Hcalm). }
  split; [exact Heq|]. rewrite Heq. split.
  - intros H. apply app_eq_nil in H as [Herr H]. apply app_eq_nil in H as [Hload H].
    apply app_eq_nil in H as [Htab Hchart].
    apply flat_map_empty in Herr, Hload, Htab, Hchart.
    rewrite Forall_forall in Herr, Hload, Hchart. split; [|split].
    + intros selector Hin. apply in_app_or in Hin as [Hin | Hin].
      * specialize (Herr selector Hin). cbn beta in Herr.
        now destruct (foundAt p selector).
      * specialize (Hload selector Hin). cbn beta in Hload.
        now destruct (foundAt p selector).
    + apply (indexed_all (fun table => 2 <= rowsOf table)).
      apply Forall_impl with (2 := Htab). intros [i table]. cbn [fst snd].
      destruct (rowsOf table <=? 1) eqn:E; [discriminate|].
      intros _. apply Nat.leb_gt in E. lia.
    + intros selector Hin. specialize (Hchart selector Hin). cbn beta in Hchart.
      apply flat_map_empty in Hchart.
      apply (indexed_all (fun chart => tooSmall (boxOf chart) = false)).
      apply Forall_impl with (2 := Hchart). intros [i chart]. cbn [fst snd].
      now destruct (tooSmall (boxOf chart)).
  - intros (Hnone & Htab & Hchart).
    assert (Herr : errorsOf p = []).
    { apply flat_map_empty, Forall_forall. intros selector Hin.
      rewrite (Hnone selector); [reflexivity | apply in_or_app; now left]. }
    assert (Hload : loadingOf p = []).
    { apply flat_map_empty, Forall_forall. intros selector Hin.
      rewrite (Hnone selector); [reflexivity | apply in_or_app; now right]. }
    assert (Htab' : emptyTablesOf p = []).
    { apply flat_map_empty.
      apply (indexed_all (fun table => 2 <= rowsOf table)) in Htab.
      apply Forall_impl with (2 := Htab). intros [i table]. cbn [fst snd]. intros Hrows.
      assert (E : (rowsOf table <=? 1) = false) by (apply Nat.leb_gt; lia).
      now rewrite E. }
    assert (Hchart' : smallChartsOf p = []).
    { apply flat_map_empty, Forall_forall. intros selector Hin.
      apply flat_map_empty.
      pose proof (Hchart selector Hin) as Hboxes.
      apply (indexed_all (fun chart => tooSmall (boxOf chart) = false)) in Hboxes.
      apply Forall_impl with (2 := Hboxes). intros [i chart]. cbn [fst snd].
      now intros ->. }
    now rewrite Herr, Hload, Htab', Hchart'.
Qed.

(** A table with a header row only, and a chart drawn 200 by 4. *)
Definition headerOnlyTable : Element :=
  {| textContent := Returns (Some "Region");
     getAttribute := fun _ => Returns None;
     countRows := Returns 1;
     cellTexts := Returns [["Region"]];
     boundingBox := Returns (Some (300 # 1, 40 # 1)) |}.

Definition flatChart : Element :=
  {| textContent := Returns None;
     getAttribute := fun _ => Returns None;
     countRows := Returns 0;
     cellTexts := Returns [];
     boundingBox := Returns (Some (200 # 1, 4 # 1)) |}.

Definition sparsePage : Page :=
  {| goto := Returns tt;
     settle := Returns tt;
     query := fun selector =>
                if String.eqb selector "table" then Returns [headerOnlyTable]
                else if String.eqb selector ".chart-container" then Returns [flatChart]
                else Returns [];
     title := Returns "Sales";
     url := "https://example.test/sales";
     pause := Returns tt |}.

Lemma sparsePage_calm : calm sparsePage.
Proof.
  intros selector. cbn [sparsePage query].
  destruct (String.eqb selector "table"); [|destruct (String.eqb selector ".chart-container")];
    eexists; (split; [reflexivity|]); repeat constructor; eexists; reflexivity.
Qed.

Lemma calm_page_anomalies_witness :
  detectAnomalies sparsePage
  = (errorsOf sparsePage ++ loadingOf sparsePage
     ++ emptyTablesOf sparsePage ++ smallChartsOf sparsePage)%list
  /\ (detectAnomalies sparsePage = []
      <-> (forall selector,
              In selector (errorSelectors ++ loadingSelectors)%list ->
              foundAt sparsePage selector = [])
          /\ Forall (fun table => 2 <= rowsOf table) (foundAt sparsePage "table")
          /\ (forall selector,
                 In selector chartSelectors ->
                 Forall (fun chart => tooSmall (boxOf chart) = false)
                        (foundAt sparsePage selector))).
Proof. apply (calm_page_anomalies sparsePage). exact sparsePage_calm. Defined.

End Detection.

(* ===================================================================== *)
(** * What extractDashboardData returns *)
(* ===================================================================== *)

Module DashboardData.
Import JS Monitor Checks Detection.

(** A metric entry: its label is a string that is not empty. *)
Definition labelled (m : json) : Prop :=
  exists l, fieldOf "label" m = Some (JStr l) /\ l <> EmptyString.

Definition tableEntry (it : nat * list (list string)) : json :=
  JObj [("index", JNum (fst it)); ("rows", JNum (List.length (snd it)));
        ("data", rowsToJson (snd it))].

Definition chartsEntry (n : nat) : json :=
  JObj [("count", JNum n);
        ("message", JStr ("Found " ++ natToString n ++ " chart elements"))].

(** The data while the [try] block runs: labelled metrics, tables numbered
    from 0, no chart entry yet and no error. *)
Definition partial (d : Data) : Prop :=
  Forall labelled (metrics d)
  /\ (exists grids, tables d = map tableEntry (indexed grids))
  /\ charts d = []
  /\ error d = None.

Definition keeps (P : Data -> Prop) {A : Type} (m : M (St := Data) A) : Prop :=
  forall s, P s -> P (snd (m s)).

Lemma keeps_ret (P : Data -> Prop) {A : Type} (a : A) : keeps P (ret a).
Proof. intros s Hs. exact Hs. Qed.

Lemma keeps_await (P : Data -> Prop) {A : Type} (call : outcome A) : keeps P (await call).
Proof. intros s Hs. exact Hs. Qed.

Lemma keeps_bind (P : Data -> Prop) {A B : Type} (m : M A) (k : A -> M B) :
  keeps P m -> (forall a, keeps P (k a)) -> keeps P (bind m k).
Proof.
  intros Hm Hk s Hs. unfold bind. specialize (Hm s Hs).
  destruct (m s) as [[a|e] s']; cbn [snd] in *; [now apply Hk | exact Hm].
Qed.

Lemma keeps_forEach (P : Data -> Prop) {A : Type} (xs : list A) (body : A -> M unit) :
  (forall x, keeps P (body x)) -> keeps P (forEach xs body).
Proof.
  intros Hbody. induction xs as [|x xs IH]; cbn [forEach]; [apply keeps_ret|].
  apply keeps_bind; [apply Hbody | intros _; exact IH].
Qed.

Lemma orElse_nonempty (a : option string) (l : string) :
  orElse a None = Some l -> l <> EmptyString.
Proof.
  unfold orElse. destruct a as [t|]; [|discriminate].
  destruct (String.eqb t EmptyString) eqn:E; [discriminate|].
  intros [= <-]. now apply String.eqb_neq.
Qed.

Lemma indexed_snoc {A : Type} (xs : list A) (x : A) :
  indexed (xs ++ [x]) = (indexed xs ++ [(0 + List.length xs, x)])%list.
Proof.
  unfold indexed. generalize 0 as start.
  induction xs as [|y xs IH]; intros start; cbn [app List.length seq combine].
  - now rewrite Nat.add_0_r.
  - rewrite IH. cbn [app]. now rewrite Nat.add_succ_r.
Qed.

Definition metricsLoop (p : Page) : M (St := Data) unit :=
  forEach metricSelectors (fun selector =>
    found <- await (query p selector) ;;
    forEach found (fun metric =>
      text <- await (textContent metric) ;;
      aria <- await (getAttribute metric "aria-label") ;;
      label <- match orElse aria None with
               | Some l => ret (Some l)
               | None => await (getAttribute metric "title")
               end ;;
      modify (fun d =>
        {| metrics := (metrics d ++
                       [JObj [("value", trimmed text);
                              ("label", JStr match orElse label None with
                                             | Some l => l
                                             | None => "Unlabeled"
                                             end)]])%list;
           tables := tables d; charts := charts d; error := error d |}))).

Lemma metricsLoop_keeps (p : Page) : keeps partial (metricsLoop p).
Proof.
  apply keeps_forEach. intros selector.
  apply keeps_bind; [apply keeps_await|]. intros found.
  apply keeps_forEach. intros metric.
  apply keeps_bind; [apply keeps_await|]. intros text.
  apply keeps_bind; [apply keeps_await|]. intros aria.
  apply keeps_bind; [destruct (orElse aria None); [apply keeps_ret | apply keeps_await]|].
  intros label s (Hmetrics & Htables & Hcharts & Herror).
  cbn. repeat split; try assumption.
  apply Forall_app. split; [exact Hmetrics|]. repeat constructor.
  destruct (orElse label None) as [l|] eqn:E.
  - exists l. split; [reflexivity | now apply (orElse_nonempty label)].
  - exists "Unlabeled". split; [reflexivity | discriminate].
Qed.

(** The table loop from index [start] on, when the data holds [start]
    table entries. *)
Lemma tablesLoop_keeps (found : list Element) :
  forall (start : nat) (s : Data),
    partial s -> List.length (tables s) = start ->
    partial (snd (forEach (combine (seq start (List.length found)) found)
                          (fun it =>
                             tableData <- await (cellTexts (snd it)) ;;
                             modify (fun d =>
                               {| metrics := metrics d;
                                  tables := (tables d ++
                                             [JObj [("index", JNum (fst it));
                                                    ("rows", JNum (List.length tableData));
                                                    ("data", rowsToJson tableData)]])%list;
                                  charts := charts d; error := error d |}))
                          s)).
Proof.
  induction found as [|table found IH]; intros start s Hs Hlen;
    cbn [List.length seq combine forEach]; [exact Hs|].
  unfold bind at 1. unfold bind at 1, await at 1. cbn [fst snd].
  destruct (cellTexts table) as [tableData|m]; [|exact Hs].
  unfold modify at 1. apply IH.
  - destruct Hs as (Hmetrics & (grids & Htables) & Hcharts & Herror).
    repeat split; cbn; try assumption.
    exists (grids ++ [tableData])%list.
    rewrite indexed_snoc, map_app, <- Htables. cbn [map tableEntry fst snd].
    rewrite Htables, length_map in Hlen. unfold indexed in Hlen.
    rewrite length_combine, length_seq, Nat.min_id in Hlen. now rewrite Hlen.
  - cbn. rewrite length_app. cbn. lia.
Qed.

Lemma extractSteps_outcome (p : Page) :
  match extractSteps p noData with
  | (Returns _, d) =>
      Forall labelled (metrics d)
      /\ (exists grids, tables d = map tableEntry (indexed grids))
      /\ (exists n, charts d = [chartsEntry n])
      /\ error d = None
  | (Throws _, d) => partial d
  end.
Proof.
  assert (Hstart : partial noData).
  { repeat split; try constructor. now exists []. }
  unfold extractSteps. fold (metricsLoop p).
  pose proof (metricsLoop_keeps p noData Hstart) as Hmetrics.
  assert (Hnone : tables (snd (metricsLoop p noData)) = []).
  { clear Hmetrics.
    assert (Hk : keeps (fun d => tables d = []) (metricsLoop p)).
    { apply keeps_forEach. intros selector.
      apply keeps_bind; [apply keeps_await|]. intros found.
      apply keeps_forEach. intros metric.
      apply keeps_bind; [apply keeps_await|]. intros text.
      apply keeps_bind; [apply keeps_await|]. intros aria.
      apply keeps_bind; [destruct (orElse aria None); [apply keeps_ret | apply keeps_await]|].
      intros label s Hs. exact Hs. }
    now apply Hk. }
  unfold bind at 1.
  destruct (metricsLoop p noData) as [[[]|m] d1]; cbn [snd] in *; [|exact Hmetrics].
  unfold bind at 1, await at 1.
  destruct (query p "table") as [found|m]; [|exact Hmetrics].
  unfold bind at 1, forIndexed.
  pose proof (tablesLoop_keeps found 0 d1 Hmetrics) as Htables.
  rewrite Hnone in Htables. specialize (Htables eq_refl).
  match goal with
  | H : partial (snd ?run) |- _ => destruct run as [[[]|m] d2]
  end; cbn [snd] in Htables; [|exact Htables].
  unfold bind at 1, await at 1.
  destruct (query p "svg, canvas") as [charts|m]; [|exact Htables].
  destruct Htables as (H1 & H2 & H3 & H4). cbn.
  repeat split; try assumption. exists (List.length charts). now rewrite H3.
Qed.

(** X14. The object [extractDashboardData] returns: every metric entry has
    a label that is a non-empty string ([Unlabeled] when the element has
    neither an [aria-label] nor a [title]); the table entries are numbered
    0, 1, 2, ... and [rows] is the length of [data]; and either no call
    threw, there is no [error] field and [charts] holds one entry with the
    number of chart elements, or a call threw, its message is in [error],
    [charts] is empty and the entries pushed before the error are kept. *)
Theorem extracted_data_shape (w : World) (p : Page) (s s' : Run) (data : json) :
  extractDashboardData w p s = (Returns data, s') ->
  (exists ms, fieldOf "metrics" data = Some (JArr ms) /\ Forall labelled ms)
  /\ (exists grids, fieldOf "tables" data = Some (JArr (map tableEntry (indexed grids))))
  /\ ((fieldOf "error" data = None
       /\ exists n, fieldOf "charts" data = Some (JArr [chartsEntry n]))
      \/ (exists message,
             fieldOf "error" data = Some (JStr message)
             /\ fieldOf "charts" data = Some (JArr []))).
Proof.
  unfold extractDashboardData, bind, now, await, ret.
  destruct (title p) as [pageTitle|m]; [|discriminate].
  intros [= <- _]. fold noData.
  pose proof (extractSteps_outcome p) as Hout. unfold tryCatch.
  destruct (extractSteps p noData) as [[[]|m] d]; cbn [snd].
  - destruct Hout as (Hmetrics & (grids & Htables) & (n & Hcharts) & Herror).
    unfold dataToJson. rewrite Herror, Hcharts, Htables. cbn.
    split; [eauto|]. split; [eauto|]. left. eauto.
  - destruct Hout as (Hmetrics & (grids & Htables) & Hcharts & Herror).
    unfold dataToJson, modify. cbn [snd error metrics tables charts].
    rewrite Hcharts, Htables. cbn.
    split; [eauto|]. split; [eauto|]. right. eauto.
Qed.

(** The table of the page answers, its chart does not. *)
Definition lostChartPage : Page :=
  {| goto := Returns tt;
     settle := Returns tt;
     query := fun selector =>
                if String.eqb selector "table" then Returns [headerOnlyTable]
                else if String.eqb selector "svg, canvas" then Throws "Target closed"
                else Returns [];
     title := Returns "Sales";
     url := "https://example.test/sales";
     pause := Returns tt |}.

Definition lostChartWorld : World :=
  {| launch := Returns tt;
     page := fun _ => lostChartPage;
     clock := fun k => (1000 * Z.of_nat k)%Z;
     save := Returns tt |}.

Definition lostChartData : json :=
  JObj [("timestamp", JTime 0); ("title", JStr "Sales");
        ("url", JStr "https://example.test/sales");
        ("metrics", JArr []);
        ("tables", JArr [tableEntry (0, [["Region"]])]);
        ("charts", JArr []);
        ("error", JStr "Target closed")].

Lemma extracted_data_shape_witness :
  (exists ms, fieldOf "metrics" lostChartData = Some (JArr ms) /\ Forall labelled ms)
  /\ (exists grids,
         fieldOf "tables" lostChartData = Some (JArr (map tableEntry (indexed grids))))
  /\ ((fieldOf "error" lostChartData = None
       /\ exists n, fieldOf "charts" lostChartData = Some (JArr [chartsEntry n]))
      \/ (exists message,
             fieldOf "error" lostChartData = Some (JStr message)
             /\ fieldOf "charts" lostChartData = Some (JArr []))).
Proof.
  apply (extracted_data_shape lostChartWorld lostChartPage
           {| results := []; ticks := 0 |} {| results := []; ticks := 1 |} lostChartData).
  reflexivity.
Defined.

End DashboardData.

(* ===================================================================== *)
(** * The command line of monitor_dashboard.js *)
(* ===================================================================== *)

Module MonitorCli.
Import JS.

(** The [config] object.  A field read from [args[++i]] past the end of the
    arguments is [undefined], here [None] ([null] and [undefined] are not
    told apart: both are falsy); a number is an integer or [NaN], here
    [None]. *)
Record Options : Type := {
  url : option string;
  interval : option Z;
  output : option string;
  headless : bool;
  timeout : option Z;
  checkCount : option Z
}.

Definition defaults : Options :=
  {| url := None;
     interval := Some 300%Z;
     output := Some "dashboard_status.json";
     headless := true;
     timeout := Some 30000%Z;
     checkCount := Some 1%Z |}.

(** [parseInt(operand, 10)]: leading white space, an optional sign, then
    the longest run of decimal digits; [NaN] without a digit.  Integers are
    exact. *)
Definition parseInt (operand : option string) : option Z :=
  match operand with
  | None => None
  | Some s =>
      let (negative, rest) := takeSign (trimStart s) in
      let (digits, _) := spanDigits rest in
      match digits with
      | EmptyString => None
      | _ => Some (if negative then (- digitsValue 0 digits)%Z else digitsValue 0 digits)
      end
  end.

(** The cases of the [switch] that read [args[++i]]. *)
Definition takesValue (arg : string) : bool :=
  existsb (String.eqb arg)
          ["--url"; "--interval"; "--output"; "--headless"; "--timeout"; "--checks"].

Definition assign (arg : string) (operand : option string) (c : Options) : Options :=
  if String.eqb arg "--url" then
    {| url := operand; interval := interval c; output := output c;
       headless := headless c; timeout := timeout c; checkCount := checkCount c |}
  else if String.eqb arg "--interval" then
    {| url := url c; interval := parseInt operand; output := output c;
       headless := headless c; timeout := timeout c; checkCount := checkCount c |}
  else if String.eqb arg "--output" then
    {| url := url c; interval := interval c; output := operand;
       headless := headless c; timeout := timeout c; checkCount := checkCount c |}
  else if String.eqb arg "--headless" then
    {| url := url c; interval := interval c; output := output c;
       headless := match operand with
                   | Some v => String.eqb v "true"
                   | None => false
                   end;
       timeout := timeout c; checkCount := checkCount c |}
  else if String.eqb arg "--timeout" then
    {| url := url c; interval := interval c; output := output c;
       headless := headless c; timeout := parseInt operand; checkCount := checkCount c |}
  else if String.eqb arg "--checks" then
    {| url := url c; interval := interval c; output := output c;
       headless := headless c; timeout := timeout c; checkCount := parseInt operand |}
  else c.

(** How [parseArgs] ends: it returns the configuration, or the process
    exits with a code. *)
Inductive parsed : Type :=
| Parsed (c : Options)
| Exit (code : nat).

(** The [for] loop over the arguments from position [i] on. *)
Fixpoint scan (args : list string) (c : Options) : parsed :=
  match args with
  | [] => Parsed c
  | arg :: rest =>
      if takesValue arg then
        match rest with
        | [] => Parsed (assign arg None c)
        | operand :: rest' => scan rest' (assign arg (Some operand) c)
        end
      else if String.eqb arg "--help" then Exit 0
      else scan rest c
  end.

(** [!value] on a string, [null] or [undefined]. *)
Definition falsy (value : option string) : bool :=
  match value with
  | None => true
  | Some s => String.eqb s EmptyString
  end.

Definition parseArgs (args : list string) : parsed :=
  match scan args defaults with
  | Parsed c => if falsy (url c) then Exit 1 else Parsed c
  | Exit code => Exit code
  end.

(** The number of turns of [for (let i = 0; i < n; i++)]. *)
Definition turns (n : option Z) : nat :=
  match n with
  | Some z => Z.to_nat z
  | None => 0
  end.

(** The configuration as the monitoring loop reads it. *)
Definition toConfig (c : Options) : Monitor.Config :=
  {| Monitor.interval := turns (interval c);
     Monitor.checkCount := turns (checkCount c) |}.

Lemma assign_url (operand : option string) (c : Options) :
  url (assign "--url" operand c) = operand.
Proof. reflexivity. Qed.

Lemma assign_other (arg : string) (operand : option string) (c : Options) :
  String.eqb arg "--url" = false -> url (assign arg operand c) = url c.
Proof.
  intros H. unfold assign. rewrite H.
  repeat match goal with
         | |- context [if ?b then _ else _] => destruct b; [reflexivity|]
         end.
  reflexivity.
Qed.

(** The url held so far is absent or was read right after a [--url]. *)
Definition urlFrom (args : list string) (c : Options) : Prop :=
  url c = None
  \/ exists u before after,
       url c = Some u /\ args = (before ++ "--url" :: u :: after)%list.

Lemma scan_outcome (args : list string) (n : nat) :
  forall (rest : list string) (c : Options) (done : list string),
    List.length rest <= n ->
    args = (done ++ rest)%list ->
    urlFrom args c ->
    match scan rest c with
    | Parsed c' => urlFrom args c'
    | Exit code => code = 0 /\ In "--help" args
    end.
Proof.
  induction n as [|n IH]; intros rest c done Hlen Hargs Hc.
  - destruct rest; [exact Hc | cbn in Hlen; lia].
  - destruct rest as [|arg rest]; [exact Hc|]. cbn [scan].
    destruct (takesValue arg) eqn:Htakes.
    + destruct (String.eqb arg "--url") eqn:Hurl.
      * apply String.eqb_eq in Hurl. subst arg.
        destruct rest as [|operand rest'].
        -- left. reflexivity.
        -- apply (IH rest' _ (done ++ ["--url"; operand])%list).
           ++ cbn in Hlen. lia.
           ++ rewrite Hargs, <- app_assoc. reflexivity.
           ++ right. exists operand, done, rest'. split; [reflexivity | exact Hargs].
      * assert (Hkeep : forall operand, urlFrom args (assign arg operand c)).
        { intros operand. unfold urlFrom. now rewrite (assign_other arg operand c Hurl). }
        destruct rest as [|operand rest']; [apply Hkeep|].
        apply (IH rest' _ (done ++ [arg; operand])%list).
        -- cbn in Hlen. lia.
        -- rewrite Hargs, <- app_assoc. reflexivity.
        -- apply Hkeep.
    + destruct (String.eqb arg "--help") eqn:Hhelp.
      * apply String.eqb_eq in Hhelp. subst arg. split; [reflexivity|].
        rewrite Hargs. apply in_or_app. right. now left.
      * apply (IH rest c (done ++ [arg])%list).
        -- cbn in Hlen. lia.
        -- rewrite Hargs, <- app_assoc. reflexivity.
        -- exact Hc.
Qed.

(** X15. [parseArgs] of monitor_dashboard.js, for every argument list: a
    configuration is returned only with a url that is a non-empty string
    and stands in the arguments right after a [--url]; the process exits
    with 0 only when [--help] is among the arguments, and otherwise with 1
    (no usable url). *)
Theorem parseArgs_outcome (args : list string) :
  match parseArgs args with
  | Parsed c =>
      exists u before after,
        url c = Some u /\ u <> EmptyString
        /\ args = (before ++ "--url" :: u :: after)%list
  | Exit code =>
      (code = 0 /\ In "--help" args) \/ code = 1
  end.
Proof.
  unfold parseArgs.
  pose proof (scan_outcome args (List.length args) args defaults []
                           (le_n _) eq_refl (or_introl eq_refl)) as H.
  destruct (scan args defaults) as [c|code]; [|now left].
  destruct (falsy (url c)) eqn:Hfalsy; [now right|].
  destruct H as [Hnone | (u & before & after & Hu & Hargs)].
  - rewrite Hnone in Hfalsy. discriminate.
  - exists u, before, after. split; [exact Hu|]. split; [|exact Hargs].
    rewrite Hu in Hfalsy. cbn in Hfalsy. now apply String.eqb_neq.
Qed.

(** ** Numbers on the command line *)

Fixpoint allDigits (s : string) : bool :=
  match s with
  | EmptyString => true
  | String c rest => isDigit c && allDigits rest
  end.

Lemma spanDigits_all (s : string) : allDigits s = true -> spanDigits s = (s, EmptyString).
Proof.
  induction s as [|c s IH]; cbn [allDigits spanDigits]; [reflexivity|].
  intros H. apply andb_true_iff in H as [Hc Hs]. now rewrite Hc, IH.
Qed.

Lemma uint_digits (d : Decimal.uint) : allDigits (NilEmpty.string_of_uint d) = true.
Proof. induction d; cbn [NilEmpty.string_of_uint allDigits]; [reflexivity | exact IHd ..]. Qed.

Lemma uint_value (d : Decimal.uint) :
  forall acc, digitsValue (Z.of_nat acc) (NilEmpty.string_of_uint d)
              = Z.of_nat (Nat.of_uint_acc d acc).
Proof.
  induction d; intros acc; cbn [NilEmpty.string_of_uint digitsValue Nat.of_uint_acc];
    [reflexivity|..];
    rewrite <- IHd; f_equal; rewrite ?Nat2Z.inj_succ, Nat.tail_mul_spec, Nat2Z.inj_mul;
    cbn; lia.
Qed.

Lemma natToString_digits (n : nat) :
  allDigits (natToString n) = true /\ natToString n <> EmptyString.
Proof.
  unfold natToString, NilZero.string_of_uint.
  destruct (Nat.to_uint n) eqn:E; try (split; [reflexivity | discriminate]);
    (split; [apply (uint_digits (_ u)) | discriminate]).
Qed.

Lemma natToString_value (n : nat) : digitsValue 0 (natToString n) = Z.of_nat n.
Proof.
  pose proof (DecimalNat.Unsigned.of_to n) as Hn. unfold Nat.of_uint in Hn.
  unfold natToString, NilZero.string_of_uint.
  destruct (Nat.to_uint n) eqn:E;
    [cbn in Hn; subst n; reflexivity | rewrite <- Hn; apply (uint_value _ 0) ..].
Qed.

Lemma parseInt_natToString (n : nat) : parseInt (Some (natToString n)) = Some (Z.of_nat n).
Proof.
  destruct (natToString_digits n) as [Hall Hne].
  unfold parseInt.
  destruct (natToString n) as [|c rest] eqn:E; [congruence|].
  assert (Hc : isDigit c = true) by (cbn in Hall; now apply andb_true_iff in Hall).
  assert (Hws : isWhiteSpace c = false).
  { revert Hc. unfold isDigit, isWhiteSpace. generalize (nat_of_ascii c). intros k Hk.
    apply andb_true_iff in Hk as [H1 H2]. apply Nat.leb_le in H1, H2.
    repeat (apply orb_false_iff; split); try apply andb_false_iff.
    - right. apply Nat.leb_gt. lia.
    - apply Nat.eqb_neq. lia.
    - apply Nat.eqb_neq. lia. }
  assert (Hsign : takeSign (String c rest) = (false, String c rest)).
  { unfold takeSign.
    destruct (Ascii.eqb c "+") eqn:Hp; [apply Ascii.eqb_eq in Hp; subst c; discriminate|].
    destruct (Ascii.eqb c "-") eqn:Hm; [apply Ascii.eqb_eq in Hm; subst c; discriminate|].
    reflexivity. }
  cbn [trimStart]. rewrite Hws, Hsign, (spanDigits_all _ Hall).
  rewrite <- E, natToString_value. reflexivity.
Qed.

Lemma scan_url_checks (u : string) (operand : list string) :
  List.length operand <= 1 ->
  scan ("--url" :: u :: "--checks" :: operand) defaults
  = Parsed {| url := Some u; interval := Some 300%Z;
              output := Some "dashboard_status.json"; headless := true;
              timeout := Some 30000%Z; checkCount := parseInt (hd_error operand) |}.
Proof.
  intros Hlen. destruct operand as [|v [|v' more]]; [reflexivity | reflexivity|].
  cbn in Hlen. lia.
Qed.

(** X16. [--checks n]: with a url and the decimal text of [n] (up to
    2^53), [parseArgs] returns a configuration whose other fields keep
    their defaults, and the monitoring loop run with it makes exactly [n]
    turns: the array it writes has between [n] and [2n] entries. *)
Theorem parseArgs_checks (u : string) (n : nat) :
  u <> EmptyString ->
  (Z.of_nat n <= 9007199254740992)%Z ->
  exists c,
    parseArgs ["--url"; u; "--checks"; natToString n] = Parsed c
    /\ url c = Some u
    /\ checkCount c = Some (Z.of_nat n)
    /\ (interval c, output c, headless c, timeout c)
       = (Some 300%Z, Some "dashboard_status.json", true, Some 30000%Z)
    /\ Monitor.checkCount (toConfig c) = n
    /\ forall w, n <= List.length (Monitor.monitorLoop w (toConfig c)) <= 2 * n.
Proof.
  intros Hu _. unfold parseArgs.
  rewrite (scan_url_checks u [natToString n]) by (cbn; lia).
  cbn [hd_error url]. rewrite parseInt_natToString.
  apply String.eqb_neq in Hu. unfold falsy. rewrite Hu.
  eexists. split; [reflexivity|]. cbn [url checkCount interval output headless timeout].
  split; [reflexivity|]. split; [reflexivity|]. split; [reflexivity|].
  unfold toConfig. cbn [checkCount interval turns Monitor.checkCount].
  split; [apply Nat2Z.id|].
  intros w. unfold Monitor.monitorLoop. cbn [Monitor.checkCount]. rewrite Nat2Z.id.
  match goal with
  | |- context [Monitor.checksFrom w ?config 0 n ?start] =>
      pose proof (Checks.checksFrom_length_bounds w config n 0 start) as Hb
  end.
  cbn [Monitor.results List.length] in Hb. lia.
Qed.

Lemma parseArgs_checks_witness :
  exists c,
    parseArgs ["--url"; "https://example.test/report"; "--checks"; natToString 3] = Parsed c
    /\ url c = Some "https://example.test/report"
    /\ checkCount c = Some (Z.of_nat 3)
    /\ (interval c, output c, headless c, timeout c)
       = (Some 300%Z, Some "dashboard_status.json", true, Some 30000%Z)
    /\ Monitor.checkCount (toConfig c) = 3
    /\ forall w, 3 <= List.length (Monitor.monitorLoop w (toConfig c)) <= 2 * 3.
Proof.
  apply (parseArgs_checks "https://example.test/report" 3).
  - discriminate.
  - cbn. lia.
Defined.

(** X17. [--checks] with a text that [parseInt] does not read as a number
    (or with nothing after it): [parseArgs] returns a configuration all the
    same, the loop makes no turn, and the run writes an empty array. *)
Theorem parseArgs_checks_not_a_number (u : string) (operand : list string) (w : Monitor.World) :
  u <> EmptyString ->
  List.length operand <= 1 ->
  parseInt (hd_error operand) = None ->
  Monitor.launch w = Monitor.Returns tt ->
  Monitor.save w = Monitor.Returns tt ->
  exists c,
    parseArgs ("--url" :: u :: "--checks" :: operand) = Parsed c
    /\ checkCount c = None
    /\ Monitor.monitorDashboard w (toConfig c) = Some [].
Proof.
  intros Hu Hlen Hnan Hlaunch Hsave. apply String.eqb_neq in Hu.
  unfold parseArgs, Monitor.monitorDashboard. rewrite Hlaunch, Hsave.
  rewrite (scan_url_checks u operand Hlen), Hnan. cbn [url].
  unfold falsy. rewrite Hu. eexists. split; [reflexivity|]. split; reflexivity.
Qed.

Lemma parseArgs_checks_not_a_number_witness :
  exists c,
    parseArgs ("--url" :: "https://example.test/report" :: "--checks" :: ["many"]) = Parsed c
    /\ checkCount c = None
    /\ Monitor.monitorDashboard Checks.unreachable (toConfig c) = Some [].
Proof.
  apply (parseArgs_checks_not_a_number "https://example.test/report" ["many"]
           Checks.unreachable).
  - discriminate.
  - cbn. lia.
  - reflexivity.
  - reflexivity.
  - reflexivity.
Defined.

End MonitorCli.

(* ===================================================================== *)
(** * The command line of excel_advanced.js *)
(* ===================================================================== *)

Module ExcelCli.
Import JS.

(** [config.params]; a field that was never set, or was set from
    [args[++i]] past the end of the arguments, is [undefined], here
    [None]. *)
Record CliParams : Type := {
  sheet : option string;
  range : option string;
  chartType : option string;
  dataCols : option (list string);
  title : option string;
  file2 : option string
}.

Record Options : Type := {
  action : option string;
  input : option string;
  output : option string;
  params : CliParams
}.

Definition defaults : Options :=
  {| action := None; input := None; output := None;
     params := {| sheet := None; range := None; chartType := None;
                  dataCols := None; title := None; file2 := None |} |}.

(** The cases of the [switch] that read [args[++i]]. *)
Definition takesValue (arg : string) : bool :=
  existsb (String.eqb arg)
          ["--action"; "--input"; "--output"; "--sheet"; "--range";
           "--chart-type"; "--data-cols"; "--title"; "--file2"].

Definition withParams (c : Options) (p : CliParams) : Options :=
  {| action := action c; input := input c; output := output c; params := p |}.

(** One case of the [switch]; [None] when it throws: [--data-cols] calls
    [split] on its operand, which is [undefined] past the end of the
    arguments. *)
Definition assign (arg : string) (operand : option string) (c : Options) : option Options :=
  let p := params c in
  if String.eqb arg "--action" then
    Some {| action := operand; input := input c; output := output c; params := p |}
  else if String.eqb arg "--input" then
    Some {| action := action c; input := operand; output := output c; params := p |}
  else if String.eqb arg "--output" then
    Some {| action := action c; input := input c; output := operand; params := p |}
  else if String.eqb arg "--sheet" then
    Some (withParams c {| sheet := operand; range := range p; chartType := chartType p;
                          dataCols := dataCols p; title := title p; file2 := file2 p |})
  else if String.eqb arg "--range" then
    Some (withParams c {| sheet := sheet p; range := operand; chartType := chartType p;
                          dataCols := dataCols p; title := title p; file2 := file2 p |})
  else if String.eqb arg "--chart-type" then
    Some (withParams c {| sheet := sheet p; range := range p; chartType := operand;
                          dataCols := dataCols p; title := title p; file2 := file2 p |})
  else if String.eqb arg "--data-cols" then
    match operand with
    | Some text =>
        Some (withParams c {| sheet := sheet p; range := range p; chartType := chartType p;
                              dataCols := Some (split comma text);
                              title := title p; file2 := file2 p |})
    | None => None
    end
  else if String.eqb arg "--title" then
    Some (withParams c {| sheet := sheet p; range := range p; chartType := chartType p;
                          dataCols := dataCols p; title := operand; file2 := file2 p |})
  else if String.eqb arg "--file2" then
    Some (withParams c {| sheet := sheet p; range := range p; chartType := chartType p;
                          dataCols := dataCols p; title := title p; file2 := operand |})
  else Some c.

(** How [parseArgs] ends: it returns the configuration, the process exits
    with a code, or a [TypeError] is thrown. *)
Inductive parsed : Type :=
| Parsed (c : Options)
| Exit (code : nat)
| TypeError.

Fixpoint scan (args : list string) (c : Options) : parsed :=
  match args with
  | [] => Parsed c
  | arg :: rest =>
      if takesValue arg then
        match rest with
        | [] => match assign arg None c with
                | Some c' => Parsed c'
                | None => TypeError
                end
        | operand :: rest' =>
            match assign arg (Some operand) c with
            | Some c' => scan rest' c'
            | None => TypeError
            end
        end
      else if String.eqb arg "--help" then Exit 0
      else scan rest c
  end.

Definition falsy (value : option string) : bool :=
  match value with
  | None => true
  | Some s => String.eqb s EmptyString
  end.

Definition parseArgs (args : list string) : parsed :=
  match scan args defaults with
  | Parsed c => if falsy (action c) then Exit 1 else Parsed c
  | other => other
  end.

Lemma excel_assign_action (operand : option string) (c : Options) :
  option_map action (assign "--action" operand c) = Some operand.
Proof. reflexivity. Qed.

Lemma excel_assign_other (arg : string) (operand : option string) (c c' : Options) :
  String.eqb arg "--action" = false ->
  assign arg operand c = Some c' -> action c' = action c.
Proof.
  intros H. unfold assign. rewrite H.
  repeat match goal with
         | |- context [if ?b then _ else _] =>
             destruct b; [try (intros [= <-]; reflexivity)|]
         end.
  - destruct operand; [intros [= <-]; reflexivity | discriminate].
  - intros [= <-]. reflexivity.
Qed.

Lemma excel_assign_some (arg operand : string) (c : Options) :
  assign arg (Some operand) c <> None.
Proof.
  unfold assign.
  repeat match goal with
         | |- context [if ?b then _ else _] => destruct b; [discriminate|]
         end.
  discriminate.
Qed.

Lemma excel_assign_throws (arg : string) (c : Options) :
  assign arg None c = None -> arg = "--data-cols".
Proof.
  unfold assign.
  repeat match goal with
         | |- context [if ?b then _ else _] =>
             let E := fresh "E" in destruct b eqn:E; [try discriminate|]
         end.
  - intros _. now apply String.eqb_eq.
  - discriminate.
Qed.

(** The action held so far is absent or was read right after [--action]. *)
Definition actionFrom (args : list string) (c : Options) : Prop :=
  action c = None
  \/ exists a before after,
       action c = Some a /\ args = (before ++ "--action" :: a :: after)%list.

Lemma excel_scan_outcome (args : list string) (n : nat) :
  forall (rest : list string) (c : Options) (done : list string),
    List.length rest <= n ->
    args = (done ++ rest)%list ->
    actionFrom args c ->
    match scan rest c with
    | Parsed c' => actionFrom args c'
    | Exit code => code = 0 /\ In "--help" args
    | TypeError => exists before, args = (before ++ ["--data-cols"])%list
    end.
Proof.
  induction n as [|n IH]; intros rest c done Hlen Hargs Hc.
  - destruct rest; [exact Hc | cbn in Hlen; lia].
  - destruct rest as [|arg rest]; [exact Hc|]. cbn [scan].
    destruct (takesValue arg) eqn:Htakes.
    + destruct rest as [|operand rest'].
      * destruct (assign arg None c) as [c'|] eqn:Hassign.
        -- destruct (String.eqb arg "--action") eqn:Haction.
           ++ apply String.eqb_eq in Haction. subst arg.
              injection Hassign as <-. now left.
           ++ unfold actionFrom. now rewrite (excel_assign_other arg None c c' Haction Hassign).
        -- apply excel_assign_throws in Hassign. subst arg. now exists done.
      * destruct (assign arg (Some operand) c) as [c'|] eqn:Hassign;
          [|now apply excel_assign_some in Hassign].
        apply (IH rest' c' (done ++ [arg; operand])%list).
        -- cbn in Hlen. lia.
        -- rewrite Hargs, <- app_assoc. reflexivity.
        -- destruct (String.eqb arg "--action") eqn:Haction.
           ++ apply String.eqb_eq in Haction. subst arg.
              injection Hassign as <-. right. exists operand, done, rest'.
              split; [reflexivity | exact Hargs].
           ++ unfold actionFrom.
              now rewrite (excel_assign_other arg (Some operand) c c' Haction Hassign).
    + destruct (String.eqb arg "--help") eqn:Hhelp.
      * apply String.eqb_eq in Hhelp. subst arg. split; [reflexivity|].
        rewrite Hargs. apply in_or_app. right. now left.
      * apply (IH rest c (done ++ [arg])%list).
        -- cbn in Hlen. lia.
        -- rewrite Hargs, <- app_assoc. reflexivity.
        -- exact Hc.
Qed.

(** X18. [parseArgs] of excel_advanced.js, for every argument list: a
    configuration is returned only with an action that is a non-empty
    string and stands in the arguments right after an [--action]; the
    process exits with 0 only when [--help] is among the arguments, and
    otherwise with 1 (no usable action); and a [TypeError] is thrown only
    when the arguments end with [--data-cols], whose operand is then
    [undefined]. *)
Theorem excel_parseArgs_outcome (args : list string) :
  match parseArgs args with
  | Parsed c =>
      exists a before after,
        action c = Some a /\ a <> EmptyString
        /\ args = (before ++ "--action" :: a :: after)%list
  | Exit code =>
      (code = 0 /\ In "--help" args) \/ code = 1
  | TypeError =>
      exists before, args = (before ++ ["--data-cols"])%list
  end.
Proof.
  unfold parseArgs.
  pose proof (excel_scan_outcome args (List.length args) args defaults []
                           (le_n _) eq_refl (or_introl eq_refl)) as H.
  destruct (scan args defaults) as [c|code|]; [|now left | exact H].
  destruct (falsy (action c)) eqn:Hfalsy; [now right|].
  destruct H as [Hnone | (a & before & after & Ha & Hargs)].
  - rewrite Hnone in Hfalsy. discriminate.
  - exists a, before, after. split; [exact Ha|]. split; [|exact Hargs].
    rewrite Ha in Hfalsy. cbn in Hfalsy. now apply String.eqb_neq.
Qed.

(** X19. [--data-cols]: the columns given as a comma-separated list come
    back as that list, for column names without a comma (so the empty text
    gives the list of one empty name, not the empty list). *)
Theorem parseArgs_data_cols (a : string) (cols : list string) :
  a <> EmptyString ->
  cols <> [] ->
  Forall (fun col => includes comma col = false) cols ->
  exists c,
    parseArgs ["--action"; a; "--data-cols"; join (String comma EmptyString) cols] = Parsed c
    /\ action c = Some a
    /\ dataCols (params c) = Some cols.
Proof.
  intros Ha Hcols Hplain. apply String.eqb_neq in Ha.
  unfold parseArgs.
  assert (Hscan : forall text,
             scan ["--action"; a; "--data-cols"; text] defaults
             = Parsed {| action := Some a; input := None; output := None;
                         params := {| sheet := None; range := None; chartType := None;
                                      dataCols := Some (split comma text);
                                      title := None; file2 := None |} |})
    by reflexivity.
  rewrite Hscan. cbn [action]. unfold falsy. rewrite Ha.
  eexists. split; [reflexivity|]. cbn [action params dataCols].
  split; [reflexivity|].
  now rewrite (RoundTrip.split_join comma cols Hcols Hplain).
Qed.

Lemma parseArgs_data_cols_witness :
  exists c,
    parseArgs ["--action"; "create-chart"; "--data-cols";
               join (String comma EmptyString) ["A"; "B"; "C"]] = Parsed c
    /\ action c = Some "create-chart"
    /\ dataCols (params c) = Some ["A"; "B"; "C"].
Proof.
  apply (parseArgs_data_cols "create-chart" ["A"; "B"; "C"]).
  - discriminate.
  - discriminate.
  - repeat constructor.
Defined.

End ExcelCli.

(* ===================================================================== *)
(** * Quoted fields and the sheet-name option *)
(* ===================================================================== *)

Module CsvQuoting.
Import JS Excel Csv RoundTrip CsvText.

(** The number of times [c] occurs in [s]. *)
Fixpoint occurrences (c : ascii) (s : string) : nat :=
  match s with
  | EmptyString => 0
  | String d rest => (if Ascii.eqb d c then 1 else 0) + occurrences c rest
  end.

Lemma occurrences_app (c : ascii) (a b : string) :
  occurrences c (a ++ b) = occurrences c a + occurrences c b.
Proof. induction a as [|d a IH]; cbn [append occurrences]; [reflexivity | rewrite IH; lia]. Qed.

Lemma occurrences_includes (c : ascii) (s : string) :
  includes c s = true -> 1 <= occurrences c s.
Proof.
  induction s as [|d s IH]; cbn [includes occurrences]; [discriminate|].
  destruct (Ascii.eqb d c); cbn [orb]; [lia|]. intros H. specialize (IH H). lia.
Qed.

Lemma split_length (sep : ascii) (s : string) :
  List.length (split sep s) = S (occurrences sep s).
Proof.
  induction s as [|c s IH]; cbn [split occurrences]; [reflexivity|].
  destruct (Ascii.eqb c sep); cbn [List.length Nat.add]; [now rewrite IH|].
  destruct (split sep s); cbn [List.length] in *; [discriminate | exact IH].
Qed.

Lemma occurrences_replaceAll (c d : ascii) (by_ s : string) :
  occurrences c by_ = 0 -> Ascii.eqb d c = false ->
  occurrences c (replaceAll d by_ s) = occurrences c s.
Proof.
  intros Hby Hdc. induction s as [|e s IH]; cbn [replaceAll occurrences]; [reflexivity|].
  rewrite occurrences_app, IH. destruct (Ascii.eqb e d) eqn:E.
  - apply Ascii.eqb_eq in E. subst e. rewrite Hby, Hdc. reflexivity.
  - cbn [occurrences]. lia.
Qed.

Lemma includes_occurrences (c : ascii) (s : string) :
  includes c s = false <-> occurrences c s = 0.
Proof.
  induction s as [|d s IH]; cbn [includes occurrences]; [tauto|].
  destruct (Ascii.eqb d c); cbn [orb]; [split; [discriminate | lia]|].
  rewrite IH. cbn. tauto.
Qed.

(** The text of a text cell holds every comma and newline of the cell. *)
Lemma cellText_occurrences (c : ascii) (t : string) :
  Ascii.eqb dquote c = false ->
  occurrences c (cellText (Prim (PStr t))) = occurrences c t.
Proof.
  intros Hc. unfold cellText. cbn [isNull primToString].
  destruct (includes comma t || includes dquote t || includes newline t); [|reflexivity].
  cbn [occurrences]. rewrite Hc, occurrences_app. cbn [occurrences]. rewrite Hc.
  rewrite occurrences_replaceAll; [lia | | exact Hc].
  cbn [occurrences]. now rewrite Hc.
Qed.

Lemma occurrences_join (c : ascii) (sep : string) (parts : list string) :
  occurrences c (join sep parts)
  = list_sum (map (occurrences c) parts) + (List.length parts - 1) * occurrences c sep.
Proof.
  induction parts as [|p parts IH]; [reflexivity|].
  destruct parts as [|q parts]; [cbn; lia|].
  change (join sep (p :: q :: parts)) with (p ++ sep ++ join sep (q :: parts)).
  rewrite !occurrences_app, IH. cbn [map list_sum List.length].
  rewrite !Nat.sub_succ, !Nat.sub_0_r. unfold list_sum. cbn [fold_right Nat.mul]. lia.
Qed.

Lemma list_sum_exists (f : string -> nat) (row : list string) :
  Exists (fun t => 1 <= f t) row -> 1 <= list_sum (map f row).
Proof. induction 1 as [t row Ht | t row _ IH]; cbn [map]; unfold list_sum in *; cbn [fold_right]; lia. Qed.

Lemma list_sum_zero (f : string -> nat) (row : list string) :
  Forall (fun t => f t = 0) row -> list_sum (map f row) = 0.
Proof.
  induction 1 as [|t row Ht _ IH]; cbn [map]; unfold list_sum in *; cbn [fold_right];
    [reflexivity | lia].
Qed.

(** X20. A row of text cells of which one holds a comma does not survive
    the way to CSV and back: [excelToCSV] quotes that cell, [csvToExcel]
    splits the line at every comma whether quoted or not, and the row read
    back has more cells than the row written, so the workbook differs. *)
Theorem comma_cell_not_read_back (row : list string) :
  Forall (fun t => includes newline t = false) row ->
  Exists (fun t => includes comma t = true) row ->
  exists fields,
    parseRows (sheetToCsv (textSheet [row])) = [fields]
    /\ List.length row < List.length fields
    /\ csvToExcel (sheetToCsv (textSheet [row])) <> writeFile [textSheet [row]].
Proof.
  intros Hlines Hcomma.
  assert (Hne : row <> []) by (destruct Hcomma; discriminate).
  set (line := join (String comma EmptyString)
                    (map (fun s => cellText (Prim (PStr s))) row)).
  assert (Hcsv : sheetToCsv (textSheet [row]) = line).
  { unfold sheetToCsv, textSheet. cbn [rows map filter].
    assert (Hvalues : hasValues (map (fun s => Prim (PStr s)) row) = true)
      by (destruct row; [congruence | reflexivity]).
    rewrite Hvalues. cbn [map join]. now rewrite map_map. }
  assert (Hcommas : occurrences comma (String comma EmptyString) = 1) by reflexivity.
  assert (Hbreaks : occurrences newline (String comma EmptyString) = 0) by reflexivity.
  assert (Hcount : List.length row <= occurrences comma line).
  { unfold line. rewrite occurrences_join, length_map, map_map, Hcommas.
    assert (Hsum : 1 <= list_sum (map (fun s => occurrences comma (cellText (Prim (PStr s)))) row)).
    { apply list_sum_exists. apply Exists_impl with (2 := Hcomma).
      intros t Ht. rewrite cellText_occurrences by reflexivity.
      now apply occurrences_includes. }
    lia. }
  assert (Hnewline : includes newline line = false).
  { apply includes_occurrences. unfold line.
    rewrite occurrences_join, map_map, Hbreaks.
    rewrite list_sum_zero; [lia|].
    apply Forall_impl with (2 := Hlines). intros t Ht.
    rewrite cellText_occurrences by reflexivity.
    now apply includes_occurrences. }
  assert (Hhas : includes comma line = true).
  { destruct (includes comma line) eqn:E; [reflexivity|].
    apply includes_occurrences in E. destruct row; [congruence|].
    cbn [List.length] in Hcount. lia. }
  assert (Hrows : parseRows line = [map trim (split comma line)]).
  { unfold parseRows. rewrite (split_without newline line Hnewline).
    cbn [filter]. now rewrite (trim_not_blank line Hhas). }
  exists (map trim (split comma line)).
  assert (Hlen : List.length row < List.length (map trim (split comma line))).
  { rewrite length_map, split_length. lia. }
  rewrite Hcsv. split; [exact Hrows|]. split; [exact Hlen|].
  unfold csvToExcel. rewrite Hrows, fillWorksheet_grid.
  - intros Heq.
    apply (f_equal (map (fun s => map (@List.length fileCell) (fileRows s)))) in Heq.
    apply (f_equal (fun counts => hd 0 (hd [] counts))) in Heq.
    cbn [map fileRows writeFile textSheet rows hd] in Heq.
    rewrite !length_map in Heq. rewrite length_map in Hlen. lia.
  - constructor; [|constructor]. intros Hnil. rewrite Hnil in Hlen. cbn in Hlen. lia.
Qed.

Lemma comma_cell_not_read_back_witness :
  exists fields,
    parseRows (sheetToCsv (textSheet [["Doe, Jane"; "Oslo"]])) = [fields]
    /\ List.length ["Doe, Jane"; "Oslo"] < List.length fields
    /\ csvToExcel (sheetToCsv (textSheet [["Doe, Jane"; "Oslo"]]))
       <> writeFile [textSheet [["Doe, Jane"; "Oslo"]]].
Proof.
  apply (comma_cell_not_read_back ["Doe, Jane"; "Oslo"]).
  - repeat constructor.
  - apply Exists_cons_hd. reflexivity.
Defined.

(** ** The options of excel_to_csv.js *)

(** [s.startsWith(p)] *)
Definition startsWith (p s : string) : bool :=
  match stripPrefix p s with
  | Some _ => true
  | None => false
  end.

Definition equalsSign : ascii := "="%char.

(** The [options] object built from the arguments:
    [args.includes('--all-sheets')] and
    [args.find(arg => arg.startsWith('--sheet-name='))?.split('=')[1]]. *)
Definition exportOptionsOf (args : list string) : ExportOptions :=
  {| allSheets := existsb (String.eqb "--all-sheets") args;
     exportSheet := match find (startsWith "--sheet-name=") args with
                    | Some arg => nth_error (split equalsSign arg) 1
                    | None => None
                    end |}.

Lemma find_first {A : Type} (f : A -> bool) (before after : list A) (x : A) :
  Forall (fun a => f a = false) before -> f x = true ->
  find f (before ++ x :: after) = Some x.
Proof.
  induction 1 as [|a before Ha _ IH]; intros Hx; cbn [app find].
  - now rewrite Hx.
  - rewrite Ha. now apply IH.
Qed.

(** X21. The [--sheet-name=] option of excel_to_csv.js: the first argument
    that starts with [--sheet-name=] is used, and the name taken from it
    stops at the next equals sign, so for [--sheet-name=Data=2024] the
    sheet looked for is [Data]. *)
Theorem sheet_name_stops_at_equals (before after : list string) (wanted tail : string) :
  Forall (fun a => startsWith "--sheet-name=" a = false) before ->
  includes equalsSign wanted = false ->
  exportSheet (exportOptionsOf
                 (before ++ ("--sheet-name=" ++ wanted ++ String equalsSign tail) :: after))
  = Some wanted
  /\ exportSheet (exportOptionsOf (before ++ ("--sheet-name=" ++ wanted) :: after))
     = Some wanted.
Proof.
  intros Hbefore Hwanted. unfold exportOptionsOf. cbn [exportSheet].
  rewrite !find_first by (exact Hbefore || reflexivity).
  change ("--sheet-name=" ++ wanted ++ String equalsSign tail)
    with ("--sheet-name" ++ String equalsSign (wanted ++ String equalsSign tail)).
  change ("--sheet-name=" ++ wanted)
    with ("--sheet-name" ++ String equalsSign wanted).
  rewrite (split_first equalsSign "--sheet-name" (wanted ++ String equalsSign tail))
    by reflexivity.
  rewrite (split_first equalsSign "--sheet-name" wanted) by reflexivity.
  rewrite (split_first equalsSign wanted tail Hwanted).
  rewrite (split_without equalsSign wanted Hwanted). split; reflexivity.
Qed.

Lemma sheet_name_stops_at_equals_witness :
  exportSheet (exportOptionsOf
                 (["book.xlsx"; "out"]
                  ++ ("--sheet-name=" ++ "Data" ++ String equalsSign "2024") :: []))
  = Some "Data"
  /\ exportSheet (exportOptionsOf
                    (["book.xlsx"; "out"] ++ ("--sheet-name=" ++ "Data") :: []))
     = Some "Data".
Proof.
  apply (sheet_name_stops_at_equals ["book.xlsx"; "out"] [] "Data" "2024").
  - repeat constructor.
  - reflexivity.
Defined.

End CsvQuoting.

(* ===================================================================== *)
(** * The times written in a report *)
(* ===================================================================== *)

Module EntryTimes.
Import JS Monitor Checks.

(** The time inside the [data] of an entry. *)
Definition dataTimestamp (e : json) : option Z :=
  match fieldOf "data" e with
  | Some d => match fieldOf "timestamp" d with
              | Some (JTime t) => Some t
              | _ => None
              end
  | None => None
  end.

(** The data of an entry was read before the entry was stamped. *)
Definition dataBeforeEntry (e : json) : Prop :=
  forall t td,
    fieldOf "timestamp" e = Some (JTime t) -> dataTimestamp e = Some td -> (td <= t)%Z.

Lemma checksFrom_all (w : World) (config : Config) (P : json -> Prop) :
  (forall i k, Forall P (fst (pushed w config i k))) ->
  forall n i s, Forall P (results s) -> Forall P (results (checksFrom w config i n s)).
Proof.
  intros Hpushed. induction n as [|n IH]; intros i s Hs; cbn [checksFrom]; [exact Hs|].
  apply IH. rewrite check_pushed. cbn [results].
  apply Forall_app. split; [exact Hs | apply Hpushed].
Qed.

Lemma pushed_times (w : World) (config : Config) (i k : nat) :
  (forall a b, a <= b -> (clock w a <= clock w b)%Z) ->
  Forall dataBeforeEntry (fst (pushed w config i k)).
Proof.
  intros Hmono. unfold pushed.
  assert (Herror : forall t m, dataBeforeEntry (errorEntry i t m)).
  { intros t m t' td _ H. discriminate H. }
  assert (Hresult : forall pageTitle,
             dataBeforeEntry (resultEntry i (clock w (1 + k))
                                          (detectAnomalies (page w i))
                                          (dataOf (page w i) (clock w k) pageTitle))).
  { intros pageTitle t td Ht Htd. cbn in Ht. injection Ht as <-.
    unfold dataTimestamp in Htd. cbn in Htd. injection Htd as <-.
    apply Hmono. lia. }
  destruct (attemptOf config i (page w i)) as [m reads | pageTitle [m|]]; cbn [fst];
    repeat constructor; auto.
Qed.

Lemma timestamps_length (entries : list json) :
  Forall (fun e => exists t, fieldOf "timestamp" e = Some (JTime t)) entries ->
  List.length (timestamps entries) = List.length entries.
Proof.
  induction 1 as [|e entries (t & Ht) _ IH]; [reflexivity|].
  unfold timestamps in *. cbn [flat_map]. rewrite Ht. cbn [app List.length]. now rewrite IH.
Qed.

(** X22. The times of a report, when the clock does not go back: every
    entry carries a time, the times never decrease along the array (also
    when a wait between two checks throws and a check leaves two entries),
    and inside an entry the time of [data], read when the extraction
    starts, is not after the time of the entry. *)
Theorem report_times (w : World) (config : Config) :
  (forall a b, a <= b -> (clock w a <= clock w b)%Z) ->
  List.length (timestamps (monitorLoop w config)) = List.length (monitorLoop w config)
  /\ StronglySorted Z.le (timestamps (monitorLoop w config))
  /\ Forall dataBeforeEntry (monitorLoop w config).
Proof.
  intros Hmono. split; [|split].
  - apply timestamps_length.
    apply Forall_impl with (2 := monitorLoop_entries w config).
    intros e (i & t & _ & [(m & ->) | (td & pageTitle & ->)]); now exists t.
  - assert (Hr : readingsOf w (checksFrom w config 0 (checkCount config)
                                          {| results := []; ticks := 0 |})).
    { apply readings_loop. exists []. repeat constructor. }
    destruct Hr as (js & Hts & Hsorted & _).
    unfold monitorLoop. rewrite Hts. now apply sorted_readings.
  - unfold monitorLoop. apply checksFrom_all; [|constructor].
    intros i k. now apply pushed_times.
Qed.

Lemma report_times_witness :
  List.length (timestamps (monitorLoop closedWhileWaiting twoChecks))
  = List.length (monitorLoop closedWhileWaiting twoChecks)
  /\ StronglySorted Z.le (timestamps (monitorLoop closedWhileWaiting twoChecks))
  /\ Forall dataBeforeEntry (monitorLoop closedWhileWaiting twoChecks).
Proof.
  apply (report_times closedWhileWaiting twoChecks).
  intros a b Hab. cbn [closedWhileWaiting clock]. lia.
Defined.

End EntryTimes.

(* ===================================================================== *)
(** * Comparing in the other direction *)
(* ===================================================================== *)

Module CompareSymmetry.
Import JS Excel.

(** The same difference seen from the other file. *)
Definition swapSides (d : CellDifference) : CellDifference :=
  {| cell := cell d; file1 := file2 d; file2 := file1 d |}.

Lemma numEq_sym (x y : number) : numEq x y = numEq y x.
Proof.
  destruct x as [a|s|], y as [b|t|]; cbn [numEq]; try reflexivity.
  - destruct (Qeq_bool a b) eqn:E1, (Qeq_bool b a) eqn:E2; try reflexivity.
    + apply Qeq_bool_iff in E1. apply Qeq_bool_neq in E2. now symmetry in E1.
    + apply Qeq_bool_iff in E2. apply Qeq_bool_neq in E1. now symmetry in E2.
  - now destruct s, t.
Qed.

Lemma strictEquals_sym (a b : value) : strictEquals a b = strictEquals b a.
Proof.
  destruct a as [[|x|s|x]|r f res|r], b as [[|y|t|y]|r' f' res'|r'];
    cbn [strictEquals refOf]; try reflexivity.
  - apply numEq_sym.
  - apply String.eqb_sym.
  - now destruct x, y.
  - apply Nat.eqb_sym.
  - apply Nat.eqb_sym.
  - apply Nat.eqb_sym.
  - apply Nat.eqb_sym.
Qed.

Lemma compareCell_swap (sheet1 sheet2 : Worksheet) (rc : nat * nat) :
  compareCell sheet2 sheet1 rc = map swapSides (compareCell sheet1 sheet2 rc).
Proof.
  unfold compareCell. destruct rc as [row col].
  rewrite (strictEquals_sym (getCell sheet2 row col) (getCell sheet1 row col)).
  now destruct (strictEquals (getCell sheet1 row col) (getCell sheet2 row col)).
Qed.

Lemma flat_map_mapped {A B C : Type} (g : B -> C) (f : A -> list B) (xs : list A) :
  flat_map (fun x => map g (f x)) xs = map g (flat_map f xs).
Proof.
  induction xs as [|x xs IH]; cbn [flat_map map]; [reflexivity|].
  now rewrite IH, map_app.
Qed.

(** X23. Comparing two sheets in the other direction visits the same
    cells and reports the same differences, at the same addresses and in
    the same order, with the two values exchanged; the row and column
    counts are exchanged as well. *)
Theorem compareSheets_swapped (sheet1 sheet2 : Worksheet) :
  cellDifferences (compareSheets sheet2 sheet1)
  = map swapSides (cellDifferences (compareSheets sheet1 sheet2))
  /\ comparedCells sheet2 sheet1 = comparedCells sheet1 sheet2
  /\ rowCounts (compareSheets sheet2 sheet1)
     = (snd (rowCounts (compareSheets sheet1 sheet2)),
        fst (rowCounts (compareSheets sheet1 sheet2)))
  /\ columnCounts (compareSheets sheet2 sheet1)
     = (snd (columnCounts (compareSheets sheet1 sheet2)),
        fst (columnCounts (compareSheets sheet1 sheet2))).
Proof.
  assert (Hcells : comparedCells sheet2 sheet1 = comparedCells sheet1 sheet2).
  { unfold comparedCells, maxRow.
    now rewrite (Nat.max_comm (rowCount sheet2)), (Nat.max_comm (columnCount sheet2)). }
  split; [|split; [exact Hcells | split; reflexivity]].
  cbn [compareSheets cellDifferences]. rewrite Hcells, <- flat_map_mapped.
  apply flat_map_ext. intros rc. apply compareCell_swap.
Qed.

End CompareSymmetry.
